(** * github-dependents-search: the two collectors of [src/index.ts]

    A shallow embedding of the code-search collector ([searchViemRepos]) and
    of the dependents-page scraper ([scrapeGitHubDependents], [parseStarCount],
    [main]), with the properties of the specification stated over it.

    Conventions of the embedding:
    - a JavaScript [number] is an IEEE 754 binary64 value, modelled by the
      Standard Library's [spec_float] at precision 53 and maximal exponent
      1024, with the library's correctly rounded operations;
    - a JavaScript string is a [string]; each [ascii] stands for the UTF-16
      code unit of the same number (0..255);
    - the network is a parameter of each run (the mocked endpoints); what a
      run does to the outside world is recorded in an explicit [world];
    - [console.log] progress lines and the [setTimeout] pauses carry no data
      and are left out of the [world]. *)

From Stdlib Require Import ZArith List Bool Ascii String Lia.
From Stdlib Require Import SpecFloat DecimalString Permutation.
From Stdlib Require DecimalPos.
Import ListNotations.

Local Open Scope string_scope.
Local Open Scope Z_scope.

(* ================================================================= *)
(** ** JavaScript numbers *)

Module JS.

Definition prec : Z := 53.
Definition emax : Z := 1024.

Definition number : Type := spec_float.

Definition NaN : number := S754_nan.
Definition Infinity : number := S754_infinity false.

(** The Number value of a mathematical integer (round to nearest, ties to
    even, overflow to an infinity). *)
Definition of_Z (z : Z) : number := binary_normalize prec emax z 0 false.

(** The Number value of [(-1)^neg * digits * 10^exp10]; a zero keeps the
    sign it was written with. *)
Definition of_decimal (neg : bool) (digits : Z) (exp10 : Z) : number :=
  match digits with
  | Zpos d =>
      match exp10 with
      | Zneg k =>
          SFdiv prec emax (S754_finite neg d 0)
                          (S754_finite false (Pos.pow 10 k) 0)
      | _ => binary_round prec emax neg (d * Z.to_pos (10 ^ exp10))%positive 0
      end
  | _ => S754_zero neg
  end.

Definition mul (x y : number) : number := SFmul prec emax x y.
Definition sub (x y : number) : number := SFsub prec emax x y.
Definition add (x y : number) : number := SFadd prec emax x y.
Definition div (x y : number) : number := SFdiv prec emax x y.

Definition isNaN (x : number) : bool :=
  match x with S754_nan => true | _ => false end.

(** [v < 0] and [v > 0] on a Number. *)
Definition ltz (v : number) : bool :=
  match v with
  | S754_finite true _ _ | S754_infinity true => true
  | _ => false
  end.

Definition gtz (v : number) : bool :=
  match v with
  | S754_finite false _ _ | S754_infinity false => true
  | _ => false
  end.

(** [x <= y], false as soon as one side is NaN. *)
Definition leb (x y : number) : bool := SFleb x y.

(** [Math.round]: the closest integral Number, ties towards +Infinity; a
    result of zero keeps the sign of the argument. *)
Definition Math_round (x : number) : number :=
  match x with
  | S754_finite s m e =>
      if 0 <=? e then x
      else
        let n := (2 * cond_Zopp s (Zpos m) + 2 ^ (- e)) / 2 ^ (1 - e) in
        if n =? 0 then S754_zero s else of_Z n
  | _ => x
  end.

(** Integral Numbers and their integer value. *)
Definition is_integer (x : number) : bool :=
  match x with
  | S754_zero _ => true
  | S754_finite _ m e => (0 <=? e) || (Zpos m mod 2 ^ (- e) =? 0)
  | _ => false
  end.

Definition to_Z (x : number) : option Z :=
  match x with
  | S754_zero _ => Some 0
  | S754_finite s m e =>
      if 0 <=? e then Some (cond_Zopp s (Zpos m * 2 ^ e))
      else if Zpos m mod 2 ^ (- e) =? 0
           then Some (cond_Zopp s (Zpos m / 2 ^ (- e)))
           else None
  | _ => None
  end.

(** A Number that is a zero, a finite value or an infinity of sign [s]. *)
Definition signed (s : bool) (x : number) : Prop :=
  match x with
  | S754_zero s' | S754_infinity s' | S754_finite s' _ _ => s' = s
  | S754_nan => False
  end.

Definition integral_or_infinite (x : number) : Prop :=
  is_integer x = true \/ exists s, x = S754_infinity s.

(** A finite integral Number that is not negative ([+0] and [-0] are 0). *)
Definition nonNegativeInteger (x : number) : Prop :=
  exists z, to_Z x = Some z /\ 0 <= z.

(** The integer [n] is nearest to the finite Number [x], a tie going to the
    greater neighbour: [n - 1/2 <= x < n + 1/2], written without fractions
    for [x = (-1)^s * m * 2^e]. *)
Definition nearest (x : number) (n : Z) : Prop :=
  match x with
  | S754_zero _ => n = 0
  | S754_finite s m e =>
      (2 * n - 1) * 2 ^ Z.max 0 (- e)
        <= 2 * cond_Zopp s (Zpos m) * 2 ^ Z.max 0 e
        < (2 * n + 1) * 2 ^ Z.max 0 (- e)
  | _ => False
  end.

(* ----------------------------------------------------------------- *)
(** *** Strings *)

Definition code (c : ascii) : Z := Z.of_nat (nat_of_ascii c).

(** WhiteSpace and LineTerminator code units (those below 256): TAB, LF, VT,
    FF, CR, SP and NBSP. This is the class [\s] and what [trim] removes. *)
Definition isWhiteSpace (c : ascii) : bool :=
  let n := code c in
  ((9 <=? n) && (n <=? 13)) || (n =? 32) || (n =? 160).

Definition isDigit (c : ascii) : bool :=
  let n := code c in (48 <=? n) && (n <=? 57).

Definition digitValue (c : ascii) : Z := code c - 48.

Fixpoint trimStart (s : string) : string :=
  match s with
  | String c r => if isWhiteSpace c then trimStart r else s
  | EmptyString => s
  end.

Fixpoint trimEnd (s : string) : string :=
  match s with
  | String c r =>
      match trimEnd r with
      | EmptyString => if isWhiteSpace c then EmptyString else String c EmptyString
      | r' => String c r'
      end
  | EmptyString => s
  end.

Definition trim (s : string) : string := trimEnd (trimStart s).

Definition lowerChar (c : ascii) : ascii :=
  let n := code c in
  if ((65 <=? n) && (n <=? 90))
     || ((192 <=? n) && (n <=? 222) && negb (n =? 215))
  then ascii_of_nat (Z.to_nat (n + 32)) else c.

Fixpoint toLowerCase (s : string) : string :=
  match s with
  | String c r => String (lowerChar c) (toLowerCase r)
  | EmptyString => s
  end.

Definition startsWith (s p : string) : bool := String.prefix p s.

Fixpoint includes (s sub : string) : bool :=
  startsWith s sub ||
  match s with
  | String _ r => includes r sub
  | EmptyString => false
  end.

(** [s.replace(c, '')] with a one-character string pattern: only the first
    occurrence goes. *)
Fixpoint removeFirst (c : ascii) (s : string) : string :=
  match s with
  | String d r => if Ascii.eqb d c then r else String d (removeFirst c r)
  | EmptyString => s
  end.

(** [s.replace(/[...]/g, '')] for a character class [cls]. *)
Fixpoint removeAll (cls : ascii -> bool) (s : string) : string :=
  match s with
  | String d r => if cls d then removeAll cls r else String d (removeAll cls r)
  | EmptyString => s
  end.

(** [s.split(c)] with a one-character separator; never the empty list. *)
Fixpoint split (c : ascii) (s : string) : list string :=
  match s with
  | String d r =>
      if Ascii.eqb d c then EmptyString :: split c r
      else match split c r with
           | seg :: segs => String d seg :: segs
           | [] => [String d EmptyString]
           end
  | EmptyString => [EmptyString]
  end.

Definition string_of_Z (z : Z) : string := NilZero.string_of_int (Z.to_int z).

(* ----------------------------------------------------------------- *)
(** *** Numeric literals: [parseInt(s, 10)] and [parseFloat(s)] *)

(** The longest run of decimal digits at the front of [s]: its integer
    value (read after [acc]), its length, and what follows it. *)
Fixpoint readDigits (s : string) (acc : Z) (len : Z) : Z * Z * string :=
  match s with
  | String c r =>
      if isDigit c then readDigits r (10 * acc + digitValue c) (len + 1)
      else (acc, len, s)
  | EmptyString => (acc, len, s)
  end.

(** An optional sign: is it a minus, and what follows. *)
Definition readSign (s : string) : bool * string :=
  match s with
  | String "-" r => (true, r)
  | String "+" r => (false, r)
  | _ => (false, s)
  end.

Definition parseInt (s : string) : number :=
  let '(neg, s1) := readSign (trimStart s) in
  let '(n, len, _) := readDigits s1 0 0 in
  if len =? 0 then NaN
  else if n =? 0 then S754_zero neg
  else of_Z (cond_Zopp neg n).

(** The value of an ExponentPart at the front of [s], 0 when there is none
    (an [e] that no digit follows is not part of the literal). *)
Definition readExponent (s : string) : Z :=
  match s with
  | String c r =>
      if Ascii.eqb c "e" || Ascii.eqb c "E" then
        let '(neg, r1) := readSign r in
        let '(x, len, _) := readDigits r1 0 0 in
        if len =? 0 then 0 else cond_Zopp neg x
      else 0
  | EmptyString => 0
  end.

Definition parseFloat (s : string) : number :=
  let '(neg, s1) := readSign (trimStart s) in
  if startsWith s1 "Infinity" then S754_infinity neg
  else
    let '(ip, ilen, s2) := readDigits s1 0 0 in
    match s2 with
    | String "." s3 =>
        let '(m, flen, s4) := readDigits s3 ip 0 in
        if (ilen =? 0) && (flen =? 0) then NaN
        else of_decimal neg m (readExponent s4 - flen)
    | _ =>
        if ilen =? 0 then NaN
        else of_decimal neg ip (readExponent s2)
    end.

(** The value that [readDigits] reads off a printed numeral. *)
Fixpoint numeral (d : Decimal.uint) (acc : Z) : Z :=
  match d with
  | Decimal.Nil => acc
  | Decimal.D0 d' => numeral d' (10 * acc + 0)
  | Decimal.D1 d' => numeral d' (10 * acc + 1)
  | Decimal.D2 d' => numeral d' (10 * acc + 2)
  | Decimal.D3 d' => numeral d' (10 * acc + 3)
  | Decimal.D4 d' => numeral d' (10 * acc + 4)
  | Decimal.D5 d' => numeral d' (10 * acc + 5)
  | Decimal.D6 d' => numeral d' (10 * acc + 6)
  | Decimal.D7 d' => numeral d' (10 * acc + 7)
  | Decimal.D8 d' => numeral d' (10 * acc + 8)
  | Decimal.D9 d' => numeral d' (10 * acc + 9)
  end.

(** Strings in which every character satisfies [p]. *)
Fixpoint allChars (p : ascii -> bool) (s : string) : bool :=
  match s with
  | String c r => p c && allChars p r
  | EmptyString => true
  end.

End JS.


(* ================================================================= *)
(** ** [Array.prototype.sort] with a comparison function *)

(** The array is sorted stably: [x] goes after [y] only when
    [comparefn x y > 0]; a NaN from the comparison function counts as +0.
    (For a comparison function that is a consistent ordering every stable
    sort returns this list; otherwise the order is the engine's choice and
    the insertion order below is one such choice.) *)
Section Sort.
Context {A : Type}.
Variable comparefn : A -> A -> JS.number.

Fixpoint insert (x : A) (l : list A) : list A :=
  match l with
  | [] => [x]
  | y :: l' => if JS.gtz (comparefn x y) then y :: insert x l' else x :: l
  end.

Definition sort (l : list A) : list A := fold_right insert [] l.
End Sort.

(** [stars] values that do not increase from one element to the next:
    each is [<=] the one before it, as JavaScript compares Numbers. *)
Fixpoint nonIncreasing (l : list JS.number) : bool :=
  match l with
  | x :: (y :: _) as rest => JS.leb y x && nonIncreasing rest
  | _ => true
  end.

(** **** The order of numeric values

    A finite binary64 value is a whole number of units of [2 ^ emin], the
    smallest positive double; [inUnits] is that whole number, exact for
    every Number whose exponent is at least [emin] ([onGrid]). *)
Inductive extended := MinusInfinity | Units (z : Z) | PlusInfinity.

Definition onGrid (x : JS.number) : Prop :=
  match x with
  | S754_finite _ _ e => emin JS.prec JS.emax <= e
  | _ => True
  end.

Definition inUnits (x : JS.number) : option extended :=
  match x with
  | S754_nan => None
  | S754_infinity s => Some (if s then MinusInfinity else PlusInfinity)
  | S754_zero _ => Some (Units 0)
  | S754_finite s m e =>
      Some (Units (cond_Zopp s (Zpos m * 2 ^ (e - emin JS.prec JS.emax))))
  end.

Definition below (a b : extended) : bool :=
  match a, b with
  | MinusInfinity, MinusInfinity => false
  | MinusInfinity, _ => true
  | Units _, MinusInfinity => false
  | Units x, Units y => x <? y
  | Units _, PlusInfinity => true
  | PlusInfinity, _ => false
  end.

(** [x >= y] as numeric values; false when either is NaN. *)
Definition atLeast (x y : JS.number) : Prop :=
  match inUnits x, inUnits y with
  | Some a, Some b => below a b = false
  | _, _ => False
  end.

(** Values that do not increase from one element to the next. *)
Fixpoint descending (l : list JS.number) : Prop :=
  match l with
  | x :: (y :: _) as rest => atLeast x y /\ descending rest
  | _ => True
  end.

(** A duplicate-free list of strings, decided. *)
Fixpoint distinct (l : list string) : bool :=
  match l with
  | x :: rest => negb (existsb (String.eqb x) rest) && distinct rest
  | [] => true
  end.

(* ================================================================= *)
(** ** The outside world of a run *)

Module IO.

Record error := Error { message : string }.

Section World.
(** [R] is the record type a run serialises to its output file. *)
Context {R : Type}.

Record world := World {
  fetches : list string;                    (* URLs given to [fetch], oldest first *)
  stderr : list (string * option error);    (* [console.error] calls *)
  files : list (string * list R)            (* [Bun.write] calls: path, array written *)
}.

Definition start : world := World [] [] [].

Inductive result (A : Type) :=
| Ok (a : A)
| Throw (e : error)      (* an exception on its way up *)
| Exit (code : Z).       (* [process.exit] *)

Definition M (A : Type) : Type := world -> result A * world.

Definition ret {A} (a : A) : M A := fun w => (Ok A a, w).

Definition bind {A B} (c : M A) (k : A -> M B) : M B :=
  fun w =>
    match c w with
    | (Ok _ a, w') => k a w'
    | (Throw _ e, w') => (Throw B e, w')
    | (Exit _ n, w') => (Exit B n, w')
    end.

Definition throw {A} (e : error) : M A := fun w => (Throw A e, w).

Definition process_exit {A} (code : Z) : M A := fun w => (Exit A code, w).

(** [try { c } catch (error) { h error }] *)
Definition tryCatch {A} (c : M A) (h : error -> M A) : M A :=
  fun w =>
    match c w with
    | (Throw _ e, w') => h e w'
    | r => r
    end.

Definition console_error (line : string) (e : option error) : M unit :=
  fun w => (Ok unit tt, World (fetches w) (stderr w ++ [(line, e)]) (files w)).

Definition Bun_write (path : string) (data : list R) : M unit :=
  fun w => (Ok unit tt, World (fetches w) (stderr w) (files w ++ [(path, data)])).

Definition fetchCount : M nat := fun w => (Ok nat (List.length (fetches w)), w).
End World.

Arguments world : clear implicits.
Arguments M : clear implicits.
Arguments Ok {A} a.
Arguments Throw {A} e.
Arguments Exit {A} code.

(** HTTP responses. [text] is the raw body; [decoded] is the body as the
    caller reads it ([response.json()] cast to its declared type, or the
    page that cheerio loads from [response.text()]), [None] when reading it
    rejects. *)
Record response (A : Type) := Response {
  status : Z;
  statusText : string;
  text : string;
  decoded : option A
}.
Arguments status {A} r.
Arguments statusText {A} r.
Arguments text {A} r.
Arguments decoded {A} r.

Definition ok {A} (r : response A) : bool :=
  (200 <=? status r) && (status r <=? 299).

(** What the mocked endpoint does with one request. *)
Inductive fetched (A : Type) :=
| NetworkError (e : error)
| Answer (r : response A).
Arguments NetworkError {A} e.
Arguments Answer {A} r.

(** [await fetch(url)] against the endpoint's reaction [reply]. *)
Definition fetch {R A} (reply : fetched A) (url : string) : M R (response A) :=
  fun w =>
    let w' := World (fetches w ++ [url]) (stderr w) (files w) in
    match reply with
    | NetworkError e => (Throw e, w')
    | Answer r => (Ok r, w')
    end.

Definition readBody {R A} (r : response A) : M R A :=
  match decoded r with
  | Some a => ret a
  | None => throw (Error "Failed to read the body")
  end.

Definition truthy (s : string) : bool := negb (s =? "")%string.

End IO.

Declare Scope io_scope.
Delimit Scope io_scope with io.
Notation "x <- c ;; k" := (IO.bind c (fun x => k))
  (at level 61, c at next level, right associativity) : io_scope.
Notation "c ;; k" := (IO.bind c (fun _ => k))
  (at level 61, right associativity) : io_scope.

(* ================================================================= *)
(** ** The dependents-page scraper *)

Module Scraper.
Import JS IO.
Local Open Scope io_scope.

Record DependentRepo := {
  name : string;
  full_name : string;
  description : option string;
  stars : number;
  url : string;
  language : option string
}.

(** What the cheerio selectors of the source return on one [.Box-row]. *)
Record box := {
  repoHref : option string;   (* [href] of the first repository link, if any *)
  descriptionText : string;   (* text of [span.px-1] *)
  starsText : string;         (* text of the parent of [svg.octicon-star] *)
  languageText : string       (* text of [span[itemprop="programmingLanguage"]] *)
}.

(** What they return on one listing page. *)
Record document := {
  repoBoxes : list box;        (* [$('#dependents .Box .Box-row')] *)
  nextHref : option string;    (* [href] of the "Next" button, if any *)
  nextDisabled : bool          (* does it have the class [disabled] *)
}.

(** The character class of [/[,\s]/]. *)
Definition commaOrSpace (c : ascii) : bool := Ascii.eqb c "," || isWhiteSpace c.

Definition parseStarCount (starsText : string) : number :=
  let cleaned := removeAll commaOrSpace starsText in
  if includes (toLowerCase cleaned) "k" then
    Math_round (mul (parseFloat cleaned) (of_Z 1000))
  else if includes (toLowerCase cleaned) "m" then
    Math_round (mul (parseFloat cleaned) (of_Z 1000000))
  else
    let parsed := parseInt cleaned in
    if isNaN parsed then of_Z 0 else parsed.

(** The parsing rule in the words of the specification: a [k] count is
    the float prefix times 1,000, rounded; an [m] count is the float prefix
    times 1,000,000, rounded; anything else is read as a plain integer; and
    whatever cannot be parsed is 0. *)
Definition starCountRule (starsText : string) : number :=
  let cleaned := removeAll commaOrSpace starsText in
  let parsed :=
    if includes (toLowerCase cleaned) "k" then
      Math_round (mul (parseFloat cleaned) (of_Z 1000))
    else if includes (toLowerCase cleaned) "m" then
      Math_round (mul (parseFloat cleaned) (of_Z 1000000))
    else parseInt cleaned in
  if isNaN parsed then of_Z 0 else parsed.

(** A character that [parseStarCount] neither strips nor takes for a
    unit: no comma, no whitespace, no [k], [K], [m] or [M]. *)
Definition unitless (c : ascii) : bool :=
  negb (commaOrSpace c)
  && negb (Ascii.eqb (lowerChar c) "k") && negb (Ascii.eqb (lowerChar c) "m").

(** [s || null] *)
Definition orNull (s : string) : option string :=
  if truthy s then Some s else None.

(** [repoLink.attr('href')?.replace('/', '').trim() || ''] *)
Definition fullNameOf (b : box) : string :=
  match repoHref b with
  | Some href => trim (removeFirst "/" href)
  | None => ""
  end.

(** The body of [repoBoxes.each]: the record pushed for one box, if any. *)
Definition parseBox (b : box) : option DependentRepo :=
  let fullName := fullNameOf b in
  let url := if truthy fullName then "https://github.com/" ++ fullName else "" in
  let description := orNull (trim (descriptionText b)) in
  let stars := parseStarCount (trim (starsText b)) in
  let language := orNull (trim (languageText b)) in
  if truthy fullName then
    let name :=
      match split "/" fullName with
      | _ :: name :: _ => if truthy name then name else fullName
      | _ => fullName
      end in
    Some {| name := name; full_name := fullName; description := description;
            stars := stars; url := url; language := language |}
  else None.

Fixpoint parseBoxes (bs : list box) : list DependentRepo :=
  match bs with
  | b :: bs' =>
      match parseBox b with
      | Some r => r :: parseBoxes bs'
      | None => parseBoxes bs'
      end
  | [] => []
  end.

(** The variables of [scrapeGitHubDependents]. *)
Record vars := {
  repositories : list DependentRepo;
  currentPage : Z;
  nextPageUrl : option string
}.

Inductive flow := Next | Break.

(** The mocked listing site: its reaction to the n-th request of the run. *)
Definition site : Type := nat -> fetched document.

(** One turn of the [while] loop. *)
Definition turn (dependents : site) (v : vars) (pageUrl : string)
  : M DependentRepo (flow * vars) :=
  tryCatch
    (n <- fetchCount ;;
     response <- fetch (dependents n) pageUrl ;;
     if negb (ok response) then
       console_error ("Failed to fetch page " ++ string_of_Z (currentPage v)
                      ++ ": " ++ string_of_Z (status response)) None ;;
       ret (Break, v)
     else
       doc <- readBody response ;;
       (if Z.of_nat (List.length (repoBoxes doc)) =? 0 then ret (Break, v)
           else
             let repositories' :=
               (repositories v ++ parseBoxes (repoBoxes doc))%list in
             match nextHref doc with
             | Some href =>
                 if negb (truthy href) || nextDisabled doc then
                   ret (Break, {| repositories := repositories';
                                  currentPage := currentPage v;
                                  nextPageUrl := None |})
                 else
                   ret (Next, {| repositories := repositories';
                                 currentPage := currentPage v + 1;
                                 nextPageUrl :=
                                   Some (if startsWith href "http" then href
                                         else "https://github.com" ++ href) |})
             | None =>
                 ret (Break, {| repositories := repositories';
                                currentPage := currentPage v;
                                nextPageUrl := None |})
             end))
    (fun error =>
       console_error ("Error on page " ++ string_of_Z (currentPage v) ++ ":")
                     (Some error) ;;
       ret (Break, v)).

(** [currentPage <= maxPages]; [None] is the default cap, [Infinity]. *)
Definition withinCap (page : Z) (maxPages : option Z) : bool :=
  match maxPages with
  | Some cap => page <=? cap
  | None => true
  end.

(** The [while] loop, run for at most [fuel] turns: [None] when the loop is
    still going after that many turns. *)
Fixpoint loop (fuel : nat) (dependents : site) (maxPages : option Z) (v : vars)
  : M DependentRepo (option vars) :=
  match nextPageUrl v with
  | Some pageUrl =>
      if withinCap (currentPage v) maxPages && truthy pageUrl then
        match fuel with
        | O => ret None
        | S fuel' =>
            r <- turn dependents v pageUrl ;;
            match r with
            | (Next, v') => loop fuel' dependents maxPages v'
            | (Break, v') => ret (Some v')
            end
        end
      else ret (Some v)
  | None => ret (Some v)
  end.

Definition byStars (a b : DependentRepo) : number := sub (stars b) (stars a).

Definition scrapeGitHubDependents (fuel : nat) (dependents : site)
    (owner repo : string) (maxPages : option Z)
  : M DependentRepo (option (list DependentRepo)) :=
  let baseUrl := "https://github.com/" ++ owner ++ "/" ++ repo ++ "/network/dependents" in
  r <- loop fuel dependents maxPages
         {| repositories := []; currentPage := 1; nextPageUrl := Some baseUrl |} ;;
  match r with
  | Some v => ret (Some (sort byStars (repositories v)))
  | None => ret None
  end.

Definition outputPath : string := "./viem_dependents_scraped.json".

(** [main], with the page cap a parameter ([undefined] in the source, that
    is the default). [None] when the scrape has not returned within [fuel]
    turns. *)
Definition main_with (fuel : nat) (dependents : site) (maxPages : option Z)
  : M DependentRepo (option unit) :=
  r <- scrapeGitHubDependents fuel dependents "wevm" "viem" maxPages ;;
  match r with
  | Some repositories => Bun_write outputPath repositories ;; ret (Some tt)
  | None => ret None
  end.

Definition main (fuel : nat) (dependents : site) : M DependentRepo (option unit) :=
  main_with fuel dependents None.

(** The figures of [main]'s statistics block, before they are formatted:
    [repositories.reduce((sum, r) => sum + r.stars, 0)] and
    [Math.round(that / repositories.length)]. *)
Definition totalStars (repositories : list DependentRepo) : number :=
  fold_left (fun sum r => add sum (stars r)) repositories (of_Z 0).

Definition averageStars (repositories : list DependentRepo) : number :=
  Math_round (div (totalStars repositories)
                  (of_Z (Z.of_nat (List.length repositories)))).

(** A character of an owner or repository name: no whitespace, no [/]. *)
Definition nameChar (c : ascii) : bool :=
  negb (isWhiteSpace c) && negb (Ascii.eqb c "/").

(** *** Reading a run off the replies *)

(** The page of a reply: the document of a response that has a success
    status and a readable body. *)
Definition pageOf (reply : fetched document) : option document :=
  match reply with
  | Answer r => if ok r then decoded r else None
  | NetworkError _ => None
  end.

(** The records that one reply adds to [repositories]. *)
Definition pageRecords (reply : fetched document) : list DependentRepo :=
  match pageOf reply with
  | Some doc => parseBoxes (repoBoxes doc)
  | None => []
  end.

(** The records that the first [n] replies add. *)
Definition collected (dependents : site) (n : nat) : list DependentRepo :=
  flat_map (fun i => pageRecords (dependents i)) (seq 0 n).

(** The URL the loop goes on with after a reply, if it goes on. *)
Definition goesOn (reply : fetched document) : option string :=
  match pageOf reply with
  | Some doc =>
      match repoBoxes doc, nextHref doc with
      | _ :: _, Some href =>
          if truthy href && negb (nextDisabled doc) then
            Some (if startsWith href "http" then href
                  else "https://github.com" ++ href)
          else None
      | _, _ => None
      end
  | None => None
  end.

Definition baseUrl : string := "https://github.com/wevm/viem/network/dependents".

(** What the turn for page number [page] prints with [console.error] on a
    reply. *)
Definition reported (page : Z) (reply : fetched document)
  : list (string * option error) :=
  match reply with
  | NetworkError e => [("Error on page " ++ string_of_Z page ++ ":", Some e)]
  | Answer r =>
      if ok r then
        match decoded r with
        | Some _ => []
        | None => [("Error on page " ++ string_of_Z page ++ ":",
                    Some (Error "Failed to read the body"))]
        end
      else [("Failed to fetch page " ++ string_of_Z page ++ ": "
             ++ string_of_Z (status r), None)]
  end.

(** The full names that the entries of the first [n] replies show, entry
    by entry; an entry without a name shows none. *)
Definition listedNames (dependents : site) (n : nat) : list string :=
  flat_map (fun i =>
              match pageOf (dependents i) with
              | Some doc => filter truthy (map fullNameOf (repoBoxes doc))
              | None => []
              end)
           (seq 0 n).

(** The segment of [s] between its first and its second [/]. *)
Definition secondSegment (s : string) : option string :=
  match split "/" s with
  | _ :: seg :: _ => Some seg
  | _ => None
  end.

End Scraper.


(* ================================================================= *)
(** ** The code-search collector *)

Module Collector.
Import JS IO.
Local Open Scope io_scope.

Record GitHubRepo := {
  name : string;
  full_name : string;
  description : option string;
  stars : number;
  url : string;
  language : option string;
  created_at : string;
  updated_at : string
}.

(** Of a code-search item the source reads [item.repository.full_name]. *)
Record item := { repository_full_name : string }.

Record GitHubCodeSearchResponse := {
  total_count : Z;
  items : list item
}.

(** The fields the source reads of a repository-info response. *)
Record repoData := {
  data_name : string;
  data_full_name : string;
  data_description : option string;
  stargazers_count : number;
  html_url : string;
  data_language : option string;
  data_created_at : string;
  data_updated_at : string
}.

(** The mocked API: the search endpoint by page number, the repository-info
    endpoint by full name. *)
Record github := {
  searchCode : Z -> fetched GitHubCodeSearchResponse;
  getRepo : string -> fetched repoData
}.

(** [encodeURIComponent], for code units below 128. *)
Definition hexDigit (n : Z) : ascii :=
  ascii_of_nat (Z.to_nat (if n <? 10 then 48 + n else 55 + n)).

Definition unreserved (c : ascii) : bool :=
  let n := code c in
  ((48 <=? n) && (n <=? 57)) || ((65 <=? n) && (n <=? 90))
  || ((97 <=? n) && (n <=? 122))
  || includes "-_.!~*'()" (String c EmptyString).

Fixpoint encodeURIComponent (s : string) : string :=
  match s with
  | String c r =>
      if unreserved c then String c (encodeURIComponent r)
      else String "%" (String (hexDigit (code c / 16))
                      (String (hexDigit (code c mod 16)) (encodeURIComponent r)))
  | EmptyString => s
  end.

Definition query : string := "viem filename:package.json -is:archived".
Definition maxPages : Z := 10.
Definition perPage : Z := 100.

Definition searchUrl (page : Z) : string :=
  "https://api.github.com/search/code?q=" ++ encodeURIComponent query
  ++ "&per_page=" ++ string_of_Z perPage ++ "&page=" ++ string_of_Z page.

Definition repoUrl (fullName : string) : string :=
  "https://api.github.com/repos/" ++ fullName.

(** [uniqueRepoNames]: a [Set], iterated in insertion order. *)
Definition add (set : list string) (x : string) : list string :=
  if existsb (String.eqb x) set then set else (set ++ [x])%list.

(** The paging loop from [page] on, with [remaining = maxPages - page + 1]
    turns to go. *)
Fixpoint searchPages (api : github) (remaining : nat) (page : Z)
    (uniqueRepoNames : list string) : M GitHubRepo (list string) :=
  match remaining with
  | O => ret uniqueRepoNames
  | S remaining' =>
      response <- fetch (searchCode api page) (searchUrl page) ;;
      (if negb (ok response) then
         let errorText := text response in
         throw (Error ("GitHub API error: " ++ string_of_Z (status response)
                       ++ " " ++ statusText response
                       ++ String (ascii_of_nat 10) errorText))
       else ret tt) ;;
      data <- readBody response ;;
      let uniqueRepoNames' :=
        fold_left add (map repository_full_name (items data)) uniqueRepoNames in
      if Z.of_nat (List.length (items data)) <? perPage then ret uniqueRepoNames'
      else searchPages api remaining' (page + 1) uniqueRepoNames'
  end.

Definition record (d : repoData) : GitHubRepo :=
  {| name := data_name d; full_name := data_full_name d;
     description := data_description d; stars := stargazers_count d;
     url := html_url d; language := data_language d;
     created_at := data_created_at d; updated_at := data_updated_at d |}.

(** The detail loop over the names still to visit. *)
Fixpoint fetchDetails (api : github) (names : list string)
    (repositories : list GitHubRepo) : M GitHubRepo (list GitHubRepo) :=
  match names with
  | [] => ret repositories
  | fullName :: names' =>
      repositories' <-
        tryCatch
          (repoResponse <- fetch (getRepo api fullName) (repoUrl fullName) ;;
           if ok repoResponse then
             repoData <- readBody repoResponse ;;
             ret (repositories ++ [record repoData])%list
           else ret repositories)
          (fun error =>
             console_error ("Error fetching " ++ fullName ++ ":") (Some error) ;;
             ret repositories) ;;
      fetchDetails api names' repositories'
  end.

Definition byStars (a b : GitHubRepo) : number := sub (stars b) (stars a).

Definition outputPath : string := "./viem_repositories.json".

(** [process.env.GITHUB_TOKEN] is set to a non-empty string. *)
Definition tokenSet (token : option string) : bool :=
  match token with
  | Some t => truthy t
  | None => false
  end.

(** The three [console.error] lines of a missing token (the first without
    the cross mark the source starts it with). *)
Definition tokenHelp : list string :=
  [ "Error: GITHUB_TOKEN environment variable is required for Code Search API";
    "Please set it with: export GITHUB_TOKEN=your_token_here";
    "Get a token at: https://github.com/settings/tokens" ].

Definition searchViemRepos (token : option string) (api : github)
  : M GitHubRepo unit :=
  tryCatch
    ((if negb (tokenSet token) then
        console_error (nth 0 tokenHelp "") None ;;
        console_error (nth 1 tokenHelp "") None ;;
        console_error (nth 2 tokenHelp "") None ;;
        process_exit 1
      else ret tt) ;;
     uniqueRepoNames <- searchPages api (Z.to_nat maxPages) 1 [] ;;
     repositories <- fetchDetails api uniqueRepoNames [] ;;
     Bun_write outputPath (sort byStars repositories))
    (fun error =>
       console_error "Error fetching repositories:" (Some error) ;;
       process_exit 1).

(** *** Reading a run off the replies *)

(** The message of the error thrown on a response without success status. *)
Definition apiError (r : response GitHubCodeSearchResponse) : string :=
  "GitHub API error: " ++ string_of_Z (status r) ++ " " ++ statusText r
  ++ String (ascii_of_nat 10) (text r).

(** The full names on a search page that was answered with success. *)
Definition pageNames (reply : fetched GitHubCodeSearchResponse)
  : option (list string) :=
  match reply with
  | Answer r =>
      if ok r then
        option_map (fun data => map repository_full_name (items data)) (decoded r)
      else None
  | NetworkError _ => None
  end.

(** The error a search reply makes the paging loop throw, if any. *)
Definition pageFailure (reply : fetched GitHubCodeSearchResponse)
  : option error :=
  match reply with
  | Answer r =>
      if ok r then
        match decoded r with
        | Some _ => None
        | None => Some (Error "Failed to read the body")
        end
      else Some (Error (apiError r))
  | NetworkError e => Some e
  end.

(** A page with at least [perPage] items: the loop goes on after it. *)
Definition fullPage (reply : fetched GitHubCodeSearchResponse) : bool :=
  match pageNames reply with
  | Some names => perPage <=? Z.of_nat (List.length names)
  | None => false
  end.

(** A page with fewer than [perPage] items: the last page. *)
Definition shortPage (reply : fetched GitHubCodeSearchResponse) : bool :=
  match pageNames reply with
  | Some names => Z.of_nat (List.length names) <? perPage
  | None => false
  end.

(** The page numbers [page], [page + 1], ... ([k] of them). *)
Fixpoint pagesFrom (page : Z) (k : nat) : list Z :=
  match k with
  | O => []
  | S k' => page :: pagesFrom (page + 1) k'
  end.

(** The set of names after the given pages. *)
Fixpoint gathered (api : github) (pages : list Z) (set : list string)
  : list string :=
  match pages with
  | [] => set
  | p :: pages' =>
      gathered api pages'
        match pageNames (searchCode api p) with
        | Some names => fold_left add names set
        | None => set
        end
  end.

(** The record that a detail reply adds to [repositories], if any. *)
Definition kept (reply : fetched repoData) : list GitHubRepo :=
  match reply with
  | Answer r =>
      if ok r then
        match decoded r with
        | Some d => [record d]
        | None => []
        end
      else []
  | NetworkError _ => []
  end.

(** What a detail reply makes the loop print with [console.error]. *)
Definition detailError (fullName : string) (reply : fetched repoData)
  : list (string * option error) :=
  match reply with
  | Answer r =>
      if ok r then
        match decoded r with
        | Some _ => []
        | None => [("Error fetching " ++ fullName ++ ":",
                    Some (Error "Failed to read the body"))]
        end
      else []
  | NetworkError e => [("Error fetching " ++ fullName ++ ":", Some e)]
  end.

Definition details (api : github) (names : list string) : list GitHubRepo :=
  flat_map (fun fullName => kept (getRepo api fullName)) names.

(** A detail reply with a success status and a readable body. *)
Definition detailSucceeds (reply : fetched repoData) : bool :=
  match reply with
  | Answer r => ok r && match decoded r with Some _ => true | None => false end
  | NetworkError _ => false
  end.

Definition detailErrors (api : github) (names : list string)
  : list (string * option error) :=
  flat_map (fun fullName => detailError fullName (getRepo api fullName)) names.

End Collector.

(* ================================================================= *)
(** ** Sample inputs *)

Module Samples.
Import JS IO.

Definition okPage (doc : Scraper.document) : fetched Scraper.document :=
  Answer (Response _ 200 "OK" "" (Some doc)).

Definition row (href starsText : string) : Scraper.box :=
  {| Scraper.repoHref := Some href; Scraper.descriptionText := "";
     Scraper.starsText := starsText; Scraper.languageText := "TypeScript" |}.

Definition lastPage (rows : list Scraper.box) : Scraper.document :=
  {| Scraper.repoBoxes := rows; Scraper.nextHref := None;
     Scraper.nextDisabled := false |}.

(** A page with a working "Next" button. *)
Definition linkedPage (rows : list Scraper.box) (next : string)
  : Scraper.document :=
  {| Scraper.repoBoxes := rows; Scraper.nextHref := Some next;
     Scraper.nextDisabled := false |}.

(** A listing whose second request is answered with status 500. *)
Definition failingSite : Scraper.site :=
  fun n =>
    match n with
    | O => okPage (linkedPage [row "/acme/app" "1.2k"; row "/acme/lib" "7"]
                              "/wevm/viem/network/dependents?dependents_after=abc")
    | _ => Answer (Response _ 500 "Internal Server Error" "" None)
    end.

(** A listing of two pages, the second without entries. *)
Definition emptySecondPageSite : Scraper.site :=
  fun n =>
    match n with
    | O => okPage (linkedPage [row "/acme/app" "1.2k"; row "/acme/lib" "7"]
                              "/wevm/viem/network/dependents?dependents_after=abc")
    | _ => okPage (linkedPage [] "/wevm/viem/network/dependents?dependents_after=def")
    end.

(** A listing whose every page has one entry and a "Next" link back to
    the listing itself. *)
Definition circularSite : Scraper.site :=
  fun _ => okPage (linkedPage [row "/acme/app" "3"] "/wevm/viem/network/dependents").

(** A one-page listing with a single entry whose link is [/acme/]. *)
Definition trailingSlashSite : Scraper.site :=
  fun _ => okPage (lastPage [row "/acme/" "12"]).

Definition acmeRecord : Scraper.DependentRepo :=
  {| Scraper.name := "acme/"; Scraper.full_name := "acme/";
     Scraper.description := None; Scraper.stars := of_Z 12;
     Scraper.url := "https://github.com/acme/";
     Scraper.language := Some "TypeScript" |}.

(** A one-page listing with a single entry whose star text is [-5]. *)
Definition negativeSite : Scraper.site :=
  fun _ => okPage (lastPage [row "/acme/app" "-5"]).

(** **** The code-search API *)

Definition repo (fullName : string) (stargazers : Z) : Collector.repoData :=
  {| Collector.data_name := fullName; Collector.data_full_name := fullName;
     Collector.data_description := None;
     Collector.stargazers_count := of_Z stargazers;
     Collector.html_url := "https://github.com/" ++ fullName;
     Collector.data_language := Some "TypeScript";
     Collector.data_created_at := "2024-01-01T00:00:00Z";
     Collector.data_updated_at := "2024-06-01T00:00:00Z" |}.

Definition found (names : list string)
  : fetched Collector.GitHubCodeSearchResponse :=
  Answer (Response _ 200 "OK" ""
            (Some {| Collector.total_count := Z.of_nat (List.length names);
                     Collector.items := map Collector.Build_item names |})).

(** The names [org/repo<first>], [org/repo<first + 1>], ... ([n] of them). *)
Definition numbered (first : nat) (n : nat) : list string :=
  map (fun i => "org/repo" ++ string_of_Z (Z.of_nat i)) (seq first n).

(** 100 files on page 1 and 40 on page 2, all of different repositories,
    each of which has details. *)
Definition twoPageApi : Collector.github :=
  {| Collector.searchCode := fun page =>
       if page =? 1 then found (numbered 0 100)
       else if page =? 2 then found (numbered 100 40)
       else found [];
     Collector.getRepo := fun fullName =>
       Answer (Response _ 200 "OK" "" (Some (repo fullName 1))) |}.

Definition forbidden : response Collector.GitHubCodeSearchResponse :=
  Response _ 403 "Forbidden" "API rate limit exceeded" None.

(** Every search request is refused with status 403. *)
Definition forbiddenApi : Collector.github :=
  {| Collector.searchCode := fun _ => Answer forbidden;
     Collector.getRepo := fun _ => NetworkError (Error "unreachable") |}.

(** The network is down: every fetch throws. *)
Definition unreachableApi : Collector.github :=
  {| Collector.searchCode := fun _ => NetworkError (Error "fetch failed");
     Collector.getRepo := fun _ => NetworkError (Error "fetch failed") |}.

(** Every search page lists the same 100 files. *)
Definition endlessApi : Collector.github :=
  {| Collector.searchCode := fun _ => found (numbered 0 100);
     Collector.getRepo := fun fullName =>
       Answer (Response _ 200 "OK" "" (Some (repo fullName 1))) |}.

(** Two repositories found, both gone: every detail request gets a 404. *)
Definition goneApi : Collector.github :=
  {| Collector.searchCode := fun _ => found ["a/b"; "c/d"];
     Collector.getRepo := fun _ =>
       Answer (Response _ 404 "Not Found" "" None) |}.

(** One search page of four repositories: details succeed for the first
    and the last, the second fetch throws, the third is answered 404. *)
Definition flakyApi : Collector.github :=
  {| Collector.searchCode := fun _ => found ["a/b"; "c/d"; "e/f"; "g/h"];
     Collector.getRepo := fun fullName =>
       if (fullName =? "a/b")%string then
         Answer (Response _ 200 "OK" "" (Some (repo fullName 5)))
       else if (fullName =? "c/d")%string then
         NetworkError (Error "socket hang up")
       else if (fullName =? "e/f")%string then
         Answer (Response _ 404 "Not Found" "" None)
       else Answer (Response _ 200 "OK" "" (Some (repo fullName 7))) |}.

(** Two names found by the search, one repository behind both. *)
Definition renamedApi : Collector.github :=
  {| Collector.searchCode := fun _ => found ["old/name"; "new/name"];
     Collector.getRepo := fun _ =>
       Answer (Response _ 200 "OK" "" (Some (repo "new/name" 3))) |}.

Definition acmeApp : Scraper.DependentRepo :=
  {| Scraper.name := "app"; Scraper.full_name := "acme/app";
     Scraper.description := None; Scraper.stars := of_Z 12;
     Scraper.url := "https://github.com/acme/app";
     Scraper.language := Some "TypeScript" |}.

(** A listing page that shows one repository twice. *)
Definition repeatingSite : Scraper.site :=
  fun _ => okPage (lastPage [row "/acme/app" "12"; row "/acme/app" "12"]).

(** A listing page with the star texts [5], [k] and [7]. *)
Definition unparseableStarsSite : Scraper.site :=
  fun _ => okPage (lastPage [row "/acme/app" "5"; row "/acme/lib" "k";
                             row "/acme/cli" "7"]).

(** A first page with the star texts [5], [k] and [7] and a "Next" link;
    the second request is answered with status 500. *)
Definition brokenCountSite : Scraper.site :=
  fun n =>
    match n with
    | O => okPage (linkedPage [row "/acme/app" "5"; row "/acme/lib" "k";
                               row "/acme/cli" "7"]
                              "/wevm/viem/network/dependents?dependents_after=abc")
    | _ => Answer (Response _ 500 "Internal Server Error" "" None)
    end.

(** A listing page with the star texts [1.2k], [m] and [3m]. *)
Definition mixedUnitsSite : Scraper.site :=
  fun _ => okPage (lastPage [row "/acme/app" "1.2k"; row "/acme/lib" "m";
                             row "/acme/cli" "3m"]).

End Samples.
(* ================================================================= *)
(** * Properties *)

(** URLs and printed numbers stay folded under [cbn] and [simpl]. *)
Arguments JS.string_of_Z : simpl never.
Arguments Collector.searchUrl : simpl never.
Arguments Collector.repoUrl : simpl never.

(* ================================================================= *)
(** ** Facts about the rounding of Numbers *)

Module NumberFacts.
Import JS.

Lemma iter_pos_invariant {A : Type} (P : A -> Prop) (f : A -> A) :
  (forall x, P x -> P (f x)) ->
  forall n x, P x -> P (iter_pos f n x).
Proof.
  intros Hf. induction n as [n IH | n IH |]; intros x Hx; simpl; auto.
Qed.

Lemma shr_1_nonneg (r : shr_record) : 0 <= shr_m r -> 0 <= shr_m (shr_1 r).
Proof.
  destruct r as [m r s]. simpl. intros Hm.
  destruct m as [| [p | p |] | p]; simpl; lia.
Qed.

Lemma shr_nonneg (r : shr_record) (e n : Z) :
  0 <= shr_m r -> 0 <= shr_m (fst (shr r e n)).
Proof.
  intros Hr. destruct n as [| p | p]; simpl; auto.
  apply (iter_pos_invariant (fun r => 0 <= shr_m r)); auto using shr_1_nonneg.
Qed.

Lemma shr_exponent (r : shr_record) (e n : Z) : e <= snd (shr r e n).
Proof. destruct n; simpl; lia. Qed.

Lemma shr_record_of_loc_m (m : Z) (l : location) :
  shr_m (shr_record_of_loc m l) = m.
Proof. destruct l as [| []]; reflexivity. Qed.

Lemma shr_fexp_nonneg (m e : Z) (l : location) :
  0 <= m -> 0 <= shr_m (fst (shr_fexp prec emax m e l)).
Proof.
  intros Hm. unfold shr_fexp. apply shr_nonneg.
  now rewrite shr_record_of_loc_m.
Qed.

Lemma shr_fexp_exponent (m e : Z) (l : location) :
  e <= snd (shr_fexp prec emax m e l).
Proof. unfold shr_fexp. apply shr_exponent. Qed.

Lemma round_nearest_even_nonneg (m : Z) (l : location) :
  0 <= m -> 0 <= round_nearest_even m l.
Proof.
  intros Hm. destruct l as [| []]; simpl; try lia.
  destruct (Z.even m); lia.
Qed.

(** Rounding a non-negative mantissa never gives NaN and keeps the sign. *)
Lemma binary_round_aux_signed (s : bool) (m e : Z) (l : location) :
  0 <= m -> signed s (binary_round_aux prec emax s m e l).
Proof.
  intros Hm. unfold binary_round_aux.
  pose proof (shr_fexp_nonneg m e l Hm) as H1.
  destruct (shr_fexp prec emax m e l) as [mrs' e']. simpl in H1.
  pose proof (shr_fexp_nonneg _ e' loc_Exact
                (round_nearest_even_nonneg _ (loc_of_shr_record mrs') H1)) as H2.
  destruct (shr_fexp prec emax _ e' loc_Exact) as [mrs'' e'']. simpl in H2.
  destruct (shr_m mrs'') as [| p | p]; try lia; [reflexivity |].
  destruct (e'' <=? emax - prec); reflexivity.
Qed.

(** The exponent of a rounded value is at least the one it came with. *)
Lemma binary_round_aux_exponent (s : bool) (m e : Z) (l : location)
    (s' : bool) (m' : positive) (e' : Z) :
  binary_round_aux prec emax s m e l = S754_finite s' m' e' -> e <= e'.
Proof.
  unfold binary_round_aux.
  pose proof (shr_fexp_exponent m e l) as H1.
  destruct (shr_fexp prec emax m e l) as [mrs1 e1]. simpl in H1.
  pose proof (shr_fexp_exponent
                (round_nearest_even (shr_m mrs1) (loc_of_shr_record mrs1))
                e1 loc_Exact) as H2.
  destruct (shr_fexp prec emax _ e1 loc_Exact) as [mrs2 e2]. simpl in H2.
  destruct (shr_m mrs2); try discriminate.
  destruct (e2 <=? emax - prec); try discriminate.
  intros H. injection H as _ _ <-. lia.
Qed.

Lemma binary_round_signed (s : bool) (m : positive) (e : Z) :
  signed s (binary_round prec emax s m e).
Proof.
  unfold binary_round.
  destruct (shl_align m e _) as [mz ez].
  apply binary_round_aux_signed. lia.
Qed.

Lemma of_Z_signed (z : Z) : signed (z <? 0) (of_Z z).
Proof.
  destruct z as [| p | p]; simpl; try reflexivity;
    apply binary_round_signed.
Qed.

Lemma SFdiv_core_nonneg (m1 m2 : positive) (e1 e2 : Z) :
  0 <= fst (fst (SFdiv_core_binary prec emax (Zpos m1) e1 (Zpos m2) e2)).
Proof.
  unfold SFdiv_core_binary.
  set (s := _ - _ - Z.min _ _).
  set (m' := match s with Z0 => _ | Zpos _ => _ | Zneg _ => _ end).
  assert (Hm' : 0 <= m').
  { subst m'. destruct s; try lia. apply Z.shiftl_nonneg. lia. }
  pose proof (Z.div_eucl_eq m' (Zpos m2) ltac:(lia)) as Heq.
  pose proof (Z.mod_pos_bound m' (Zpos m2) ltac:(lia)) as Hr.
  unfold Z.modulo in Hr.
  destruct (Z.div_eucl m' (Zpos m2)) as [q r]. simpl. nia.
Qed.

Lemma of_decimal_signed (neg : bool) (digits exp10 : Z) :
  signed neg (of_decimal neg digits exp10).
Proof.
  unfold of_decimal. destruct digits as [| d | d]; try reflexivity.
  destruct exp10 as [| k | k]; try apply binary_round_signed.
  unfold SFdiv.
  pose proof (SFdiv_core_nonneg d (10 ^ k) 0 0) as Hq.
  destruct (SFdiv_core_binary _ _ _ _ _ _) as [[mz ez] lz]. simpl in Hq.
  rewrite xorb_false_r. now apply binary_round_aux_signed.
Qed.

(** Multiplying by a positive finite Number keeps the sign. *)
Lemma mul_positive_signed (s : bool) (x : number) (m : positive) (e : Z) :
  signed s x -> signed s (mul x (S754_finite false m e)).
Proof.
  destruct x as [sx | sx | | sx mx ex]; simpl; intros Hs; try tauto;
    subst; rewrite ?xorb_false_r; try reflexivity.
  apply binary_round_aux_signed. lia.
Qed.

Lemma Math_round_signed (s : bool) (x : number) :
  signed s x -> signed s (Math_round x).
Proof.
  destruct x as [sx | sx | | sx m e]; try (simpl; auto; fail).
  unfold Math_round. cbn [signed].
  intros ->. destruct (0 <=? e) eqn:He; [reflexivity |].
  apply Z.leb_gt in He.
  set (n := _ / _).
  destruct (n =? 0) eqn:Hn; [reflexivity |].
  apply Z.eqb_neq in Hn.
  assert (Hpow : 2 ^ (1 - e) = 2 * 2 ^ (- e)).
  { replace (1 - e) with (Z.succ (- e)) by lia. apply Z.pow_succ_r. lia. }
  assert (Hpos : 0 < 2 ^ (- e)) by (apply Z.pow_pos_nonneg; lia).
  assert (Hsign : (n <? 0) = s).
  { subst n. rewrite Hpow in *. destruct s; cbv [cond_Zopp] in *.
    - apply Z.ltb_lt.
      assert (H : (2 * - Z.pos m + 2 ^ (- e)) / (2 * 2 ^ (- e)) < 1).
      { apply Z.div_lt_upper_bound; lia. }
      lia.
    - apply Z.ltb_ge. apply Z.div_pos; lia. }
  rewrite <- Hsign. apply of_Z_signed.
Qed.

(** *** Integral results *)

Lemma digits2_pos_shift (m j : positive) :
  digits2_pos (Pos.iter xO m j) = (digits2_pos m + j)%positive.
Proof.
  rewrite (Pos.iter_swap_gen _ _ digits2_pos xO Pos.succ) by reflexivity.
  induction j using Pos.peano_ind.
  - simpl. lia.
  - rewrite Pos.iter_succ, IHj. lia.
Qed.

Lemma Zpos_shift (m j : positive) :
  Zpos (Pos.iter xO m j) = Zpos m * 2 ^ Zpos j.
Proof.
  rewrite (Pos.iter_swap_gen _ _ Zpos xO (Z.mul 2)) by reflexivity.
  change (Pos.iter (Z.mul 2) (Zpos m) j) with (Z.shiftl (Zpos m) (Zpos j)).
  apply Z.shiftl_mul_pow2. lia.
Qed.

Lemma binary_round_integral (s : bool) (m : positive) :
  integral_or_infinite (binary_round prec emax s m 0).
Proof.
  unfold binary_round, shl_align.
  set (ex' := fexp prec emax (Zpos (digits2_pos m) + 0)).
  destruct (ex' - 0) as [| j | j] eqn:Hj.
  - pose proof (binary_round_aux_signed s (Zpos m) 0 loc_Exact ltac:(lia)) as Hs.
    pose proof (binary_round_aux_exponent s (Zpos m) 0 loc_Exact) as He.
    destruct (binary_round_aux _ _ _ _ _ _) as [s' | s' | | s' m' e'];
      [left; reflexivity | right; eauto | contradiction |].
    left. simpl. specialize (He _ _ _ eq_refl).
    apply Z.leb_le in He. now rewrite He.
  - pose proof (binary_round_aux_signed s (Zpos m) 0 loc_Exact ltac:(lia)) as Hs.
    pose proof (binary_round_aux_exponent s (Zpos m) 0 loc_Exact) as He.
    destruct (binary_round_aux _ _ _ _ _ _) as [s' | s' | | s' m' e'];
      [left; reflexivity | right; eauto | contradiction |].
    left. simpl. specialize (He _ _ _ eq_refl).
    apply Z.leb_le in He. now rewrite He.
  - (* the mantissa is shifted left to its canonical exponent: exact *)
    assert (Hex : ex' = Zneg j) by lia.
    assert (Hfexp : fexp prec emax (Zpos (digits2_pos m + j) + ex') - ex' = 0).
    { replace (Zpos (digits2_pos m + j) + ex')
        with (Zpos (digits2_pos m) + 0) by lia.
      fold ex'. lia. }
    left. unfold binary_round_aux, shr_fexp.
    cbn [Zdigits2]. rewrite digits2_pos_shift, Hfexp.
    cbn [shr shr_record_of_loc shr_m loc_of_shr_record round_nearest_even
         Zdigits2].
    rewrite digits2_pos_shift, Hfexp.
    cbn [shr shr_record_of_loc shr_m].
    assert (Hle : (ex' <=? emax - prec) = true)
      by (apply Z.leb_le; unfold emax, prec; lia).
    rewrite Hle. cbn [is_integer].
    rewrite Hex. change (- Zneg j) with (Zpos j).
    rewrite Zpos_shift, Z.mod_mul by (apply Z.pow_nonzero; lia).
    apply orb_true_r.
Qed.

Lemma of_Z_integral (z : Z) : integral_or_infinite (of_Z z).
Proof.
  destruct z; simpl; try apply binary_round_integral.
  left; reflexivity.
Qed.

Lemma Math_round_integral (x : number) :
  x <> NaN -> integral_or_infinite (Math_round x).
Proof.
  destruct x as [sx | sx | | sx m e]; unfold Math_round; intros Hx.
  - left; reflexivity.
  - right; eauto.
  - contradiction.
  - destruct (0 <=? e) eqn:He.
    + left. simpl. now rewrite He.
    + destruct (_ =? 0); [left; reflexivity | apply of_Z_integral].
Qed.

(** *** Signs of parsed literals *)

Lemma trimStart_removeAll (s : string) :
  trimStart (removeAll Scraper.commaOrSpace s) = removeAll Scraper.commaOrSpace s.
Proof.
  induction s as [| c r IH]; simpl; auto.
  destruct (Scraper.commaOrSpace c) eqn:Hcs; [exact IH |].
  apply orb_false_elim in Hcs as [_ Hw]. simpl. now rewrite Hw.
Qed.

Lemma readSign_minus (s : string) :
  startsWith s "-" = false -> fst (readSign s) = false.
Proof.
  destruct s as [| c r]; simpl; [reflexivity |].
  unfold startsWith. simpl.
  destruct (Ascii.ascii_dec "-" c) as [<- | Hc].
  - destruct r; discriminate.
  - intros _. destruct c as [[] [] [] [] [] [] [] []]; try reflexivity.
    now contradiction Hc.
Qed.

Lemma digitValue_nonneg (c : ascii) : isDigit c = true -> 0 <= digitValue c.
Proof.
  unfold isDigit, digitValue. intros H.
  apply andb_true_iff in H as [H _]. apply Z.leb_le in H. lia.
Qed.

Lemma readDigits_nonneg (s : string) (acc len : Z) :
  0 <= acc -> 0 <= fst (fst (readDigits s acc len)).
Proof.
  revert acc len.
  induction s as [| c r IH]; intros acc len Hacc; cbn [readDigits fst]; auto.
  destruct (isDigit c) eqn:Hc; cbn [fst]; auto.
  apply IH. pose proof (digitValue_nonneg c Hc). lia.
Qed.

Lemma parseInt_signed (s : string) :
  parseInt s = NaN \/ signed (fst (readSign (trimStart s))) (parseInt s).
Proof.
  unfold parseInt.
  destruct (readSign (trimStart s)) as [neg s1]. simpl.
  pose proof (readDigits_nonneg s1 0 0 ltac:(lia)) as Hn.
  destruct (readDigits s1 0 0) as [[n len] rest]. simpl in Hn.
  destruct (len =? 0); [now left | right].
  destruct (n =? 0) eqn:Hz; [reflexivity |].
  apply Z.eqb_neq in Hz.
  replace neg with (cond_Zopp neg n <? 0) at 1; [apply of_Z_signed |].
  destruct neg; simpl; lia.
Qed.

Lemma parseFloat_signed (s : string) :
  parseFloat s = NaN \/ signed (fst (readSign (trimStart s))) (parseFloat s).
Proof.
  unfold parseFloat.
  destruct (readSign (trimStart s)) as [neg s1]. simpl.
  destruct (startsWith s1 "Infinity"); [right; reflexivity |].
  destruct (readDigits s1 0 0) as [[ip ilen] s2].
  assert (Hplain : (if ilen =? 0 then NaN else of_decimal neg ip (readExponent s2)) = NaN
                   \/ signed neg (if ilen =? 0 then NaN
                                  else of_decimal neg ip (readExponent s2))).
  { destruct (ilen =? 0); [now left | right; apply of_decimal_signed]. }
  destruct s2 as [| c s3]; [exact Hplain |].
  destruct (Ascii.ascii_dec c ".") as [-> | Hc].
  - destruct (readDigits s3 ip 0) as [[m flen] s4].
    destruct ((ilen =? 0) && (flen =? 0)); [now left | right].
    apply of_decimal_signed.
  - destruct c as [[] [] [] [] [] [] [] []]; try exact Hplain.
    now contradiction Hc.
Qed.

Lemma signed_to_Z (x : number) :
  signed false x -> is_integer x = true -> nonNegativeInteger x.
Proof.
  destruct x as [s | s | | s m e]; cbn [signed is_integer]; try discriminate.
  - intros _ _. exists 0. split; [reflexivity | lia].
  - intros -> H. unfold nonNegativeInteger, to_Z, cond_Zopp.
    destruct (0 <=? e) eqn:He.
    + eexists; split; [reflexivity |].
      apply Z.leb_le in He. apply Z.mul_nonneg_nonneg; [lia |].
      apply Z.pow_nonneg. lia.
    + cbn [orb] in H. rewrite H. eexists; split; [reflexivity |].
      apply Z.leb_gt in He. apply Z.div_pos; [lia |].
      apply Z.pow_pos_nonneg; lia.
Qed.

Lemma signed_integral_or_infinite (x : number) :
  signed false x -> integral_or_infinite x ->
  x = Infinity \/ nonNegativeInteger x.
Proof.
  intros Hs [Hi | [s ->]].
  - right. now apply signed_to_Z.
  - left. simpl in Hs. now subst.
Qed.

Lemma parseInt_integral (s : string) :
  parseInt s = NaN \/ integral_or_infinite (parseInt s).
Proof.
  unfold parseInt.
  destruct (readSign (trimStart s)) as [neg s1].
  destruct (readDigits s1 0 0) as [[n len] rest].
  destruct (len =? 0); [now left | right].
  destruct (n =? 0); [left; reflexivity | apply of_Z_integral].
Qed.

Lemma signed_not_NaN (s : bool) (x : number) : signed s x -> x <> NaN.
Proof. destruct x; simpl; intros H; try discriminate; contradiction. Qed.

(** A count times a positive finite constant, rounded. *)
Lemma scaled_count (x c : number) :
  (exists m e, c = S754_finite false m e) ->
  signed false x ->
  Math_round (mul x c) = Infinity \/ nonNegativeInteger (Math_round (mul x c)).
Proof.
  intros (m & e & ->) Hx.
  pose proof (mul_positive_signed false x m e Hx) as Hm.
  apply signed_integral_or_infinite.
  - now apply Math_round_signed.
  - apply Math_round_integral. eapply signed_not_NaN; eauto.
Qed.

End NumberFacts.

(* ================================================================= *)
(** ** Sorting rearranges *)

Section SortFacts.
Context {A : Type}.
Variable comparefn : A -> A -> JS.number.

Lemma insert_Permutation (x : A) (l : list A) :
  Permutation (insert comparefn x l) (x :: l).
Proof.
  induction l as [| y l IH]; simpl; auto.
  destruct (JS.gtz (comparefn x y)); auto.
  rewrite IH. apply perm_swap.
Qed.

Lemma sort_Permutation (l : list A) : Permutation (sort comparefn l) l.
Proof.
  induction l as [| x l IH]; simpl; auto.
  rewrite insert_Permutation. now constructor.
Qed.

Lemma sort_In (x : A) (l : list A) : In x (sort comparefn l) <-> In x l.
Proof.
  split; apply Permutation_in;
    [apply sort_Permutation | symmetry; apply sort_Permutation].
Qed.
End SortFacts.

(* ================================================================= *)
(** ** Star counts (C1, C4) *)

Section StarCounts.
Import JS IO NumberFacts Scraper.

(** The examples of the specification. *)
Lemma parseStarCount_examples :
  parseStarCount "1,234" = of_Z 1234 /\
  parseStarCount "1.2k" = of_Z 1200 /\
  parseStarCount "3m" = of_Z 3000000 /\
  parseStarCount "" = of_Z 0 /\
  parseStarCount "abc" = of_Z 0.
Proof. repeat split; vm_compute; reflexivity. Qed.

(** Wherever the source returns a number that is not NaN, it is the number
    of the rule. *)
Lemma parseStarCount_refines_rule (starsText : string) :
  parseStarCount starsText <> NaN ->
  parseStarCount starsText = starCountRule starsText.
Proof.
  unfold parseStarCount, starCountRule.
  set (cleaned := removeAll commaOrSpace starsText).
  destruct (includes (toLowerCase cleaned) "k").
  - intros H. destruct (Math_round _); try reflexivity. now contradiction H.
  - destruct (includes (toLowerCase cleaned) "m").
    + intros H. destruct (Math_round _); try reflexivity. now contradiction H.
    + reflexivity.
Qed.

(** C1. The rule of the specification sends every unparseable text to 0;
    the source does so on the plain-integer path only. On the text [k] the
    [k] path multiplies and rounds the NaN of [parseFloat] and returns it,
    where the rule gives 0. *)
Theorem parseStarCount_k_is_NaN :
  parseStarCount "k" = NaN /\ starCountRule "k" = of_Z 0.
Proof. split; vm_compute; reflexivity. Qed.

(** C4 (as stated, refuted). The star text [-5] parses to the integer -5,
    and a listing page showing it yields an output record with that
    negative [stars]; the text [1e999k] parses to +Infinity, which is no
    integer. *)
Lemma parseStarCount_negative :
  to_Z (parseStarCount "-5") = Some (-5) /\
  ~ nonNegativeInteger (parseStarCount "-5") /\
  (exists r,
     files (snd (Scraper.main 1 Samples.negativeSite start))
       = [(Scraper.outputPath, [r])] /\
     to_Z (stars r) = Some (-5)) /\
  parseStarCount "1e999k" = Infinity /\
  ~ nonNegativeInteger (parseStarCount "1e999k").
Proof.
  split; [vm_compute; reflexivity |].
  split.
  { intros (z & Hz & Hpos). vm_compute in Hz. injection Hz as <-. lia. }
  split.
  { eexists. split; vm_compute; reflexivity. }
  split; [vm_compute; reflexivity |].
  intros (z & Hz & _). vm_compute in Hz. discriminate.
Qed.

(** Whenever the cleaned star text does not begin with a minus sign and
    the parse is not NaN, [parseStarCount] returns +Infinity or an integer
    that is not negative. *)
Lemma parseStarCount_not_negative (starsText : string) :
  startsWith (removeAll commaOrSpace starsText) "-" = false ->
  parseStarCount starsText <> NaN ->
  parseStarCount starsText = Infinity
  \/ nonNegativeInteger (parseStarCount starsText).
Proof.
  unfold parseStarCount.
  set (cleaned := removeAll commaOrSpace starsText).
  intros Hminus.
  assert (Hsign : fst (readSign (trimStart cleaned)) = false).
  { subst cleaned. rewrite trimStart_removeAll. now apply readSign_minus. }
  pose proof (parseFloat_signed cleaned) as Hf. rewrite Hsign in Hf.
  pose proof (parseInt_signed cleaned) as Hi. rewrite Hsign in Hi.
  destruct (includes (toLowerCase cleaned) "k");
    [| destruct (includes (toLowerCase cleaned) "m")].
  - intros Hnan. destruct Hf as [Hf | Hf].
    + rewrite Hf in Hnan. now contradiction Hnan.
    + apply scaled_count; [vm_compute; eauto | exact Hf].
  - intros Hnan. destruct Hf as [Hf | Hf].
    + rewrite Hf in Hnan. now contradiction Hnan.
    + apply scaled_count; [vm_compute; eauto | exact Hf].
  - intros _. destruct Hi as [Hi | Hi].
    + rewrite Hi. right. exists 0. split; [reflexivity | lia].
    + destruct (isNaN (parseInt cleaned)) eqn:Hn.
      * right. exists 0. split; [reflexivity | lia].
      * apply signed_integral_or_infinite; [exact Hi |].
        destruct (parseInt_integral cleaned) as [E | E]; [| exact E].
        rewrite E in Hn. discriminate.
Qed.

End StarCounts.

(* ================================================================= *)
(** ** Runs of the scraper *)

Module ScraperRuns.
Import JS IO Scraper.

Section Loop.
Variable dependents : site.
Variable maxPages : option Z.

Lemma turn_spec (v : vars) (pageUrl : string) (w : world DependentRepo) :
  let reply := dependents (List.length (fetches w)) in
  exists fl v' errs,
    turn dependents v pageUrl w
      = (Ok (fl, v'),
         World (fetches w ++ [pageUrl]) (stderr w ++ errs) (files w))
    /\ repositories v' = (repositories v ++ pageRecords reply)%list
    /\ match goesOn reply with
       | Some next =>
           fl = Next /\ currentPage v' = currentPage v + 1
           /\ nextPageUrl v' = Some next
       | None => fl = Break
       end
    /\ (pageOf reply <> None -> errs = []).
Proof.
  intros reply. unfold turn, tryCatch, bind, fetchCount, fetch, readBody.
  fold reply. unfold pageRecords, goesOn, pageOf.
  destruct reply as [e | r]; cbn.
  - do 3 eexists. split; [reflexivity |].
    split; [now rewrite app_nil_r |]. split; [reflexivity | intros H; now contradiction H].
  - destruct (ok r); cbn.
    + destruct (decoded r) as [doc |]; cbn.
      * destruct (repoBoxes doc) as [| b bs] eqn:Hb; cbn.
        { exists Break, v, []. rewrite !app_nil_r. auto. }
        destruct (nextHref doc) as [href |]; cbn;
          [destruct (truthy href); cbn; [destruct (nextDisabled doc); cbn |] |];
          do 2 eexists; exists []; rewrite (app_nil_r (stderr w));
          repeat split; auto.
      * do 3 eexists. split; [reflexivity |].
        split; [now rewrite app_nil_r |]. split; [reflexivity | intros H; now contradiction H].
    + do 3 eexists. split; [reflexivity |].
      split; [now rewrite app_nil_r |]. split; [reflexivity | intros H; now contradiction H].
Qed.

(** What [loop] does, read off the replies: it makes [n] requests, every
    one but the last answered by a page that goes on; it never throws or
    exits; it leaves the files alone; and when it ends, [repositories] has
    grown by the records of the [n] replies. *)
Lemma loop_spec (fuel : nat) :
  forall (v : vars) (w : world DependentRepo),
  exists res w' n,
    loop fuel dependents maxPages v w = (Ok res, w')
    /\ (n <= fuel)%nat
    /\ List.length (fetches w') = (List.length (fetches w) + n)%nat
    /\ files w' = files w
    /\ (forall i, (S i < n)%nat \/ ((i < n)%nat /\ res = None) ->
         goesOn (dependents (List.length (fetches w) + i)%nat) <> None)
    /\ (forall c, maxPages = Some c ->
         Z.of_nat n <= Z.max 0 (c - currentPage v + 1))
    /\ match res with
       | Some v' =>
           repositories v'
           = (repositories v
              ++ flat_map (fun i => pageRecords (dependents i))
                          (seq (List.length (fetches w)) n))%list
       | None => n = fuel
       end.
Proof.
  induction fuel as [| fuel IH]; intros v w.
  - exists (if match nextPageUrl v with
               | Some u => withinCap (currentPage v) maxPages && truthy u
               | None => false
               end then None else Some v), w, 0%nat.
    cbn [loop]. destruct (nextPageUrl v) as [u |];
      [destruct (withinCap (currentPage v) maxPages && truthy u) |];
      (split; [reflexivity |]); (split; [lia |]); (split; [lia |]);
      (split; [reflexivity |]); (split; [intros i; lia |]);
      (split; [intros c _; lia |]); cbn; now rewrite ?app_nil_r.
  - cbn [loop].
    destruct (nextPageUrl v) as [u |] eqn:Hu.
    2:{ exists (Some v), w, 0%nat. repeat split; try lia; try (intros; lia).
        cbn. now rewrite app_nil_r. }
    destruct (withinCap (currentPage v) maxPages && truthy u) eqn:Hc.
    2:{ exists (Some v), w, 0%nat. repeat split; try lia; try (intros; lia).
        cbn. now rewrite app_nil_r. }
    destruct (turn_spec v u w) as (fl & v1 & errs & Hturn & Hrepos & Hflow & _).
    unfold bind at 1. rewrite Hturn.
    set (w1 := World (fetches w ++ [u]) (stderr w ++ errs) (files w)).
    assert (Hcap : forall c, maxPages = Some c -> currentPage v <= c).
    { intros c ->. apply andb_true_iff in Hc as [Hc _]. now apply Z.leb_le. }
    destruct (goesOn (dependents (List.length (fetches w)))) as [next |] eqn:Hgo.
    + destruct Hflow as (-> & Hpage & Hnext).
      destruct (IH v1 w1) as (res & w' & n & Hloop & Hn & Hlen & Hfiles & Hon & Hmax & Hres).
      exists res, w', (S n). rewrite Hloop.
      assert (Hw1 : List.length (fetches w1) = S (List.length (fetches w))).
      { subst w1. cbn. rewrite length_app. cbn. lia. }
      split; [reflexivity |]. split; [lia |]. split; [lia |].
      split; [exact Hfiles |]. split; [| split].
      * intros [| i] Hi.
        { rewrite Nat.add_0_r, Hgo. discriminate. }
        replace (List.length (fetches w) + S i)%nat
          with (List.length (fetches w1) + i)%nat by lia.
        apply Hon. destruct Hi as [Hi | [Hi Hr]]; [left; lia | right; split; [lia | exact Hr]].
      * intros c Hc'. specialize (Hmax c Hc'). specialize (Hcap c Hc'). lia.
      * destruct res as [v' |]; [| lia].
        rewrite Hres, Hrepos, Hw1, <- app_assoc. reflexivity.
    + subst fl. exists (Some v1), w1, 1%nat.
      split; [reflexivity |]. split; [lia |].
      split; [subst w1; cbn; rewrite length_app; cbn; lia |].
      split; [reflexivity |]. split; [| split].
      * intros i [Hi | [_ Hi]]; [lia | discriminate].
      * intros c Hc'. specialize (Hcap c Hc'). lia.
      * rewrite Hrepos. cbn. now rewrite app_nil_r.
Qed.

Lemma goesOn_truthy (reply : fetched document) (next : string) :
  goesOn reply = Some next -> truthy next = true.
Proof.
  unfold goesOn.
  destruct (pageOf reply) as [doc |]; try discriminate.
  destruct (repoBoxes doc); try discriminate.
  destruct (nextHref doc) as [href |]; try discriminate.
  destruct (truthy href) eqn:Hh; try discriminate.
  destruct (nextDisabled doc); try discriminate.
  cbn. intros H. injection H as <-.
  destruct (startsWith href "http"); [exact Hh | reflexivity].
Qed.

(** A turn on a reply that ends the loop. *)
Lemma loop_stops (fuel : nat) (v : vars) (u : string) (w : world DependentRepo) :
  nextPageUrl v = Some u ->
  withinCap (currentPage v) maxPages && truthy u = true ->
  goesOn (dependents (List.length (fetches w))) = None ->
  exists v' errs,
    loop (S fuel) dependents maxPages v w
      = (Ok (Some v'), World (fetches w ++ [u]) (stderr w ++ errs) (files w))
    /\ repositories v'
       = (repositories v
          ++ pageRecords (dependents (List.length (fetches w))))%list
    /\ (pageOf (dependents (List.length (fetches w))) <> None -> errs = []).
Proof.
  intros Hu Hc Hgo. cbn [loop]. rewrite Hu, Hc.
  destruct (turn_spec v u w) as (fl & v1 & errs & Hturn & Hrepos & Hflow & He).
  rewrite Hgo in Hflow. subst fl.
  unfold bind at 1. rewrite Hturn. exists v1, errs. now repeat split.
Qed.

(** A turn on a reply after which the loop goes on. *)
Lemma loop_goes_on (fuel : nat) (v : vars) (u next : string)
    (w : world DependentRepo) :
  nextPageUrl v = Some u ->
  withinCap (currentPage v) maxPages && truthy u = true ->
  goesOn (dependents (List.length (fetches w))) = Some next ->
  exists v' errs,
    loop (S fuel) dependents maxPages v w
      = loop fuel dependents maxPages v'
          (World (fetches w ++ [u]) (stderr w ++ errs) (files w))
    /\ repositories v'
       = (repositories v
          ++ pageRecords (dependents (List.length (fetches w))))%list
    /\ currentPage v' = currentPage v + 1
    /\ nextPageUrl v' = Some next
    /\ errs = [].
Proof.
  intros Hu Hc Hgo. cbn [loop]. rewrite Hu, Hc.
  destruct (turn_spec v u w) as (fl & v1 & errs & Hturn & Hrepos & Hflow & He).
  rewrite Hgo in Hflow. destruct Hflow as (-> & Hpage & Hnext).
  unfold bind at 1. rewrite Hturn. exists v1, errs. repeat split; auto.
  apply He. unfold goesOn in Hgo.
  destruct (pageOf _); [discriminate | discriminate Hgo].
Qed.

(** The loop ends at the first reply that does not go on, when no page cap
    ends it before: [k] replies that go on and one that does not make
    [k + 1] requests, whatever fuel above [k] is given. *)
Lemma loop_exact (k : nat) :
  forall (fuel : nat) (v : vars) (u : string) (w : world DependentRepo),
  (k < fuel)%nat ->
  nextPageUrl v = Some u -> truthy u = true ->
  withinCap (currentPage v + Z.of_nat k) maxPages = true ->
  (forall i, (i < k)%nat ->
     goesOn (dependents (List.length (fetches w) + i)%nat) <> None) ->
  goesOn (dependents (List.length (fetches w) + k)%nat) = None ->
  exists v' w',
    loop fuel dependents maxPages v w = (Ok (Some v'), w')
    /\ List.length (fetches w') = (List.length (fetches w) + S k)%nat
    /\ files w' = files w
    /\ repositories v'
       = (repositories v
          ++ flat_map (fun i => pageRecords (dependents i))
                      (seq (List.length (fetches w)) (S k)))%list.
Proof.
  assert (Hmono : forall p q, p <= q ->
            withinCap q maxPages = true -> withinCap p maxPages = true).
  { unfold withinCap. destruct maxPages; auto. intros p q Hpq Hq.
    apply Z.leb_le in Hq. apply Z.leb_le. lia. }
  induction k as [| k IH]; intros fuel v u w Hfuel Hu Ht Hcap Hon Hlast;
    (destruct fuel as [| fuel]; [lia |]).
  - rewrite Nat.add_0_r in Hlast. rewrite Z.add_0_r in Hcap.
    destruct (loop_stops fuel v u w Hu) as (v' & errs & Hloop & Hrepos & _); auto.
    { now rewrite Hcap, Ht. }
    exists v'. eexists. split; [exact Hloop |]. cbn [fetches files].
    rewrite length_app. cbn. split; [lia |]. split; [reflexivity |].
    rewrite Hrepos, app_nil_r. reflexivity.
  - destruct (goesOn (dependents (List.length (fetches w)))) as [next |] eqn:Hgo.
    2:{ exfalso. apply (Hon 0%nat); [lia |]. now rewrite Nat.add_0_r. }
    destruct (loop_goes_on fuel v u next w Hu)
      as (v1 & errs & Hloop & Hrepos & Hpage & Hnext & _); auto.
    { rewrite Ht, (Hmono (currentPage v) (currentPage v + Z.of_nat (S k))
                     ltac:(lia) Hcap). reflexivity. }
    set (w1 := World (fetches w ++ [u]) (stderr w ++ errs) (files w)) in *.
    assert (Hw1 : List.length (fetches w1) = S (List.length (fetches w))).
    { subst w1. cbn. rewrite length_app. cbn. lia. }
    destruct (IH fuel v1 next w1) as (v' & w' & Hloop' & Hlen & Hfiles & Hrepos');
      auto.
    + lia.
    + eapply goesOn_truthy; eauto.
    + rewrite Hpage. replace (currentPage v + 1 + Z.of_nat k)
        with (currentPage v + Z.of_nat (S k)) by lia. exact Hcap.
    + intros i Hi. rewrite Hw1.
      replace (S (List.length (fetches w)) + i)%nat
        with (List.length (fetches w) + S i)%nat by lia.
      apply Hon. lia.
    + rewrite Hw1.
      replace (S (List.length (fetches w)) + k)%nat
        with (List.length (fetches w) + S k)%nat by lia.
      exact Hlast.
    + exists v', w'. rewrite Hloop. split; [exact Hloop' |].
      split; [lia |]. split; [exact Hfiles |].
      rewrite Hrepos', Hrepos, Hw1, <- app_assoc. reflexivity.
Qed.

Lemma main_with_spec (fuel : nat) :
  exists res w n,
    main_with fuel dependents maxPages start = (Ok res, w)
    /\ (n <= fuel)%nat
    /\ List.length (fetches w) = n
    /\ (forall i, (S i < n)%nat \/ ((i < n)%nat /\ res = None) ->
         goesOn (dependents i) <> None)
    /\ (forall c, maxPages = Some c -> Z.of_nat n <= Z.max 0 c)
    /\ match res with
       | Some _ =>
           files w = [(outputPath, sort byStars (collected dependents n))]
       | None => n = fuel /\ files w = []
       end.
Proof.
  unfold main_with, scrapeGitHubDependents.
  set (v0 := {| repositories := []; currentPage := 1; nextPageUrl := _ |}).
  destruct (loop_spec fuel v0 start)
    as (res & w & n & Hloop & Hn & Hlen & Hfiles & Hon & Hmax & Hres).
  unfold bind. rewrite Hloop. cbn in Hlen, Hfiles, Hon, Hmax.
  destruct res as [v' |].
  - exists (Some tt). eexists. exists n. cbn. split; [reflexivity |].
    cbn. repeat split; auto.
    + intros i [Hi | [_ Hi]]; [apply Hon; now left | discriminate].
    + intros c Hc. specialize (Hmax c Hc). lia.
    + rewrite Hfiles, Hres. reflexivity.
  - exists None, w, n. cbn. repeat split; auto.
    + intros i Hi. apply Hon. destruct Hi as [Hi | [Hi _]]; [now left | now right].
    + intros c Hc. specialize (Hmax c Hc). lia.
Qed.

Lemma main_with_exact (k fuel : nat) :
  (k < fuel)%nat ->
  withinCap (1 + Z.of_nat k) maxPages = true ->
  (forall i, (i < k)%nat -> goesOn (dependents i) <> None) ->
  goesOn (dependents k) = None ->
  exists w,
    main_with fuel dependents maxPages start = (Ok (Some tt), w)
    /\ List.length (fetches w) = S k
    /\ files w = [(outputPath, sort byStars (collected dependents (S k)))].
Proof.
  intros Hfuel Hcap Hon Hlast.
  unfold main_with, scrapeGitHubDependents.
  set (v0 := {| repositories := []; currentPage := 1; nextPageUrl := _ |}).
  destruct (loop_exact k fuel v0 _ start Hfuel eq_refl eq_refl Hcap Hon Hlast)
    as (v' & w' & Hloop & Hlen & Hfiles & Hrepos).
  unfold bind. rewrite Hloop. cbn. eexists. split; [reflexivity |].
  cbn. split; [exact Hlen |]. rewrite Hfiles, Hrepos. reflexivity.
Qed.

(** The run has ended by the first reply that does not go on. *)
Lemma run_ends_at (k fuel : nat) :
  goesOn (dependents k) = None -> (k < fuel)%nat ->
  exists w n,
    main_with fuel dependents maxPages start = (Ok (Some tt), w)
    /\ List.length (fetches w) = n /\ (n <= S k)%nat
    /\ files w = [(outputPath, sort byStars (collected dependents n))].
Proof.
  intros Hlast Hfuel.
  destruct (main_with_spec fuel)
    as (res & w & n & Hrun & Hn & Hlen & Hon & _ & Hres).
  assert (Hk : (n <= S k)%nat /\ res <> None).
  { destruct (Nat.le_gt_cases n (S k)) as [Hle | Hgt].
    - split; [exact Hle |]. intros ->. destruct Hres as [-> _].
      apply (Hon k); [right; split; [lia | reflexivity] | exact Hlast].
    - exfalso. apply (Hon k); [left; lia | exact Hlast]. }
  destruct Hk as [Hle Hsome].
  destruct res as [[] |]; [| contradiction].
  exists w, n. auto.
Qed.

Lemma collected_succ (n : nat) :
  collected dependents (S n)
  = (collected dependents n ++ pageRecords (dependents n))%list.
Proof.
  unfold collected. rewrite seq_S, flat_map_app. cbn. now rewrite app_nil_r.
Qed.

Lemma main_with_one_page (fuel : nat) (doc : document) :
  pageOf (dependents 0%nat) = Some doc ->
  goesOn (dependents 0%nat) = None ->
  withinCap 1 maxPages = true ->
  main_with (S fuel) dependents maxPages start
  = (Ok (Some tt),
     World [baseUrl] [] [(outputPath, sort byStars (parseBoxes (repoBoxes doc)))]).
Proof.
  intros Hdoc Hgo Hcap. unfold main_with, scrapeGitHubDependents.
  set (v0 := {| repositories := []; currentPage := 1; nextPageUrl := _ |}).
  destruct (loop_stops fuel v0 baseUrl start eq_refl)
    as (v' & errs & Hloop & Hrepos & Herrs); auto.
  { cbn. now rewrite Hcap. }
  cbn [fetches stderr files start app List.length] in Hloop, Hrepos, Herrs.
  rewrite Herrs in Hloop by congruence.
  unfold bind. rewrite Hloop. cbn. rewrite Hrepos.
  unfold pageRecords. now rewrite Hdoc.
Qed.

Lemma main_with_two_pages (fuel : nat) (next : string) (doc : document) :
  goesOn (dependents 0%nat) = Some next ->
  pageOf (dependents 1%nat) = Some doc ->
  goesOn (dependents 1%nat) = None ->
  withinCap 2 maxPages = true ->
  main_with (S (S fuel)) dependents maxPages start
  = (Ok (Some tt),
     World [baseUrl; next] []
       [(outputPath,
         sort byStars (pageRecords (dependents 0%nat)
                       ++ parseBoxes (repoBoxes doc))%list)]).
Proof.
  intros Hgo0 Hdoc Hgo1 Hcap.
  assert (Hcap1 : withinCap 1 maxPages = true).
  { unfold withinCap in *. destruct maxPages; auto.
    apply Z.leb_le in Hcap. apply Z.leb_le. lia. }
  unfold main_with, scrapeGitHubDependents.
  set (v0 := {| repositories := []; currentPage := 1; nextPageUrl := _ |}).
  destruct (loop_goes_on (S fuel) v0 baseUrl next start eq_refl)
    as (v1 & errs & Hloop & Hrepos & Hpage & Hnext & ->); auto.
  { cbn. now rewrite Hcap1. }
  cbn [fetches stderr files start app List.length repositories currentPage v0]
    in Hloop, Hrepos, Hpage.
  destruct (loop_stops fuel v1 next (World [baseUrl] [] []) Hnext)
    as (v2 & errs & Hloop2 & Hrepos2 & Herrs); auto.
  { rewrite Hpage. change (1 + 1) with 2. rewrite Hcap.
    now rewrite (goesOn_truthy _ _ Hgo0). }
  cbn [fetches stderr files app List.length] in Hloop2, Hrepos2, Herrs.
  rewrite Herrs in Hloop2 by congruence.
  unfold bind. rewrite Hloop, Hloop2. cbn. rewrite Hrepos2, Hrepos.
  unfold pageRecords at 2. now rewrite Hdoc.
Qed.

End Loop.

Lemma goesOn_failed (reply : fetched document) :
  pageOf reply = None -> goesOn reply = None.
Proof. unfold goesOn. now intros ->. Qed.

Lemma goesOn_last (reply : fetched document) (doc : document) :
  pageOf reply = Some doc ->
  nextHref doc = None \/ nextDisabled doc = true \/ repoBoxes doc = [] ->
  goesOn reply = None.
Proof.
  unfold goesOn. intros -> H.
  destruct (repoBoxes doc); [reflexivity |].
  destruct (nextHref doc) as [href |]; [| reflexivity].
  destruct H as [H | [H | H]]; try discriminate.
  rewrite H. now rewrite andb_false_r.
Qed.

End ScraperRuns.

(* ================================================================= *)
(** ** The records of the scraper (C10) *)

Section ScraperRecords.
Import JS IO Scraper ScraperRuns.

Lemma split_not_nil (c : ascii) (s : string) : split c s <> [].
Proof.
  induction s as [| d r IH]; simpl; [discriminate |].
  destruct (Ascii.eqb d c); [discriminate |].
  destruct (split c r); [contradiction | discriminate].
Qed.

Lemma secondSegment_none (s : string) :
  secondSegment s = None <-> includes s "/" = false.
Proof.
  unfold secondSegment.
  induction s as [| d r IH]; cbn [split includes].
  - split; reflexivity.
  - unfold startsWith. cbn [String.prefix].
    destruct (Ascii.eqb d "/") eqn:Hd.
    + apply Ascii.eqb_eq in Hd. subst d.
      pose proof (split_not_nil "/" r) as Hne.
      destruct (split "/" r) as [| seg segs]; [contradiction |].
      destruct (Ascii.ascii_dec "/" "/") as [_ | Hc]; [| contradiction].
      assert (Hp : String.prefix "" r = true) by (destruct r; reflexivity).
      rewrite Hp. cbn. split; discriminate.
    + destruct (Ascii.ascii_dec "/" d) as [E | _].
      { subst d. rewrite Ascii.eqb_refl in Hd. discriminate. }
      cbn [orb]. rewrite <- IH.
      pose proof (split_not_nil "/" r) as Hne.
      destruct (split "/" r) as [| seg [| seg2 segs]]; [contradiction | |];
        split; auto; discriminate.
Qed.

Lemma parseBox_record (b : box) (r : DependentRepo) :
  parseBox b = Some r ->
  truthy (full_name r) = true
  /\ full_name r = fullNameOf b
  /\ stars r = parseStarCount (trim (starsText b))
  /\ url r = "https://github.com/" ++ full_name r
  /\ name r = match secondSegment (full_name r) with
              | Some seg => if truthy seg then seg else full_name r
              | None => full_name r
              end.
Proof.
  unfold parseBox, secondSegment.
  destruct (truthy (fullNameOf b)) eqn:Ht; [| discriminate].
  intros H. injection H as <-. cbn. repeat split; auto.
  destruct (split "/" (fullNameOf b)) as [| o [| seg segs]]; reflexivity.
Qed.

Lemma parseBoxes_In (bs : list box) (r : DependentRepo) :
  In r (parseBoxes bs) -> exists b, In b bs /\ parseBox b = Some r.
Proof.
  induction bs as [| b bs IH]; cbn; [contradiction |].
  destruct (parseBox b) as [r' |] eqn:Hb.
  - intros [<- | H]; [eauto |]. destruct (IH H) as (b' & ? & ?); eauto.
  - intros H. destruct (IH H) as (b' & ? & ?); eauto.
Qed.

(** Every collected record is the record of a box of a page that was
    answered with success. *)
Lemma collected_In (dependents : site) (n : nat) (r : DependentRepo) :
  In r (collected dependents n) ->
  exists i doc b,
    (i < n)%nat /\ pageOf (dependents i) = Some doc
    /\ In b (repoBoxes doc) /\ parseBox b = Some r.
Proof.
  unfold collected. rewrite in_flat_map. intros (i & Hi & Hr).
  apply in_seq in Hi. unfold pageRecords in Hr.
  destruct (pageOf (dependents i)) as [doc |] eqn:Hdoc; [| contradiction].
  destruct (parseBoxes_In _ _ Hr) as (b & Hb & Hp).
  exists i, doc, b. repeat split; auto. lia.
Qed.

(** The records of a file that [main] wrote are collected records. *)
Lemma written_In (fuel : nat) (dependents : site) (maxPages : option Z)
    (path : string) (data : list DependentRepo) (r : DependentRepo) :
  In (path, data) (files (snd (main_with fuel dependents maxPages start))) ->
  In r data ->
  exists n, In r (collected dependents n).
Proof.
  destruct (main_with_spec dependents maxPages fuel)
    as (res & w & n & Hrun & _ & _ & _ & _ & Hres).
  rewrite Hrun. cbn [snd]. destruct res as [u |].
  - rewrite Hres. intros [H | []] Hr. injection H as _ <-.
    exists n. now apply sort_In in Hr.
  - destruct Hres as [_ ->]. contradiction.
Qed.

(** C10 (as stated, refuted). A listed entry whose link is [/acme/] gets
    the full name [acme/]; the segment after its first [/] is empty, and
    the record's [name] is the whole full name, not that segment. *)
Lemma name_falls_back_on_empty_segment :
  exists r,
    files (snd (main 1 Samples.trailingSlashSite start))
      = [(outputPath, [r])]
    /\ full_name r = "acme/"
    /\ secondSegment (full_name r) = Some ""
    /\ name r = "acme/".
Proof. eexists. repeat split; vm_compute; reflexivity. Qed.

(** C10 (amended). Every record in a file that the scraper writes has a
    non-empty [full_name], comes from a listed box whose link text gives
    that name, has [url] equal to [https://github.com/] followed by
    [full_name], and has for [name] the segment of [full_name] between its
    first and second [/] when there is such a segment and it is not empty,
    and the whole [full_name] otherwise; a box whose link gives an empty
    name yields no record. *)
Theorem scraped_record_shape
    (fuel : nat) (dependents : site) (maxPages : option Z)
    (path : string) (data : list DependentRepo) (r : DependentRepo) :
  In (path, data) (files (snd (main_with fuel dependents maxPages start))) ->
  In r data ->
  full_name r <> ""
  /\ (exists b, parseBox b = Some r /\ full_name r = fullNameOf b)
  /\ url r = "https://github.com/" ++ full_name r
  /\ name r = match secondSegment (full_name r) with
              | Some seg => if truthy seg then seg else full_name r
              | None => full_name r
              end
  /\ (secondSegment (full_name r) = None <-> includes (full_name r) "/" = false)
  /\ (forall b, fullNameOf b = "" -> parseBox b = None).
Proof.
  intros Hfile Hr.
  destruct (written_In _ _ _ _ _ _ Hfile Hr) as (n & Hn).
  destruct (collected_In _ _ _ Hn) as (i & doc & b & _ & _ & _ & Hb).
  destruct (parseBox_record b r Hb) as (Ht & Hfull & _ & Hurl & Hname).
  split.
  { intros E. rewrite E in Ht. discriminate. }
  split; [eauto |]. split; [exact Hurl |]. split; [exact Hname |].
  split; [apply secondSegment_none |].
  intros b' Hb'. unfold parseBox. now rewrite Hb'.
Qed.

Lemma scraped_record_shape_witness :
  full_name Samples.acmeRecord <> ""
  /\ url Samples.acmeRecord = "https://github.com/" ++ full_name Samples.acmeRecord.
Proof.
  assert (Hfile : In (outputPath, [Samples.acmeRecord])
                     (files (snd (main_with 1 Samples.trailingSlashSite None start))))
    by (vm_compute; left; reflexivity).
  pose proof (scraped_record_shape 1 Samples.trailingSlashSite None _ _
                Samples.acmeRecord Hfile (or_introl eq_refl)) as H.
  split; [exact (proj1 H) | exact (proj1 (proj2 (proj2 H)))].
Defined.

End ScraperRecords.

(* ================================================================= *)
(** ** Runs of the collector *)

Module CollectorRuns.
Import JS IO Collector.

Section Api.
Variable api : github.

(** One turn of the detail loop. *)
Lemma detail_turn (fullName : string) (repositories : list GitHubRepo)
    (w : world GitHubRepo) :
  tryCatch
    (IO.bind (fetch (getRepo api fullName) (repoUrl fullName))
       (fun repoResponse =>
          if ok repoResponse then
            IO.bind (readBody repoResponse)
              (fun repoData => ret (repositories ++ [record repoData])%list)
          else ret repositories))
    (fun error =>
       IO.bind (console_error ("Error fetching " ++ fullName ++ ":") (Some error))
         (fun _ => ret repositories)) w
  = (Ok (repositories ++ kept (getRepo api fullName))%list,
     World (fetches w ++ [repoUrl fullName])
           (stderr w ++ detailError fullName (getRepo api fullName))
           (files w)).
Proof.
  unfold tryCatch, bind, fetch, readBody, console_error, ret, throw, kept,
    detailError.
  destruct (getRepo api fullName) as [e | r]; cbn [fetches stderr files].
  - now rewrite app_nil_r.
  - destruct (ok r); [destruct (decoded r) as [d |] |];
      cbn [fetches stderr files]; now rewrite ?app_nil_r.
Qed.

Lemma fetchDetails_spec (names : list string) :
  forall (repositories : list GitHubRepo) (w : world GitHubRepo),
  fetchDetails api names repositories w
  = (Ok (repositories ++ details api names)%list,
     World (fetches w ++ map repoUrl names)
           (stderr w ++ detailErrors api names) (files w)).
Proof.
  induction names as [| fullName names IH]; intros repositories w.
  - cbn. rewrite !app_nil_r. now destruct w.
  - cbn [fetchDetails]. unfold bind at 1. rewrite detail_turn, IH.
    unfold details, detailErrors.
    cbn [flat_map map fetches stderr files].
    now rewrite <- !app_assoc.
Qed.

(** One turn of the paging loop, by the kind of reply. *)
Lemma searchPages_full (remaining : nat) (page : Z) (set : list string)
    (w : world GitHubRepo) :
  fullPage (searchCode api page) = true ->
  searchPages api (S remaining) page set w
  = searchPages api remaining (page + 1) (gathered api [page] set)
      (World (fetches w ++ [searchUrl page]) (stderr w) (files w)).
Proof.
  unfold fullPage, pageNames. cbn [searchPages gathered].
  unfold bind, fetch, readBody, ret, throw, pageNames.
  destruct (searchCode api page) as [e | r]; [discriminate |].
  destruct (ok r); [| discriminate]. cbn [negb].
  destruct (decoded r) as [data |]; [| discriminate]. cbn [option_map].
  rewrite length_map. intros H. apply Z.leb_le in H.
  destruct (Z.of_nat (List.length (items data)) <? perPage) eqn:E;
    [apply Z.ltb_lt in E; lia | reflexivity].
Qed.

Lemma searchPages_short (remaining : nat) (page : Z) (set : list string)
    (w : world GitHubRepo) :
  shortPage (searchCode api page) = true ->
  searchPages api (S remaining) page set w
  = (Ok (gathered api [page] set),
     World (fetches w ++ [searchUrl page]) (stderr w) (files w)).
Proof.
  unfold shortPage, pageNames. cbn [searchPages gathered].
  unfold bind, fetch, readBody, ret, throw, pageNames.
  destruct (searchCode api page) as [e | r]; [discriminate |].
  destruct (ok r); [| discriminate]. cbn [negb].
  destruct (decoded r) as [data |]; [| discriminate]. cbn [option_map].
  rewrite length_map. now intros ->.
Qed.

Lemma searchPages_failure (remaining : nat) (page : Z) (set : list string)
    (w : world GitHubRepo) (e : error) :
  pageFailure (searchCode api page) = Some e ->
  searchPages api (S remaining) page set w
  = (Throw e, World (fetches w ++ [searchUrl page]) (stderr w) (files w)).
Proof.
  unfold pageFailure. cbn [searchPages].
  unfold bind, fetch, readBody, ret, throw, apiError.
  destruct (searchCode api page) as [e' | r].
  - now intros [= ->].
  - destruct (ok r); cbn [negb].
    + destruct (decoded r); [discriminate | now intros [= <-]].
    + now intros [= <-].
Qed.

(** Every reply is full, short or a failure. *)
Lemma reply_cases (reply : fetched GitHubCodeSearchResponse) :
  fullPage reply = true \/ shortPage reply = true
  \/ exists e, pageFailure reply = Some e.
Proof.
  unfold fullPage, shortPage, pageFailure, pageNames.
  destruct reply as [e | r]; [eauto |].
  destruct (ok r); [| eauto].
  destruct (decoded r) as [data |]; [| eauto]. cbn.
  destruct (perPage <=? _) eqn:E; [now left | right; left].
  apply Z.leb_gt in E. now apply Z.ltb_lt.
Qed.

Lemma gathered_app (ps qs : list Z) (set : list string) :
  gathered api (ps ++ qs) set = gathered api qs (gathered api ps set).
Proof. revert set. induction ps as [| p ps IH]; intros set; cbn; auto. Qed.

(** What the paging loop does: it requests pages [page], [page + 1], ...,
    [k] of them and at most [remaining], never exits, and when it returns,
    returns the names gathered from these pages. *)
Lemma searchPages_spec (remaining : nat) :
  forall (page : Z) (set : list string) (w : world GitHubRepo),
  exists res k,
    (k <= remaining)%nat
    /\ searchPages api remaining page set w
       = (res, World (fetches w ++ map searchUrl (pagesFrom page k))
                     (stderr w) (files w))
    /\ match res with
       | Ok names => names = gathered api (pagesFrom page k) set
       | Throw _ => True
       | Exit _ => False
       end.
Proof.
  induction remaining as [| remaining IH]; intros page set w.
  - exists (Ok set), 0%nat. cbn. rewrite app_nil_r. destruct w; auto.
  - destruct (reply_cases (searchCode api page)) as [H | [H | [e H]]].
    + rewrite (searchPages_full _ _ _ _ H).
      destruct (IH (page + 1) (gathered api [page] set)
                   (World (fetches w ++ [searchUrl page]) (stderr w) (files w)))
        as (res & k & Hk & Hrun & Hres).
      exists res, (S k). split; [lia |]. rewrite Hrun. cbn.
      rewrite <- app_assoc. split; [reflexivity | exact Hres].
    + rewrite (searchPages_short _ _ _ _ H).
      exists (Ok (gathered api [page] set)), 1%nat. split; [lia |]. now cbn.
    + rewrite (searchPages_failure _ _ _ _ _ H).
      exists (Throw e), 1%nat. split; [lia |]. now cbn.
Qed.

(** A run of full pages. *)
Lemma searchPages_prefix (k : nat) :
  forall (remaining : nat) (page : Z) (set : list string) (w : world GitHubRepo),
  Forall (fun p => fullPage (searchCode api p) = true) (pagesFrom page k) ->
  searchPages api (k + remaining) page set w
  = searchPages api remaining (page + Z.of_nat k)
      (gathered api (pagesFrom page k) set)
      (World (fetches w ++ map searchUrl (pagesFrom page k))
             (stderr w) (files w)).
Proof.
  induction k as [| k IH]; intros remaining page set w Hfull.
  - cbn. rewrite Z.add_0_r, app_nil_r. now destruct w.
  - cbn [pagesFrom] in Hfull. inversion Hfull as [| ? ? Hp Hps]; subst.
    cbn [Nat.add]. rewrite (searchPages_full _ _ _ _ Hp), (IH _ _ _ _ Hps).
    cbn [fetches stderr files pagesFrom map].
    rewrite <- app_assoc. cbn [app].
    replace (page + 1 + Z.of_nat k) with (page + Z.of_nat (S k)) by lia.
    reflexivity.
Qed.

Lemma pagesFrom_succ (k : nat) :
  forall page, pagesFrom page (S k) = (pagesFrom page k ++ [page + Z.of_nat k])%list.
Proof.
  induction k as [| k IH]; intros page.
  - cbn. now rewrite Z.add_0_r.
  - cbn [pagesFrom] in *. rewrite IH. cbn [app].
    replace (page + 1 + Z.of_nat k) with (page + Z.of_nat (S k)) by lia.
    reflexivity.
Qed.

(** The three ways a run can go. *)
Lemma run_without_token (token : option string) :
  tokenSet token = false ->
  searchViemRepos token api start
  = (Exit 1, World [] (map (fun line => (line, None)) tokenHelp) []).
Proof. unfold searchViemRepos. now intros ->. Qed.

Lemma run_with_names (token : option string) (names : list string)
    (w1 : world GitHubRepo) :
  tokenSet token = true ->
  searchPages api (Z.to_nat maxPages) 1 [] start = (Ok names, w1) ->
  searchViemRepos token api start
  = (Ok tt,
     World (fetches w1 ++ map repoUrl names)
           (stderr w1 ++ detailErrors api names)
           (files w1 ++ [(outputPath, sort byStars (details api names))])).
Proof.
  intros Ht Hpages. unfold searchViemRepos, tryCatch. rewrite Ht.
  cbn [negb]. unfold bind at 1. unfold ret at 1.
  unfold bind at 1. rewrite Hpages.
  unfold bind at 1. rewrite fetchDetails_spec. reflexivity.
Qed.

Lemma run_with_throw (token : option string) (e : error)
    (w1 : world GitHubRepo) :
  tokenSet token = true ->
  searchPages api (Z.to_nat maxPages) 1 [] start = (Throw e, w1) ->
  searchViemRepos token api start
  = (Exit 1,
     World (fetches w1)
           (stderr w1 ++ [("Error fetching repositories:", Some e)])
           (files w1)).
Proof.
  intros Ht Hpages. unfold searchViemRepos, tryCatch. rewrite Ht.
  cbn [negb]. unfold bind at 1. unfold ret at 1.
  unfold bind at 1. rewrite Hpages. reflexivity.
Qed.

End Api.

(** *** The set of names *)

Lemma existsb_eqb_In (x : string) (l : list string) :
  existsb (String.eqb x) l = true <-> In x l.
Proof.
  rewrite existsb_exists. split.
  - intros (y & Hy & E). apply String.eqb_eq in E. now subst.
  - intros H. exists x. split; [exact H | apply String.eqb_refl].
Qed.

Lemma add_NoDup (set : list string) (x : string) :
  NoDup set -> NoDup (add set x).
Proof.
  intros H. unfold add. destruct (existsb (String.eqb x) set) eqn:E; auto.
  apply NoDup_app; auto.
  - repeat constructor. intros [].
  - intros y Hy [<- | []].
    apply existsb_eqb_In in Hy. congruence.
Qed.

Lemma fold_add_NoDup (names set : list string) :
  NoDup set -> NoDup (fold_left add names set).
Proof.
  revert set. induction names as [| x names IH]; intros set H; cbn; auto.
  apply IH. now apply add_NoDup.
Qed.

Lemma gathered_NoDup (api : github) (pages : list Z) (set : list string) :
  NoDup set -> NoDup (gathered api pages set).
Proof.
  revert set. induction pages as [| p pages IH]; intros set H; cbn; auto.
  apply IH. destruct (pageNames (searchCode api p)); auto.
  now apply fold_add_NoDup.
Qed.

(** Names that are new and pairwise different are appended as they come. *)
Lemma fold_add_fresh (names set : list string) :
  NoDup (set ++ names) -> fold_left add names set = (set ++ names)%list.
Proof.
  revert set. induction names as [| x names IH]; intros set H; cbn.
  - now rewrite app_nil_r.
  - assert (Hx : existsb (String.eqb x) set = false).
    { apply not_true_is_false. intros E. apply existsb_eqb_In in E.
      apply NoDup_remove_2 in H. apply H. apply in_or_app. now left. }
    unfold add at 2. rewrite Hx.
    replace (set ++ x :: names)%list with ((set ++ [x]) ++ names)%list
      by (now rewrite <- app_assoc).
    apply IH. now rewrite <- app_assoc.
Qed.

Lemma distinct_NoDup (l : list string) : distinct l = true -> NoDup l.
Proof.
  induction l as [| x l IH]; cbn; [constructor |].
  intros H. apply andb_true_iff in H as [Hx Hl].
  constructor; auto. intros Hin. apply existsb_eqb_In in Hin.
  now rewrite Hin in Hx.
Qed.

(** Every run is one of three: no token; a search page that throws; or
    paging that ends, followed by the detail requests and the write. *)
Lemma run_cases (token : option string) (api : github) :
  (tokenSet token = false
   /\ searchViemRepos token api start
      = (Exit 1, World [] (map (fun line => (line, None)) tokenHelp) []))
  \/ (exists k e,
        (k <= 10)%nat
        /\ searchViemRepos token api start
           = (Exit 1,
              World (map searchUrl (pagesFrom 1 k))
                    [("Error fetching repositories:", Some e)] []))
  \/ (exists k,
        (k <= 10)%nat
        /\ searchViemRepos token api start
           = (Ok tt,
              World (map searchUrl (pagesFrom 1 k)
                     ++ map repoUrl (gathered api (pagesFrom 1 k) []))
                    (detailErrors api (gathered api (pagesFrom 1 k) []))
                    [(outputPath,
                      sort byStars
                        (details api (gathered api (pagesFrom 1 k) [])))])).
Proof.
  destruct (tokenSet token) eqn:Ht.
  2:{ left. split; [reflexivity |]. now apply run_without_token. }
  right.
  destruct (searchPages_spec api (Z.to_nat maxPages) 1 [] start)
    as (res & k & Hk & Hrun & Hres).
  change (Z.to_nat maxPages) with 10%nat in Hk.
  destruct res as [names | e | c]; [| | contradiction].
  - right. exists k. split; [exact Hk |]. subst names.
    now rewrite (run_with_names api token _ _ Ht Hrun).
  - left. exists k, e. split; [exact Hk |].
    now rewrite (run_with_throw api token _ _ Ht Hrun).
Qed.

End CollectorRuns.

(* ================================================================= *)
(** ** Paging and failures of the collector (C5, C6, C7) *)

Section CollectorClaims.
Import JS IO Collector CollectorRuns.

(** C5. The collector requests at most 10 search pages, in order from
    page 1, each with [per_page=100], and then the details of pairwise
    different names. After [k] full pages, a page with fewer than 100 items
    is the last page requested, and the details of every name gathered so
    far are requested, once each. With 100 items on page 1 and 40 on page
    2, all of different repositories, that is two page requests followed
    by the 140 detail requests. *)
Theorem collector_paging :
  (forall page, searchUrl page
     = "https://api.github.com/search/code?q=viem%20filename%3Apackage.json%20-is%3Aarchived&per_page=100&page="
       ++ string_of_Z page)
  /\ (forall (token : option string) (api : github),
        exists k names,
          (k <= 10)%nat /\ NoDup names
          /\ fetches (snd (searchViemRepos token api start))
             = (map searchUrl (pagesFrom 1 k) ++ map repoUrl names)%list)
  /\ (forall (token : option string) (api : github) (k : nat),
        tokenSet token = true -> (k < 10)%nat ->
        Forall (fun p => fullPage (searchCode api p) = true) (pagesFrom 1 k) ->
        shortPage (searchCode api (1 + Z.of_nat k)) = true ->
        let run := searchViemRepos token api start in
        fst run = Ok tt
        /\ fetches (snd run)
           = (map searchUrl (pagesFrom 1 (S k))
              ++ map repoUrl (gathered api (pagesFrom 1 (S k)) []))%list)
  /\ (forall (token : option string) (api : github)
             (r1 r2 : response GitHubCodeSearchResponse)
             (d1 d2 : GitHubCodeSearchResponse),
        tokenSet token = true ->
        searchCode api 1 = Answer r1 -> ok r1 = true -> decoded r1 = Some d1 ->
        List.length (items d1) = 100%nat ->
        searchCode api 2 = Answer r2 -> ok r2 = true -> decoded r2 = Some d2 ->
        List.length (items d2) = 40%nat ->
        NoDup (map repository_full_name (items d1 ++ items d2)) ->
        let run := searchViemRepos token api start in
        fst run = Ok tt
        /\ fetches (snd run)
           = ([searchUrl 1; searchUrl 2]
              ++ map repoUrl
                   (map repository_full_name (items d1 ++ items d2)))%list).
Proof.
  assert (Hshort : forall token api k,
    tokenSet token = true -> (k < 10)%nat ->
    Forall (fun p => fullPage (searchCode api p) = true) (pagesFrom 1 k) ->
    shortPage (searchCode api (1 + Z.of_nat k)) = true ->
    searchViemRepos token api start
    = (Ok tt,
       World (map searchUrl (pagesFrom 1 (S k))
              ++ map repoUrl (gathered api (pagesFrom 1 (S k)) []))
             (detailErrors api (gathered api (pagesFrom 1 (S k)) []))
             [(outputPath,
               sort byStars (details api (gathered api (pagesFrom 1 (S k)) [])))])).
  { intros token api k Ht Hk Hfull Hlast.
    assert (Hpages : searchPages api (Z.to_nat maxPages) 1 [] start
                     = (Ok (gathered api (pagesFrom 1 (S k)) []),
                        World (map searchUrl (pagesFrom 1 (S k))) [] [])).
    { change (Z.to_nat maxPages) with 10%nat.
      replace 10%nat with (k + S (9 - k))%nat by lia.
      rewrite (searchPages_prefix api k _ _ _ _ Hfull).
      rewrite (searchPages_short api _ _ _ _ Hlast).
      rewrite pagesFrom_succ, map_app, gathered_app. reflexivity. }
    rewrite (run_with_names api token _ _ Ht Hpages). reflexivity. }
  split; [reflexivity |]. split; [| split].
  - intros token api.
    destruct (run_cases token api) as [[_ Hrun] | [(k & e & Hk & Hrun) | (k & Hk & Hrun)]];
      rewrite Hrun; cbn [snd fetches].
    + exists 0%nat, []. repeat split; [lia | constructor].
    + exists k, []. rewrite app_nil_r. repeat split; [lia | constructor].
    + exists k, (gathered api (pagesFrom 1 k) []).
      repeat split; [lia |]. apply gathered_NoDup. constructor.
  - intros token api k Ht Hk Hfull Hlast run. subst run.
    rewrite (Hshort token api k Ht Hk Hfull Hlast). split; reflexivity.
  - intros token api r1 r2 d1 d2 Ht H1 Hok1 Hd1 Hlen1 H2 Hok2 Hd2 Hlen2 Hnodup run.
    subst run.
    assert (Hfull : Forall (fun p => fullPage (searchCode api p) = true)
                           (pagesFrom 1 1)).
    { repeat constructor. unfold fullPage, pageNames.
      rewrite H1, Hok1, Hd1. cbn [option_map]. rewrite length_map, Hlen1.
      reflexivity. }
    assert (Hlast : shortPage (searchCode api (1 + Z.of_nat 1)) = true).
    { unfold shortPage, pageNames. change (1 + Z.of_nat 1) with 2.
      rewrite H2, Hok2, Hd2. cbn [option_map]. rewrite length_map, Hlen2.
      reflexivity. }
    rewrite (Hshort token api 1%nat Ht ltac:(lia) Hfull Hlast).
    cbn [fst snd fetches pagesFrom gathered map app].
    change (1 + 1) with 2. unfold pageNames.
    rewrite H1, Hok1, Hd1, H2, Hok2, Hd2. cbn [option_map].
    rewrite map_app in Hnodup.
    rewrite (fold_add_fresh (map repository_full_name (items d1)) [])
      by (cbn [app]; eapply NoDup_app_remove_r; eauto).
    cbn [app]. rewrite (fold_add_fresh _ _ Hnodup), <- map_app.
    split; reflexivity.
Qed.

Lemma collector_paging_witness :
  List.length
    (fetches (snd (searchViemRepos (Some "ghp_token") Samples.twoPageApi start)))
  = 142%nat.
Proof.
  assert (Hnodup : NoDup (Samples.numbered 0 100 ++ Samples.numbered 100 40))
    by (apply distinct_NoDup; vm_compute; reflexivity).
  destruct (proj2 (proj2 (proj2 collector_paging))
              (Some "ghp_token") Samples.twoPageApi _ _ _ _
              eq_refl eq_refl eq_refl eq_refl eq_refl
              eq_refl eq_refl eq_refl eq_refl) as [_ H].
  - cbn [items]. rewrite <- map_app, map_map. cbn [repository_full_name].
    rewrite map_id. exact Hnodup.
  - rewrite H. vm_compute. reflexivity.
Defined.

(** C6. When the request for a search page is answered without success
    status, the run ends there with [process.exit(1)]: no further request
    is made, no file is written, and the error printed carries the status,
    the status text and the body of that response. No run that exits has
    written a file. *)
Theorem search_failure_aborts :
  (forall (token : option string) (api : github) (k : nat)
          (r : response GitHubCodeSearchResponse),
     tokenSet token = true -> (k < 10)%nat ->
     Forall (fun p => fullPage (searchCode api p) = true) (pagesFrom 1 k) ->
     searchCode api (1 + Z.of_nat k) = Answer r -> ok r = false ->
     searchViemRepos token api start
     = (Exit 1,
        World (map searchUrl (pagesFrom 1 (S k)))
              [("Error fetching repositories:",
                Some (Error ("GitHub API error: " ++ string_of_Z (status r)
                             ++ " " ++ statusText r
                             ++ String (ascii_of_nat 10) (text r))))]
              []))
  /\ (forall (token : option string) (api : github),
        let run := searchViemRepos token api start in
        fst run = Ok tt \/ (fst run = Exit 1 /\ files (snd run) = [])).
Proof.
  split.
  - intros token api k r Ht Hk Hfull Hr Hok.
    assert (Hfail : pageFailure (searchCode api (1 + Z.of_nat k))
                    = Some (Error (apiError r))).
    { unfold pageFailure. now rewrite Hr, Hok. }
    assert (Hpages : searchPages api (Z.to_nat maxPages) 1 [] start
                     = (Throw (Error (apiError r)),
                        World (map searchUrl (pagesFrom 1 (S k))) [] [])).
    { change (Z.to_nat maxPages) with 10%nat.
      replace 10%nat with (k + S (9 - k))%nat by lia.
      rewrite (searchPages_prefix api k _ _ _ _ Hfull).
      rewrite (searchPages_failure api _ _ _ _ _ Hfail).
      rewrite pagesFrom_succ, map_app. reflexivity. }
    rewrite (run_with_throw api token _ _ Ht Hpages). reflexivity.
  - intros token api run. subst run.
    destruct (run_cases token api)
      as [[_ Hrun] | [(k & e & Hk & Hrun) | (k & Hk & Hrun)]];
      rewrite Hrun; cbn [fst snd files]; auto.
Qed.

Lemma search_failure_aborts_witness :
  searchViemRepos (Some "ghp_token") Samples.forbiddenApi start
  = (Exit 1,
     World [searchUrl 1]
           [("Error fetching repositories:",
             Some (Error ("GitHub API error: 403 Forbidden"
                          ++ String (ascii_of_nat 10) "API rate limit exceeded")))]
           []).
Proof.
  rewrite (proj1 search_failure_aborts (Some "ghp_token") Samples.forbiddenApi
             0%nat Samples.forbidden eq_refl ltac:(lia)
             (Forall_nil _) eq_refl eq_refl).
  reflexivity.
Defined.

(** C7. Once paging has returned the names, the run cannot fail any more:
    every name gets its detail request, in order, whatever the replies;
    a reply that throws or has no success status adds nothing to the
    output (one that throws is printed with [console.error]); the
    records of all other replies are sorted with [byStars] and written. *)
Theorem detail_failures_do_not_abort :
  (forall (token : option string) (api : github) (names : list string)
          (w1 : world GitHubRepo),
     tokenSet token = true ->
     searchPages api (Z.to_nat maxPages) 1 [] start = (Ok names, w1) ->
     let run := searchViemRepos token api start in
     fst run = Ok tt
     /\ fetches (snd run) = (fetches w1 ++ map repoUrl names)%list
     /\ files (snd run) = [(outputPath, sort byStars (details api names))]
     /\ (forall r, In r (sort byStars (details api names)) <->
                   exists fullName,
                     In fullName names /\ In r (kept (getRepo api fullName))))
  /\ (forall (reply : fetched repoData),
        match reply with
        | NetworkError _ => kept reply = []
        | Answer resp =>
            if ok resp then
              match decoded resp with
              | Some d => kept reply = [record d]
              | None => kept reply = []
              end
            else kept reply = []
        end).
Proof.
  split.
  - intros token api names w1 Ht Hpages run. subst run.
    rewrite (run_with_names api token names w1 Ht Hpages). cbn [fst snd fetches files].
    destruct (searchPages_spec api (Z.to_nat maxPages) 1 [] start)
      as (res & k & _ & Hrun & _).
    rewrite Hpages in Hrun. injection Hrun as _ ->. cbn [files start app].
    repeat split; auto.
    + intros Hr. apply sort_In in Hr. unfold details in Hr.
      now apply in_flat_map in Hr.
    + intros Hr. apply sort_In. unfold details. now apply in_flat_map.
  - intros [e | resp]; cbn; [reflexivity |].
    destruct (ok resp); [destruct (decoded resp) |]; reflexivity.
Qed.

Lemma detail_failures_do_not_abort_witness :
  files (snd (searchViemRepos (Some "ghp_token") Samples.flakyApi start))
  = [(outputPath,
      [record (Samples.repo "g/h" 7); record (Samples.repo "a/b" 5)])].
Proof.
  rewrite (proj1 (proj2 (proj2 (proj1 detail_failures_do_not_abort
             (Some "ghp_token") Samples.flakyApi
             ["a/b"; "c/d"; "e/f"; "g/h"]
             (World [searchUrl 1] [] []) eq_refl
             ltac:(vm_compute; reflexivity))))).
  vm_compute. reflexivity.
Defined.

End CollectorClaims.

(* ================================================================= *)
(** ** More on the collector: token, paging errors, the set of names *)

Section CollectorMore.
Import JS IO Collector CollectorRuns.

(** Without a usable token the run prints its three lines of help and
    exits with code 1; it makes no request and writes no file. An empty
    token counts as none. *)
Theorem missing_token_exits (token : option string) (api : github) :
  token = None \/ token = Some "" ->
  searchViemRepos token api start
  = (Exit 1, World [] (map (fun line => (line, None)) tokenHelp) []).
Proof.
  intros [-> | ->]; now apply run_without_token.
Qed.

Lemma missing_token_exits_witness :
  fst (searchViemRepos (Some "") Samples.twoPageApi start) = Exit 1.
Proof.
  rewrite (missing_token_exits (Some "") Samples.twoPageApi (or_intror eq_refl)).
  reflexivity.
Defined.

(** A search page whose fetch throws, or whose body cannot be read, ends
    the run like a refused one: after [k] full pages the error of page
    [k + 1] is printed, the process exits with code 1, no repository
    details are requested and no file is written. *)
Theorem search_error_aborts (token : option string) (api : github)
    (k : nat) (e : error) :
  tokenSet token = true -> (k < 10)%nat ->
  Forall (fun p => fullPage (searchCode api p) = true) (pagesFrom 1 k) ->
  searchCode api (1 + Z.of_nat k) = NetworkError e
  \/ (exists r, searchCode api (1 + Z.of_nat k) = Answer r /\ ok r = true
               /\ decoded r = None /\ e = Error "Failed to read the body") ->
  searchViemRepos token api start
  = (Exit 1,
     World (map searchUrl (pagesFrom 1 (S k)))
           [("Error fetching repositories:", Some e)] []).
Proof.
  intros Ht Hk Hfull Hreply.
  assert (Hfail : pageFailure (searchCode api (1 + Z.of_nat k)) = Some e).
  { unfold pageFailure. destruct Hreply as [-> | (r & -> & -> & -> & ->)]; reflexivity. }
  assert (Hpages : searchPages api (Z.to_nat maxPages) 1 [] start
                   = (Throw e, World (map searchUrl (pagesFrom 1 (S k))) [] [])).
  { change (Z.to_nat maxPages) with 10%nat.
    replace 10%nat with (k + S (9 - k))%nat by lia.
    rewrite (searchPages_prefix api k _ _ _ _ Hfull).
    rewrite (searchPages_failure api _ _ _ _ _ Hfail).
    rewrite pagesFrom_succ, map_app. reflexivity. }
  rewrite (run_with_throw api token _ _ Ht Hpages). reflexivity.
Qed.

Lemma search_error_aborts_witness :
  searchViemRepos (Some "ghp_token") Samples.unreachableApi start
  = (Exit 1,
     World [searchUrl 1]
           [("Error fetching repositories:", Some (Error "fetch failed"))] []).
Proof.
  rewrite (search_error_aborts (Some "ghp_token") Samples.unreachableApi
             0%nat (Error "fetch failed") eq_refl ltac:(lia)
             (Forall_nil _) (or_introl eq_refl)).
  reflexivity.
Defined.

(** Ten full pages are all the collector asks for: the paging loop ends
    at its cap although the tenth page was full, and the details of the
    names gathered from the ten pages are requested next. *)
Theorem paging_stops_at_cap (token : option string) (api : github) :
  tokenSet token = true ->
  Forall (fun p => fullPage (searchCode api p) = true) (pagesFrom 1 10) ->
  let names := gathered api (pagesFrom 1 10) [] in
  searchViemRepos token api start
  = (Ok tt,
     World (map searchUrl (pagesFrom 1 10) ++ map repoUrl names)
           (detailErrors api names)
           [(outputPath, sort byStars (details api names))]).
Proof.
  intros Ht Hfull names.
  assert (Hpages : searchPages api (Z.to_nat maxPages) 1 [] start
                   = (Ok names, World (map searchUrl (pagesFrom 1 10)) [] [])).
  { change (Z.to_nat maxPages) with (10 + 0)%nat.
    rewrite (searchPages_prefix api 10 _ _ _ _ Hfull). reflexivity. }
  rewrite (run_with_names api token _ _ Ht Hpages). reflexivity.
Qed.

Lemma paging_stops_at_cap_witness :
  List.length
    (fetches (snd (searchViemRepos (Some "ghp_token") Samples.endlessApi start)))
  = 110%nat.
Proof.
  rewrite (paging_stops_at_cap (Some "ghp_token") Samples.endlessApi eq_refl).
  - vm_compute. reflexivity.
  - repeat constructor.
Defined.

(** *** Which details are requested *)

Lemma fold_add_In (names set : list string) (x : string) :
  In x (fold_left add names set) <-> In x set \/ In x names.
Proof.
  revert set. induction names as [| y names IH]; intros set; cbn.
  - tauto.
  - rewrite IH. unfold add.
    destruct (existsb (String.eqb y) set) eqn:E.
    + apply existsb_eqb_In in E. split; [tauto |].
      intros [H | [<- | H]]; auto.
    + rewrite in_app_iff. cbn. tauto.
Qed.

Lemma gathered_In (api : github) (pages : list Z) :
  forall (set : list string) (x : string),
  In x (gathered api pages set) <->
  In x set \/ exists p names,
                In p pages /\ pageNames (searchCode api p) = Some names
                /\ In x names.
Proof.
  induction pages as [| q pages IH]; intros set x; cbn [gathered].
  - split; [tauto |]. intros [H | (p & names & [] & _)]. exact H.
  - rewrite IH. destruct (pageNames (searchCode api q)) as [l |] eqn:Hq.
    + rewrite fold_add_In. split.
      * intros [[H | H] | (p & names & Hp & Hn & Hx)]; auto.
        { right. exists q, l. cbn. auto. }
        right. exists p, names. cbn. auto.
      * intros [H | (p & names & [<- | Hp] & Hn & Hx)]; auto.
        { rewrite Hq in Hn. injection Hn as <-. auto. }
        right. exists p, names. auto.
    + split.
      * intros [H | (p & names & Hp & Hn & Hx)]; auto.
        right. exists p, names. cbn. auto.
      * intros [H | (p & names & [<- | Hp] & Hn & Hx)]; auto.
        { rewrite Hq in Hn. discriminate. }
        right. exists p, names. auto.
Qed.

(** In a run that completes, the detail requests follow the page requests
    and go to pairwise different repositories: exactly those named by some
    item of some page that was fetched. *)
Theorem details_requested_once_each (token : option string) (api : github) :
  fst (searchViemRepos token api start) = Ok tt ->
  exists k names,
    (k <= 10)%nat
    /\ fetches (snd (searchViemRepos token api start))
       = (map searchUrl (pagesFrom 1 k) ++ map repoUrl names)%list
    /\ NoDup names
    /\ forall fullName,
         In fullName names <->
         exists page listed,
           In page (pagesFrom 1 k)
           /\ pageNames (searchCode api page) = Some listed
           /\ In fullName listed.
Proof.
  destruct (run_cases token api)
    as [[_ Hrun] | [(k & e & Hk & Hrun) | (k & Hk & Hrun)]];
    rewrite Hrun; cbn [fst snd fetches]; try discriminate.
  intros _. exists k, (gathered api (pagesFrom 1 k) []).
  split; [exact Hk |]. split; [reflexivity |].
  split; [apply gathered_NoDup; constructor |].
  intros fullName. rewrite gathered_In. cbn [In]. tauto.
Qed.

Lemma details_requested_once_each_witness :
  exists k names,
    (k <= 10)%nat
    /\ fetches (snd (searchViemRepos (Some "ghp_token") Samples.flakyApi start))
       = (map searchUrl (pagesFrom 1 k) ++ map repoUrl names)%list
    /\ NoDup names.
Proof.
  destruct (details_requested_once_each (Some "ghp_token") Samples.flakyApi)
    as (k & names & Hk & Hf & Hn & _).
  - vm_compute. reflexivity.
  - exists k, names. auto.
Defined.

(** *** What is written *)

Lemma kept_cases (reply : fetched repoData) :
  (detailSucceeds reply = false /\ kept reply = [])
  \/ (exists resp d, reply = Answer resp /\ ok resp = true
                    /\ decoded resp = Some d /\ detailSucceeds reply = true
                    /\ kept reply = [record d]).
Proof.
  destruct reply as [e | resp]; cbn; [now left |].
  destruct (ok resp) eqn:Hok; [| now left].
  destruct (decoded resp) as [d |] eqn:Hd; [| now left].
  right. exists resp, d. auto.
Qed.

Lemma details_length (api : github) (names : list string) :
  List.length (details api names)
  = List.length (filter (fun n => detailSucceeds (getRepo api n)) names).
Proof.
  unfold details. induction names as [| n names IH]; cbn; [reflexivity |].
  rewrite length_app, IH.
  destruct (kept_cases (getRepo api n)) as [[-> ->] | (resp & d & _ & _ & _ & -> & ->)];
    reflexivity.
Qed.

(** A run that completes writes one file, once, with one record for each
    detail request that was answered with a success status and a readable
    body; all other repositories are left out. *)
Theorem one_record_per_successful_detail (token : option string) (api : github) :
  fst (searchViemRepos token api start) = Ok tt ->
  exists k data,
    (k <= 10)%nat
    /\ files (snd (searchViemRepos token api start)) = [(outputPath, data)]
    /\ List.length data
       = List.length
           (filter (fun n => detailSucceeds (getRepo api n))
                   (gathered api (pagesFrom 1 k) []))
    /\ Permutation data (details api (gathered api (pagesFrom 1 k) [])).
Proof.
  destruct (run_cases token api)
    as [[_ Hrun] | [(k & e & Hk & Hrun) | (k & Hk & Hrun)]];
    rewrite Hrun; cbn [fst snd files]; try discriminate.
  intros _. exists k. eexists. split; [exact Hk |]. split; [reflexivity |].
  split; [| apply sort_Permutation].
  rewrite (Permutation_length (sort_Permutation byStars _)).
  apply details_length.
Qed.

Lemma one_record_per_successful_detail_witness :
  exists data,
    files (snd (searchViemRepos (Some "ghp_token") Samples.flakyApi start))
    = [(outputPath, data)].
Proof.
  destruct (one_record_per_successful_detail (Some "ghp_token") Samples.flakyApi)
    as (k & data & _ & Hf & _).
  - vm_compute. reflexivity.
  - exists data. exact Hf.
Defined.

(** A detail response without success status is dropped without a word:
    when no detail fetch throws and every successful response has a
    readable body, a run that completes prints nothing with
    [console.error], whatever the statuses were. *)
Theorem refused_details_are_silent (token : option string) (api : github) :
  fst (searchViemRepos token api start) = Ok tt ->
  (forall fullName, exists resp,
     getRepo api fullName = Answer resp
     /\ (ok resp = true -> decoded resp <> None)) ->
  stderr (snd (searchViemRepos token api start)) = [].
Proof.
  intros Hok Hreplies.
  assert (Hnone : forall names, detailErrors api names = []).
  { induction names as [| n names IH]; [reflexivity |].
    unfold detailErrors in *. cbn [flat_map]. rewrite IH, app_nil_r.
    destruct (Hreplies n) as (resp & -> & Hbody). cbn.
    destruct (ok resp); [| reflexivity].
    destruct (decoded resp); [reflexivity | now contradiction Hbody]. }
  revert Hok.
  destruct (run_cases token api)
    as [[_ Hrun] | [(k & e & Hk & Hrun) | (k & Hk & Hrun)]];
    rewrite Hrun; cbn [fst snd stderr]; try discriminate.
  intros _. apply Hnone.
Qed.

Lemma refused_details_are_silent_witness :
  stderr (snd (searchViemRepos (Some "ghp_token") Samples.goneApi start)) = [].
Proof.
  apply (refused_details_are_silent (Some "ghp_token") Samples.goneApi).
  - vm_compute. reflexivity.
  - intros fullName. eexists. split; [reflexivity |]. discriminate.
Defined.

(** When every repository-info response carries the full name it was
    asked for, no two records of the written file have the same
    [full_name]. *)
Theorem echoed_names_are_unique (token : option string) (api : github)
    (path : string) (data : list GitHubRepo) :
  (forall fullName resp d,
     getRepo api fullName = Answer resp -> decoded resp = Some d ->
     data_full_name d = fullName) ->
  In (path, data) (files (snd (searchViemRepos token api start))) ->
  NoDup (map full_name data).
Proof.
  intros Hecho.
  assert (Hsub : forall names,
            NoDup names ->
            NoDup (map full_name (details api names))
            /\ forall x, In x (map full_name (details api names)) -> In x names).
  { induction names as [| n names IH]; intros Hnd.
    - split; [constructor | intros x []].
    - inversion Hnd as [| ? ? Hn Hnames]; subst.
      destruct (IH Hnames) as [IH1 IH2].
      unfold details in *. cbn [flat_map]. rewrite map_app.
      destruct (kept_cases (getRepo api n))
        as [[_ ->] | (resp & d & Hr & _ & Hd & _ & ->)]; cbn [map app].
      + split; [exact IH1 |]. intros x Hx. right. now apply IH2.
      + cbn [record full_name]. rewrite (Hecho n resp d Hr Hd).
        split.
        * constructor; [| exact IH1]. intros Hin. apply Hn. now apply IH2.
        * intros x [<- | Hx]; [now left | right; now apply IH2]. }
  destruct (run_cases token api)
    as [[_ Hrun] | [(k & e & Hk & Hrun) | (k & Hk & Hrun)]];
    rewrite Hrun; cbn [snd files]; [intros [] | intros [] |].
  intros [E | []]. injection E as _ E. subst data.
  eapply Permutation_NoDup.
  - apply Permutation_map. symmetry. apply sort_Permutation.
  - apply Hsub. apply gathered_NoDup. constructor.
Qed.

Lemma echoed_names_are_unique_witness :
  NoDup (map full_name
           [record (Samples.repo "g/h" 7); record (Samples.repo "a/b" 5)]).
Proof.
  apply (echoed_names_are_unique (Some "ghp_token") Samples.flakyApi outputPath).
  - intros fullName resp d. cbn.
    destruct (fullName =? "a/b")%string;
      [| destruct (fullName =? "c/d")%string;
         [| destruct (fullName =? "e/f")%string]];
      intros H; try discriminate; injection H as <-; cbn;
      intros H; try discriminate; now injection H as <-.
  - vm_compute. left. reflexivity.
Defined.

End CollectorMore.

(* ================================================================= *)
(** ** More on the scraper's loop: what is kept, the cap, the URLs *)

Section ScraperMore.
Import JS IO Scraper ScraperRuns.

(** Sorting is all that happens to the scraped records: the written list
    is a rearrangement of the records of the fetched pages, entry by
    entry. Nothing is dropped or merged, so a repository listed twice is
    written twice. *)
Theorem scraper_keeps_every_entry
    (fuel : nat) (dependents : site) (maxPages : option Z)
    (path : string) (data : list DependentRepo) :
  In (path, data) (files (snd (main_with fuel dependents maxPages start))) ->
  let n := List.length (fetches (snd (main_with fuel dependents maxPages start))) in
  Permutation data (collected dependents n)
  /\ List.length data = List.length (collected dependents n)
  /\ (NoDup (map full_name data)
      <-> NoDup (map full_name (collected dependents n))).
Proof.
  destruct (main_with_spec dependents maxPages fuel)
    as (res & w & n & Hrun & _ & Hlen & _ & _ & Hres).
  rewrite Hrun. cbn [snd]. rewrite Hlen. destruct res as [u |].
  2:{ destruct Hres as [_ ->]. intros []. }
  rewrite Hres. intros [E | []]. injection E as _ E. subst data. cbn zeta.
  pose proof (sort_Permutation byStars (collected dependents n)) as Hp.
  split; [exact Hp |]. split; [now apply Permutation_length |].
  split; apply Permutation_NoDup, Permutation_map; [exact Hp | now symmetry].
Qed.

Lemma scraper_keeps_every_entry_witness :
  Permutation [Samples.acmeApp; Samples.acmeApp]
              (collected Samples.repeatingSite 1).
Proof.
  assert (Hfile : In (outputPath, [Samples.acmeApp; Samples.acmeApp])
                     (files (snd (main_with 1 Samples.repeatingSite None start))))
    by (vm_compute; left; reflexivity).
  exact (proj1 (scraper_keeps_every_entry 1 Samples.repeatingSite None
                  outputPath _ Hfile)).
Defined.

(** With the default cap, a listing whose every page has entries and a
    working "Next" link keeps the scraper paging for ever: whatever number
    of turns it is given, it has used them all on requests and has not
    written anything. *)
Theorem scraper_never_ends_on_endless_listing (dependents : site) :
  (forall i, goesOn (dependents i) <> None) ->
  forall fuel,
    fst (main fuel dependents start) = Ok None
    /\ List.length (fetches (snd (main fuel dependents start))) = fuel
    /\ files (snd (main fuel dependents start)) = [].
Proof.
  intros Hon fuel. unfold main.
  assert (Hloop : forall fuel v u w,
            nextPageUrl v = Some u -> truthy u = true ->
            exists w',
              loop fuel dependents None v w = (Ok None, w')
              /\ List.length (fetches w') = (List.length (fetches w) + fuel)%nat
              /\ files w' = files w).
  { clear fuel. induction fuel as [| fuel IH]; intros v u w Hu Ht.
    - exists w. cbn [loop]. rewrite Hu, Ht. cbn. auto.
    - destruct (goesOn (dependents (List.length (fetches w)))) as [next |] eqn:Hgo;
        [| now apply Hon in Hgo].
      destruct (loop_goes_on dependents None fuel v u next w Hu
                  ltac:(cbn; exact Ht) Hgo)
        as (v1 & errs & Hstep & _ & _ & Hnext & _).
      destruct (IH v1 next (World (fetches w ++ [u]) (stderr w ++ errs) (files w))
                   Hnext (goesOn_truthy _ _ Hgo))
        as (w' & Hrest & Hlen & Hfiles).
      exists w'. rewrite Hstep, Hrest. split; [reflexivity |].
      cbn [fetches files] in Hlen, Hfiles. rewrite length_app in Hlen.
      cbn in Hlen. split; [lia | exact Hfiles]. }
  unfold main_with, scrapeGitHubDependents.
  set (v0 := {| repositories := []; currentPage := 1; nextPageUrl := _ |}).
  destruct (Hloop fuel v0 _ start eq_refl eq_refl) as (w' & Hrun & Hlen & Hfiles).
  unfold bind. rewrite Hrun. cbn. auto.
Qed.

Lemma scraper_never_ends_on_endless_listing_witness :
  fst (main 25 Samples.circularSite start) = Ok None.
Proof.
  apply (scraper_never_ends_on_endless_listing Samples.circularSite).
  intros i. vm_compute. discriminate.
Defined.

(** The loop under a page cap [z], on pages that all go on. *)
Lemma loop_to_cap (dependents : site) (z : Z) (k : nat) :
  forall (fuel : nat) (v : vars) (u : string) (w : world DependentRepo),
  (k <= fuel)%nat ->
  nextPageUrl v = Some u -> truthy u = true ->
  Z.of_nat k = Z.max 0 (z - currentPage v + 1) ->
  (forall i, (i < k)%nat ->
     goesOn (dependents (List.length (fetches w) + i)%nat) <> None) ->
  exists v' w',
    loop fuel dependents (Some z) v w = (Ok (Some v'), w')
    /\ List.length (fetches w') = (List.length (fetches w) + k)%nat
    /\ files w' = files w
    /\ repositories v'
       = (repositories v
          ++ flat_map (fun i => pageRecords (dependents i))
                      (seq (List.length (fetches w)) k))%list.
Proof.
  induction k as [| k IH]; intros fuel v u w Hfuel Hu Ht Hk Hon.
  - exists v, w.
    assert (Hcap : withinCap (currentPage v) (Some z) = false)
      by (cbn; apply Z.leb_gt; lia).
    destruct fuel; cbn [loop]; rewrite Hu, Hcap; cbn;
      rewrite Nat.add_0_r, app_nil_r; auto.
  - destruct fuel as [| fuel]; [lia |].
    assert (Hcap : withinCap (currentPage v) (Some z) && truthy u = true)
      by (rewrite Ht, andb_true_r; cbn; apply Z.leb_le; lia).
    destruct (goesOn (dependents (List.length (fetches w)))) as [next |] eqn:Hgo.
    2:{ exfalso. apply (Hon 0%nat); [lia |]. now rewrite Nat.add_0_r. }
    destruct (loop_goes_on dependents (Some z) fuel v u next w Hu Hcap Hgo)
      as (v1 & errs & Hstep & Hrepos & Hpage & Hnext & _).
    set (w1 := World (fetches w ++ [u]) (stderr w ++ errs) (files w)) in *.
    assert (Hw1 : List.length (fetches w1) = S (List.length (fetches w))).
    { subst w1. cbn. rewrite length_app. cbn. lia. }
    destruct (IH fuel v1 next w1) as (v' & w' & Hrest & Hlen & Hfiles & Hrepos');
      auto.
    + lia.
    + eapply goesOn_truthy; eauto.
    + lia.
    + intros i Hi. rewrite Hw1.
      replace (S (List.length (fetches w)) + i)%nat
        with (List.length (fetches w) + S i)%nat by lia.
      apply Hon. lia.
    + exists v', w'. rewrite Hstep. split; [exact Hrest |].
      split; [lia |]. split; [exact Hfiles |].
      rewrite Hrepos', Hrepos, Hw1, <- app_assoc. reflexivity.
Qed.

(** A page cap is kept to the page: on a listing whose pages go on, a cap
    of [z] pages makes exactly [z] requests (none when [z] is zero or
    negative), after which the records of these pages are sorted and
    written. *)
Theorem page_cap_is_exact (dependents : site) (z : Z) (fuel : nat) :
  (forall i, Z.of_nat i < z -> goesOn (dependents i) <> None) ->
  z <= Z.of_nat fuel ->
  let run := main_with fuel dependents (Some z) start in
  fst run = Ok (Some tt)
  /\ List.length (fetches (snd run)) = Z.to_nat z
  /\ files (snd run)
     = [(outputPath, sort byStars (collected dependents (Z.to_nat z)))].
Proof.
  intros Hon Hfuel run. subst run.
  unfold main_with, scrapeGitHubDependents.
  set (v0 := {| repositories := []; currentPage := 1; nextPageUrl := _ |}).
  destruct (loop_to_cap dependents z (Z.to_nat z) fuel v0 baseUrl start)
    as (v' & w' & Hrun & Hlen & Hfiles & Hrepos).
  - lia.
  - reflexivity.
  - reflexivity.
  - cbn. lia.
  - intros i Hi. cbn. apply Hon. lia.
  - unfold bind. rewrite Hrun. cbn. cbn in Hlen, Hfiles, Hrepos.
    rewrite Hlen, Hfiles, Hrepos. auto.
Qed.

Lemma page_cap_is_exact_witness :
  List.length (fetches (snd (main_with 9 Samples.circularSite (Some 3) start)))
  = 3%nat.
Proof.
  apply (page_cap_is_exact Samples.circularSite 3 9).
  - intros i _. vm_compute. discriminate.
  - lia.
Defined.

(** *** The URLs that are fetched *)

(** The requests of the loop form a chain: the first goes to the URL in
    [nextPageUrl], each later one to the URL that the reply before it
    goes on with. *)
Lemma loop_chain (dependents : site) (maxPages : option Z) (fuel : nat) :
  forall (v : vars) (w : world DependentRepo),
  exists us,
    fetches (snd (loop fuel dependents maxPages v w)) = (fetches w ++ us)%list
    /\ (us <> [] -> nextPageUrl v = nth_error us 0)
    /\ forall i u,
         nth_error us (S i) = Some u ->
         goesOn (dependents (List.length (fetches w) + i)%nat) = Some u.
Proof.
  induction fuel as [| fuel IH]; intros v w.
  - exists []. cbn [loop].
    destruct (nextPageUrl v) as [u |];
      [destruct (withinCap (currentPage v) maxPages && truthy u) |];
      cbn; rewrite app_nil_r; (split; [reflexivity |]);
      (split; [congruence | intros i u'; destruct i; discriminate]).
  - cbn [loop].
    destruct (nextPageUrl v) as [u |] eqn:Hu.
    2:{ exists []. cbn. rewrite app_nil_r. split; [reflexivity |].
        split; [congruence | intros i u'; destruct i; discriminate]. }
    destruct (withinCap (currentPage v) maxPages && truthy u) eqn:Hc.
    2:{ exists []. cbn. rewrite app_nil_r. split; [reflexivity |].
        split; [congruence | intros i u'; destruct i; discriminate]. }
    destruct (turn_spec dependents v u w)
      as (fl & v1 & errs & Hturn & _ & Hflow & _).
    unfold bind at 1. rewrite Hturn.
    set (w1 := World (fetches w ++ [u]) (stderr w ++ errs) (files w)).
    destruct (goesOn (dependents (List.length (fetches w)))) as [next |] eqn:Hgo.
    + destruct Hflow as (-> & _ & Hnext).
      destruct (IH v1 w1) as (us & Hus & Hfirst & Hrest).
      exists (u :: us). rewrite Hus. subst w1. cbn [fetches].
      rewrite <- app_assoc. split; [reflexivity |]. split; [reflexivity |].
      intros [| i] u' Hi.
      * rewrite Nat.add_0_r, Hgo. rewrite <- Hnext. cbn in Hi.
        rewrite Hfirst; [exact Hi |]. intros ->. discriminate.
      * cbn in Hi. specialize (Hrest i u' Hi). cbn [fetches] in Hrest.
        rewrite length_app in Hrest. cbn in Hrest.
        replace (List.length (fetches w) + S i)%nat
          with (List.length (fetches w) + 1 + i)%nat by lia.
        exact Hrest.
    + subst fl. exists [u]. cbn. split; [reflexivity |]. split; [reflexivity |].
      intros i u' Hi. destruct i; discriminate.
Qed.

(** The first request goes to the listing of [wevm/viem]; every later
    request goes to the link of the "Next" button of the page before it,
    as it is when it starts with [http] and put after [https://github.com]
    otherwise; that page had entries and its button was not disabled. *)
Theorem scraper_follows_next_links
    (fuel : nat) (dependents : site) (maxPages : option Z) :
  let requested := fetches (snd (main_with fuel dependents maxPages start)) in
  (forall u, nth_error requested 0 = Some u -> u = baseUrl)
  /\ (forall i u,
        nth_error requested (S i) = Some u ->
        exists doc href,
          pageOf (dependents i) = Some doc
          /\ repoBoxes doc <> []
          /\ nextHref doc = Some href /\ href <> ""
          /\ nextDisabled doc = false
          /\ u = if startsWith href "http" then href
                 else "https://github.com" ++ href).
Proof.
  unfold main_with, scrapeGitHubDependents.
  set (v0 := {| repositories := []; currentPage := 1; nextPageUrl := _ |}).
  destruct (loop_chain dependents maxPages fuel v0 start)
    as (us & Hus & Hfirst & Hrest).
  assert (Hreq : fetches (snd (main_with fuel dependents maxPages start)) = us).
  { unfold main_with, scrapeGitHubDependents, bind. fold v0.
    destruct (loop fuel dependents maxPages v0 start) as [[[v' |] | e | c] w'];
      cbn in *; exact Hus. }
  unfold main_with, scrapeGitHubDependents in Hreq. fold v0 in Hreq.
  rewrite Hreq. cbn zeta. split.
  - intros u H0. destruct us as [| u0 us]; [discriminate |].
    specialize (Hfirst ltac:(discriminate)). cbn in Hfirst, H0.
    injection H0 as <-. injection Hfirst as <-. reflexivity.
  - intros i u Hi. specialize (Hrest i u Hi). cbn in Hrest.
    unfold goesOn in Hrest.
    destruct (pageOf (dependents i)) as [doc |] eqn:Hp; [| discriminate].
    destruct (repoBoxes doc) as [| b bs] eqn:Hb; [discriminate |].
    destruct (nextHref doc) as [href |] eqn:Hn; [| discriminate].
    destruct (truthy href) eqn:Hh; [| discriminate].
    destruct (nextDisabled doc) eqn:Hd; [discriminate |].
    injection Hrest as <-. exists doc, href.
    split; [reflexivity |]. split; [rewrite Hb; discriminate |].
    split; [exact Hn |].
    split; [intros E; rewrite E in Hh; discriminate Hh |].
    split; [exact Hd | reflexivity].
Qed.

Lemma scraper_follows_next_links_witness :
  exists doc href,
    pageOf (Samples.emptySecondPageSite 0%nat) = Some doc
    /\ nextHref doc = Some href /\ href <> "".
Proof.
  destruct (proj2 (scraper_follows_next_links 2 Samples.emptySecondPageSite None)
              0%nat _ eq_refl)
    as (doc & href & Hdoc & _ & Hhref & Hne & _).
  exists doc, href. auto.
Defined.

End ScraperMore.

(* ================================================================= *)
(** ** More on star counts: separators, plain numbers, what comes out *)

Section StarCountsMore.
Import JS IO NumberFacts Scraper.

Lemma removeAll_app (cls : ascii -> bool) (a b : string) :
  removeAll cls (a ++ b) = removeAll cls a ++ removeAll cls b.
Proof.
  induction a as [| c a IH]; cbn; [reflexivity |].
  rewrite IH. now destruct (cls c).
Qed.

(** Commas and whitespace count for nothing, wherever they stand: a star
    text with one more of them parses to the same number. *)
Theorem parseStarCount_ignores_separators (a b : string) (c : ascii) :
  c = ","%char \/ isWhiteSpace c = true ->
  parseStarCount (a ++ String c b) = parseStarCount (a ++ b).
Proof.
  intros Hc. unfold parseStarCount. rewrite !removeAll_app. cbn [removeAll].
  assert (H : commaOrSpace c = true).
  { unfold commaOrSpace. destruct Hc as [-> | ->]; [reflexivity |].
    apply orb_true_r. }
  now rewrite H.
Qed.

Lemma parseStarCount_ignores_separators_witness :
  parseStarCount ("1" ++ String "," "234") = parseStarCount ("1" ++ "234").
Proof.
  apply (parseStarCount_ignores_separators "1" "234" ","). now left.
Defined.

(** What comes out of [parseStarCount] is an integer, an infinity or NaN,
    never a fraction; and NaN comes out only of a text with a [k] or an
    [m] in it (in either case) that [parseFloat] cannot read. *)
Theorem parseStarCount_result (starsText : string) :
  let cleaned := removeAll commaOrSpace starsText in
  integral_or_infinite (parseStarCount starsText)
  \/ (parseStarCount starsText = NaN
      /\ parseFloat cleaned = NaN
      /\ (includes (toLowerCase cleaned) "k"
          || includes (toLowerCase cleaned) "m") = true).
Proof.
  intros cleaned. unfold parseStarCount. fold cleaned.
  assert (Hscaled : forall c,
            (exists m e, c = S754_finite false m e) ->
            integral_or_infinite (Math_round (mul (parseFloat cleaned) c))
            \/ (Math_round (mul (parseFloat cleaned) c) = NaN
                /\ parseFloat cleaned = NaN)).
  { intros c (m & e & ->).
    destruct (parseFloat_signed cleaned) as [E | Hs].
    - right. rewrite E. split; reflexivity.
    - left. apply Math_round_integral.
      eapply signed_not_NaN, mul_positive_signed, Hs. }
  destruct (includes (toLowerCase cleaned) "k") eqn:Hk.
  - destruct (Hscaled (of_Z 1000)) as [H | [H1 H2]];
      [vm_compute; eauto | now left | right; auto].
  - destruct (includes (toLowerCase cleaned) "m") eqn:Hm.
    + destruct (Hscaled (of_Z 1000000)) as [H | [H1 H2]];
        [vm_compute; eauto | now left | right; auto].
    + left. destruct (parseInt_integral cleaned) as [E | E].
      * rewrite E. cbn. left. reflexivity.
      * destruct (isNaN (parseInt cleaned)); [left; reflexivity | exact E].
Qed.

(** *** Plain numbers *)

Lemma removeAll_unitless (s : string) :
  allChars unitless s = true -> removeAll commaOrSpace s = s.
Proof.
  induction s as [| c r IH]; cbn; [reflexivity |].
  intros H. apply andb_true_iff in H as [Hc Hr].
  unfold unitless in Hc. apply andb_true_iff in Hc as [Hc _].
  apply andb_true_iff in Hc as [Hc _]. apply negb_true_iff in Hc.
  now rewrite Hc, IH.
Qed.

Lemma includes_char (c d : ascii) (r : string) :
  includes (String c r) (String d "") = Ascii.eqb c d || includes r (String d "").
Proof.
  cbn [includes]. unfold startsWith at 1. cbn [String.prefix].
  destruct (Ascii.ascii_dec d c) as [<- | Hne].
  - rewrite Ascii.eqb_refl. now destruct r.
  - destruct (Ascii.eqb c d) eqn:E; [| reflexivity].
    apply Ascii.eqb_eq in E. now subst.
Qed.

Lemma includes_unitless (s : string) :
  allChars unitless s = true ->
  includes (toLowerCase s) "k" = false /\ includes (toLowerCase s) "m" = false.
Proof.
  induction s as [| c r IH]; [split; reflexivity |].
  cbn [allChars toLowerCase]. intros H. apply andb_true_iff in H as [Hc Hr].
  destruct (IH Hr) as [IHk IHm]. rewrite !includes_char, IHk, IHm.
  unfold unitless in Hc. apply andb_true_iff in Hc as [Hc Hm].
  apply andb_true_iff in Hc as [_ Hk].
  apply negb_true_iff in Hk, Hm. now rewrite Hk, Hm.
Qed.

(** A text without separators and unit letters goes down the integer
    path. *)
Lemma parseStarCount_unitless (s : string) :
  allChars unitless s = true ->
  parseStarCount s = if isNaN (parseInt s) then of_Z 0 else parseInt s.
Proof.
  intros H. unfold parseStarCount.
  destruct (includes_unitless s H) as [Hk Hm].
  now rewrite (removeAll_unitless s H), Hk, Hm.
Qed.

Lemma digit_unitless (c : ascii) :
  isDigit c = true -> unitless c = true /\ isWhiteSpace c = false.
Proof.
  destruct c as [[] [] [] [] [] [] [] []]; vm_compute; intros H;
    try discriminate H; split; reflexivity.
Qed.

Lemma readDigits_numeral (d : Decimal.uint) :
  forall acc len,
  exists len',
    readDigits (NilEmpty.string_of_uint d) acc len = (numeral d acc, len', "")
    /\ len <= len' /\ (d <> Decimal.Nil -> len < len').
Proof.
  induction d; intros acc len; cbn [NilEmpty.string_of_uint numeral];
    try (exists len; split; [reflexivity | split; [lia | congruence]]);
    cbn [readDigits];
    match goal with
    | |- context [isDigit ?c] =>
        replace (isDigit c) with true by reflexivity;
        match goal with
        | |- context [numeral d (10 * acc + ?k)] =>
            replace (digitValue c) with k by reflexivity
        end
    end;
    match goal with
    | |- context [readDigits _ ?a ?l] =>
        destruct (IHd a l) as (len' & -> & Hle & _)
    end;
    exists len'; (split; [reflexivity | split; [lia | intros _; lia]]).
Qed.

Lemma numeral_acc (d : Decimal.uint) :
  forall acc, numeral d (Zpos acc) = Zpos (Pos.of_uint_acc d acc).
Proof.
  induction d; intros acc; cbn [numeral Pos.of_uint_acc]; try reflexivity;
    rewrite <- IHd; f_equal; lia.
Qed.

Lemma numeral_0 (d : Decimal.uint) : numeral d 0 = Z.of_N (Pos.of_uint d).
Proof.
  induction d; cbn [numeral Pos.of_uint]; try reflexivity;
    try (rewrite <- IHd; reflexivity);
    change (10 * 0 + _) with (Zpos 1%positive) ||
    idtac; cbn [Z.of_N]; rewrite <- numeral_acc; reflexivity.
Qed.

Lemma string_of_uint_digits (d : Decimal.uint) :
  allChars isDigit (NilEmpty.string_of_uint d) = true.
Proof. induction d; cbn; auto. Qed.

Lemma digit_leads (c : ascii) (s : string) :
  isDigit c = true ->
  trimStart (String c s) = String c s
  /\ readSign (String c s) = (false, String c s).
Proof.
  intros H. destruct (digit_unitless c H) as [_ Hw]. cbn [trimStart].
  rewrite Hw. split; [reflexivity |].
  destruct c as [[] [] [] [] [] [] [] []]; try reflexivity;
    vm_compute in H; discriminate H.
Qed.

Lemma string_of_uint_leads (d : Decimal.uint) :
  d <> Decimal.Nil ->
  exists c s, NilEmpty.string_of_uint d = String c s /\ isDigit c = true.
Proof.
  destruct d; [congruence | ..]; intros _; cbn; eauto.
Qed.

(** [parseInt] on a printed numeral, with or without a minus sign. *)
Lemma parseInt_numeral (neg : bool) (d : Decimal.uint) :
  d <> Decimal.Nil ->
  parseInt ((if neg then "-" else "") ++ NilEmpty.string_of_uint d)
  = if numeral d 0 =? 0 then S754_zero neg
    else of_Z (cond_Zopp neg (numeral d 0)).
Proof.
  intros Hd.
  destruct (string_of_uint_leads d Hd) as (c & s & Hs & Hc).
  destruct (digit_leads c s Hc) as [Htrim Hsign].
  destruct (readDigits_numeral d 0 0) as (len' & Hread & _ & Hlen).
  specialize (Hlen Hd).
  assert (Hz : (len' =? 0) = false) by (apply Z.eqb_neq; lia).
  unfold parseInt. destruct neg; cbn [append].
  - cbn [trimStart]. replace (isWhiteSpace "-") with false by reflexivity.
    cbn [readSign]. rewrite Hread, Hz. reflexivity.
  - rewrite Hs, Htrim, Hsign, <- Hs, Hread, Hz. reflexivity.
Qed.

(** A count printed in plain decimal is read back as the Number of that
    integer, whatever its sign and size. *)
Theorem parseStarCount_reads_printed_integer (z : Z) :
  parseStarCount (string_of_Z z) = of_Z z.
Proof.
  assert (Hdigits : forall d, allChars unitless (NilEmpty.string_of_uint d) = true).
  { induction d; cbn; auto. }
  assert (Hpos : forall p, numeral (Pos.to_uint p) 0 = Zpos p).
  { intros p. now rewrite numeral_0, DecimalPos.Unsigned.of_to. }
  assert (Hprint : forall p, NilZero.string_of_uint (Pos.to_uint p)
                             = NilEmpty.string_of_uint (Pos.to_uint p)).
  { intros p. pose proof (DecimalPos.Unsigned.to_uint_nonnil p) as Hnil.
    unfold NilZero.string_of_uint. now destruct (Pos.to_uint p). }
  destruct z as [| p | p].
  - vm_compute. reflexivity.
  - assert (Hs : string_of_Z (Zpos p)
                 = (if false then "-" else "") ++ NilEmpty.string_of_uint (Pos.to_uint p)).
    { unfold string_of_Z. cbn [Z.to_int NilZero.string_of_int append].
      apply Hprint. }
    rewrite parseStarCount_unitless by (rewrite Hs; apply Hdigits).
    rewrite Hs, (parseInt_numeral false (Pos.to_uint p))
      by apply DecimalPos.Unsigned.to_uint_nonnil.
    rewrite Hpos. cbn [Z.eqb cond_Zopp].
    pose proof (of_Z_signed (Zpos p)) as Hsigned.
    destruct (of_Z (Zpos p)); try reflexivity. contradiction.
  - assert (Hs : string_of_Z (Zneg p)
                 = (if true then "-" else "") ++ NilEmpty.string_of_uint (Pos.to_uint p)).
    { unfold string_of_Z. cbn [Z.to_int NilZero.string_of_int append].
      now rewrite Hprint. }
    rewrite parseStarCount_unitless
      by (rewrite Hs; cbn [append allChars]; rewrite Hdigits; reflexivity).
    rewrite Hs, (parseInt_numeral true (Pos.to_uint p))
      by apply DecimalPos.Unsigned.to_uint_nonnil.
    rewrite Hpos. cbn [Z.eqb cond_Zopp Z.opp].
    pose proof (of_Z_signed (Zneg p)) as Hsigned.
    destruct (of_Z (Zneg p)); try reflexivity. contradiction.
Qed.

End StarCountsMore.

(* ================================================================= *)
(** ** Sorted output *)

Module SortedOutput.
Import JS NumberFacts.

(** *** Rounding does not leave the grid and does not lose a sign *)

Lemma fexp_emin (k : Z) : emin prec emax <= fexp prec emax k.
Proof. unfold fexp. lia. Qed.

Lemma shr_fexp_grid (m e : Z) (l : location) :
  emin prec emax <= snd (shr_fexp prec emax m e l).
Proof.
  unfold shr_fexp, shr.
  pose proof (fexp_emin (Zdigits2 m + e)) as H.
  destruct (fexp prec emax (Zdigits2 m + e) - e) eqn:E; cbn [snd]; lia.
Qed.

Lemma binary_round_aux_grid (s : bool) (m e : Z) (l : location) :
  onGrid (binary_round_aux prec emax s m e l).
Proof.
  unfold binary_round_aux.
  destruct (shr_fexp prec emax m e l) as [mrs1 e1].
  pose proof (shr_fexp_grid (round_nearest_even (shr_m mrs1) (loc_of_shr_record mrs1))
                e1 loc_Exact) as H.
  destruct (shr_fexp prec emax _ e1 loc_Exact) as [mrs2 e2]. cbn [snd] in H.
  destruct (shr_m mrs2); [exact I | | exact I].
  destruct (_ <=? _); [exact H | exact I].
Qed.

Lemma binary_round_grid (s : bool) (m : positive) (e : Z) :
  onGrid (binary_round prec emax s m e).
Proof.
  unfold binary_round. destruct (shl_align m e _) as [mz ez].
  apply binary_round_aux_grid.
Qed.

Lemma of_Z_grid (z : Z) : onGrid (of_Z z).
Proof. destruct z; cbn; auto; apply binary_round_grid. Qed.

Lemma mul_grid (x y : number) : onGrid (mul x y).
Proof.
  destruct x as [sx | sx | | sx mx ex], y as [sy | sy | | sy my ey];
    cbn; auto.
  apply binary_round_aux_grid.
Qed.

Lemma of_decimal_grid (neg : bool) (digits exp10 : Z) :
  onGrid (of_decimal neg digits exp10).
Proof.
  unfold of_decimal. destruct digits; cbn [onGrid]; auto.
  destruct exp10; try apply binary_round_grid.
  unfold SFdiv. destruct (SFdiv_core_binary _ _ _ _ _ _) as [[mz ez] lz].
  apply binary_round_aux_grid.
Qed.

Lemma Math_round_grid (x : number) : onGrid x -> onGrid (Math_round x).
Proof.
  destruct x as [s | s | | s m e]; cbn [onGrid]; auto.
  intros H. unfold Math_round. destruct (0 <=? e); [exact H |].
  destruct (_ =? 0); [exact I | apply of_Z_grid].
Qed.

Lemma parseInt_grid (s : string) : onGrid (parseInt s).
Proof.
  unfold parseInt. destruct (readSign _) as [neg s1].
  destruct (readDigits s1 0 0) as [[n len] rest].
  destruct (len =? 0); [exact I |].
  destruct (n =? 0); [exact I | apply of_Z_grid].
Qed.

Lemma parseFloat_grid (s : string) : onGrid (parseFloat s).
Proof.
  unfold parseFloat. destruct (readSign _) as [neg s1].
  destruct (startsWith s1 "Infinity"); [exact I |].
  destruct (readDigits s1 0 0) as [[ip ilen] s2].
  assert (H : onGrid (if ilen =? 0 then NaN else of_decimal neg ip (readExponent s2))).
  { destruct (ilen =? 0); [exact I | apply of_decimal_grid]. }
  destruct s2 as [| c s3]; [exact H |].
  destruct (Ascii.ascii_dec c ".") as [-> | Hc].
  - destruct (readDigits s3 ip 0) as [[m flen] s4].
    destruct ((ilen =? 0) && (flen =? 0)); [exact I | apply of_decimal_grid].
  - destruct c as [[] [] [] [] [] [] [] []]; try exact H.
    now contradiction Hc.
Qed.

Lemma parseStarCount_grid (starsText : string) :
  onGrid (Scraper.parseStarCount starsText).
Proof.
  unfold Scraper.parseStarCount.
  destruct (includes _ "k"); [apply Math_round_grid, mul_grid |].
  destruct (includes _ "m"); [apply Math_round_grid, mul_grid |].
  destruct (isNaN _); [exact I | apply parseInt_grid].
Qed.

(** A value written in canonical form is on the grid. *)
Lemma valid_binary_grid (x : number) :
  valid_binary prec emax x = true -> onGrid x.
Proof.
  destruct x as [s | s | | s m e]; cbn [valid_binary onGrid]; auto.
  unfold bounded, canonical_mantissa. intros H.
  apply andb_true_iff in H as [H _]. apply Z.eqb_eq in H.
  rewrite <- H. apply fexp_emin.
Qed.

(** *** Rounding a non-zero value of the grid does not give zero *)

Lemma digits2_pos_lower (m : positive) :
  2 ^ (Zpos (digits2_pos m) - 1) <= Zpos m.
Proof.
  induction m as [m IH | m IH |]; cbn [digits2_pos].
  - replace (Zpos (Pos.succ (digits2_pos m)) - 1)
      with (Z.succ (Zpos (digits2_pos m) - 1)) by lia.
    rewrite Z.pow_succ_r by lia. lia.
  - replace (Zpos (Pos.succ (digits2_pos m)) - 1)
      with (Z.succ (Zpos (digits2_pos m) - 1)) by lia.
    rewrite Z.pow_succ_r by lia. lia.
  - cbn. lia.
Qed.

Lemma shr_1_lower (r : shr_record) (k : Z) :
  0 <= k -> 2 ^ (k + 1) <= shr_m r -> 2 ^ k <= shr_m (shr_1 r).
Proof.
  intros Hk. rewrite Z.pow_add_r, Z.pow_1_r by lia.
  pose proof (Z.pow_pos_nonneg 2 k ltac:(lia) Hk) as Hpos.
  destruct r as [m r s]. cbn [shr_m shr_1].
  destruct m as [| [p | p |] | p]; cbn [shr_m]; lia.
Qed.

Lemma iter_shr_1_lower (p : positive) :
  forall (r : shr_record) (k : Z),
  0 <= k -> 2 ^ (k + Zpos p) <= shr_m r ->
  2 ^ k <= shr_m (iter_pos shr_1 p r).
Proof.
  induction p as [p IH | p IH |]; intros r k Hk H; cbn [iter_pos].
  - apply IH; [exact Hk |]. apply IH; [lia |]. apply shr_1_lower; [lia |].
    replace (k + Zpos p + Zpos p + 1) with (k + Zpos p~1) by lia. exact H.
  - apply IH; [exact Hk |]. apply IH; [lia |].
    replace (k + Zpos p + Zpos p) with (k + Zpos p~0) by lia. exact H.
  - now apply shr_1_lower.
Qed.

Lemma shr_fexp_positive (m : positive) (e : Z) (l : location) :
  emin prec emax <= e ->
  0 < shr_m (fst (shr_fexp prec emax (Zpos m) e l)).
Proof.
  intros He. unfold shr_fexp, shr. cbn [Zdigits2].
  destruct (fexp prec emax (Zpos (digits2_pos m) + e) - e) as [| p | p] eqn:E;
    cbn [fst]; rewrite ?shr_record_of_loc_m; try lia.
  assert (Hp : Zpos (digits2_pos m) - 1 = prec - 1 + Zpos p).
  { unfold fexp in E. lia. }
  pose proof (digits2_pos_lower m) as Hm. rewrite Hp in Hm.
  pose proof (iter_shr_1_lower p (shr_record_of_loc (Zpos m) l) (prec - 1)
                ltac:(unfold prec; lia)) as H.
  rewrite shr_record_of_loc_m in H. specialize (H Hm).
  pose proof (Z.pow_pos_nonneg 2 (prec - 1) ltac:(lia) ltac:(unfold prec; lia)).
  lia.
Qed.

Lemma round_nearest_even_ge (m : Z) (l : location) :
  m <= round_nearest_even m l.
Proof.
  destruct l as [| []]; cbn; try lia. destruct (Z.even m); lia.
Qed.

Lemma binary_round_aux_nonzero (s : bool) (m : positive) (e : Z) (l : location) :
  emin prec emax <= e ->
  gtz (binary_round_aux prec emax s (Zpos m) e l) = negb s.
Proof.
  intros He. unfold binary_round_aux.
  pose proof (shr_fexp_positive m e l He) as H1.
  pose proof (shr_fexp_grid (Zpos m) e l) as G1.
  destruct (shr_fexp prec emax (Zpos m) e l) as [mrs1 e1].
  cbn [fst snd] in H1, G1.
  pose proof (round_nearest_even_ge (shr_m mrs1) (loc_of_shr_record mrs1)) as H2.
  destruct (round_nearest_even (shr_m mrs1) (loc_of_shr_record mrs1))
    as [| m2 | m2]; try lia.
  pose proof (shr_fexp_positive m2 e1 loc_Exact G1) as H3.
  destruct (shr_fexp prec emax (Zpos m2) e1 loc_Exact) as [mrs2 e2].
  cbn [fst] in H3.
  destruct (shr_m mrs2); try lia.
  destruct (_ <=? _); now destruct s.
Qed.

Lemma binary_round_nonzero (s : bool) (m : positive) (e : Z) :
  emin prec emax <= e ->
  gtz (binary_round prec emax s m e) = negb s.
Proof.
  intros He. unfold binary_round, shl_align.
  pose proof (fexp_emin (Zpos (digits2_pos m) + e)) as Hf.
  destruct (fexp prec emax (Zpos (digits2_pos m) + e) - e);
    apply binary_round_aux_nonzero; lia.
Qed.

(** *** The sign of a difference *)

Lemma shl_align_value (m : positive) (e ez : Z) :
  ez <= e -> Zpos (fst (shl_align m e ez)) = Zpos m * 2 ^ (e - ez).
Proof.
  intros H. unfold shl_align.
  destruct (ez - e) as [| d | d] eqn:E; cbn [fst]; try lia.
  - replace (e - ez) with 0 by lia. lia.
  - rewrite Zpos_shift. f_equal. f_equal. lia.
Qed.

(** The comparison function of [sort] is positive exactly when its first
    argument has the smaller value. *)
Lemma sub_positive (x y : number) :
  onGrid x -> onGrid y ->
  gtz (sub y x)
  = match inUnits x, inUnits y with
    | Some a, Some b => below a b
    | _, _ => false
    end.
Proof.
  destruct x as [sx | sx | | sx mx ex], y as [sy | sy | | sy my ey];
    intros Gx Gy; cbn [onGrid] in Gx, Gy.
  1-3, 5-12, 14-15:
    cbn [sub SFsub inUnits below gtz negb];
    repeat match goal with s : bool |- _ => destruct s end; reflexivity.
  - (* x = 0, y finite *)
    cbn [sub SFsub inUnits below gtz].
    pose proof (Z.pow_pos_nonneg 2 (ey - emin prec emax) ltac:(lia) ltac:(lia)).
    destruct sy; cbn [cond_Zopp]; symmetry;
      [apply Z.ltb_ge | apply Z.ltb_lt]; lia.
  - (* x finite, y = 0 *)
    cbn [sub SFsub inUnits below gtz negb].
    pose proof (Z.pow_pos_nonneg 2 (ex - emin prec emax) ltac:(lia) ltac:(lia)).
    destruct sx; cbn [cond_Zopp negb]; symmetry;
      [apply Z.ltb_lt | apply Z.ltb_ge]; lia.
  - (* both finite *)
    cbn [sub SFsub inUnits below].
    set (ez := Z.min ey ex).
    rewrite (shl_align_value my ey ez), (shl_align_value mx ex ez) by lia.
    set (vy := cond_Zopp sy (Zpos my * 2 ^ (ey - ez))).
    set (vx := cond_Zopp sx (Zpos mx * 2 ^ (ex - ez))).
    assert (Hscale : forall s m e, ez <= e ->
              cond_Zopp s (Zpos m * 2 ^ (e - emin prec emax))
              = cond_Zopp s (Zpos m * 2 ^ (e - ez)) * 2 ^ (ez - emin prec emax)).
    { intros s m e He.
      replace (e - emin prec emax) with ((e - ez) + (ez - emin prec emax)) by lia.
      rewrite Z.pow_add_r by lia. destruct s; cbn [cond_Zopp]; lia. }
    rewrite (Hscale sx mx ex), (Hscale sy my ey) by lia.
    fold vx vy.
    pose proof (Z.pow_pos_nonneg 2 (ez - emin prec emax) ltac:(lia) ltac:(lia)) as Hpos.
    unfold binary_normalize.
    destruct (vy - vx) as [| d | d] eqn:Hd.
    + cbn [gtz]. symmetry. apply Z.ltb_ge. nia.
    + rewrite binary_round_nonzero by lia. symmetry. apply Z.ltb_lt. nia.
    + rewrite binary_round_nonzero by lia. symmetry. apply Z.ltb_ge. nia.
Qed.

(** *** Insertion keeps a list descending *)

Section Descending.
Context {A : Type}.
Variable key : A -> number.
Variable comparefn : A -> A -> number.
Hypothesis comparefn_key : forall a b, comparefn a b = sub (key b) (key a).

Lemma keys_compare (x y : A) :
  key x <> NaN -> onGrid (key x) -> key y <> NaN -> onGrid (key y) ->
  (gtz (comparefn x y) = false -> atLeast (key x) (key y))
  /\ (gtz (comparefn x y) = true -> atLeast (key y) (key x)).
Proof.
  intros Nx Gx Ny Gy. unfold atLeast.
  rewrite comparefn_key, (sub_positive (key x) (key y) Gx Gy).
  destruct (key x) as [sx | sx | | sx mx ex]; try (now contradiction Nx);
    destruct (key y) as [sy | sy | | sy my ey]; try (now contradiction Ny);
    cbn [inUnits]; (split; [auto |]);
    repeat match goal with s : bool |- _ => destruct s end;
    cbn [below]; try discriminate; try reflexivity;
    intros H; apply Z.ltb_lt in H; apply Z.ltb_ge; lia.
Qed.

Lemma insert_descending (x : A) (l : list A) :
  key x <> NaN /\ onGrid (key x) ->
  Forall (fun a => key a <> NaN /\ onGrid (key a)) l ->
  descending (map key l) -> descending (map key (insert comparefn x l)).
Proof.
  intros [Nx Gx]. induction l as [| y l IH]; intros Hl Hd; [exact I |].
  inversion Hl as [| ? ? [Ny Gy] Hl']; subst.
  destruct (keys_compare x y Nx Gx Ny Gy) as [Hxy Hyx].
  cbn [insert]. destruct (gtz (comparefn x y)) eqn:E.
  - assert (Hd' : descending (map key l)).
    { destruct l; [exact I | exact (proj2 Hd)]. }
    specialize (IH Hl' Hd').
    destruct l as [| z l]; cbn [insert map descending] in *.
    + auto.
    + destruct (gtz (comparefn x z)); cbn [map descending] in *.
      * split; [exact (proj1 Hd) | exact IH].
      * split; [auto | exact IH].
  - cbn [map descending]. split; [auto | exact Hd].
Qed.

(** Sorting with a comparison function that subtracts keys puts a list
    whose keys are numbers of the grid, none NaN, in descending order. *)
Lemma sort_descending (l : list A) :
  Forall (fun a => key a <> NaN /\ onGrid (key a)) l ->
  descending (map key (sort comparefn l)).
Proof.
  induction l as [| x l IH]; intros Hl; [exact I |].
  inversion Hl as [| ? ? Hx Hl']; subst. cbn [sort fold_right].
  apply insert_descending; auto.
  rewrite Forall_forall in *. intros y Hy. apply Hl'.
  apply (sort_In comparefn). exact Hy.
Qed.

End Descending.

End SortedOutput.

(* ================================================================= *)
(** ** The written lists are in descending order of stars *)

Section SortedFiles.
Import JS IO SortedOutput.

(** Unless a star text hits the NaN of [parseStarCount], what the scraper
    writes is sorted: the [stars] of the written records, as numeric
    values, do not increase from one record to the next. *)
Theorem scraper_output_descending
    (fuel : nat) (dependents : Scraper.site) (maxPages : option Z)
    (path : string) (data : list Scraper.DependentRepo) :
  In (path, data)
     (files (snd (Scraper.main_with fuel dependents maxPages start))) ->
  (forall r, In r data -> Scraper.stars r <> NaN) ->
  descending (map Scraper.stars data).
Proof.
  intros Hfile Hnan.
  assert (Hgrid : forall r, In r data -> onGrid (Scraper.stars r)).
  { intros r Hr.
    destruct (written_In _ _ _ _ _ _ Hfile Hr) as (n & Hn).
    destruct (collected_In _ _ _ Hn) as (i & doc & b & _ & _ & _ & Hb).
    destruct (parseBox_record b r Hb) as (_ & _ & -> & _).
    apply parseStarCount_grid. }
  revert Hfile Hnan Hgrid.
  destruct (ScraperRuns.main_with_spec dependents maxPages fuel)
    as (res & w & n & Hrun & _ & _ & _ & _ & Hres).
  rewrite Hrun. cbn [snd]. destruct res as [u |].
  2:{ destruct Hres as [_ ->]. intros []. }
  rewrite Hres. intros [E | []] Hnan Hgrid. injection E as _ E. subst data.
  apply (sort_descending Scraper.stars Scraper.byStars (fun a b => eq_refl)).
  apply Forall_forall. intros r Hr.
  apply (sort_In Scraper.byStars) in Hr. auto.
Qed.

Lemma scraper_output_descending_witness :
  descending
    (map Scraper.stars
       (sort Scraper.byStars (Scraper.collected Samples.emptySecondPageSite 1))).
Proof.
  apply (scraper_output_descending 2 Samples.emptySecondPageSite None
           Scraper.outputPath).
  - vm_compute. left. reflexivity.
  - intros r Hr. vm_compute in Hr.
    destruct Hr as [<- | [<- | []]]; discriminate.
Defined.

(** The collector's file is sorted as well, whenever the star counts that
    the API reported are binary64 numbers (in canonical form) and none is
    NaN. *)
Theorem collector_output_descending
    (token : option string) (api : Collector.github)
    (path : string) (data : list Collector.GitHubRepo) :
  In (path, data) (files (snd (Collector.searchViemRepos token api start))) ->
  (forall r, In r data ->
     Collector.stars r <> NaN
     /\ valid_binary prec emax (Collector.stars r) = true) ->
  descending (map Collector.stars data).
Proof.
  destruct (CollectorRuns.run_cases token api)
    as [[_ Hrun] | [(k & e & Hk & Hrun) | (k & Hk & Hrun)]];
    rewrite Hrun; cbn [snd files]; [intros [] | intros [] |].
  intros [E | []] Hstars. injection E as _ E. subst data.
  apply (sort_descending Collector.stars Collector.byStars (fun a b => eq_refl)).
  apply Forall_forall. intros r Hr.
  apply (sort_In Collector.byStars) in Hr.
  destruct (Hstars r Hr) as [Hn Hv]. split; [exact Hn |].
  now apply valid_binary_grid.
Qed.

Lemma collector_output_descending_witness :
  descending
    (map Collector.stars
       [Collector.record (Samples.repo "g/h" 7);
        Collector.record (Samples.repo "a/b" 5)]).
Proof.
  apply (collector_output_descending (Some "ghp_token") Samples.flakyApi
           Collector.outputPath).
  - vm_compute. left. reflexivity.
  - intros r [<- | [<- | []]]; split; solve [discriminate | reflexivity].
Defined.

End SortedFiles.

(* ================================================================= *)
(** ** Listing entries *)

Section Entries.
Import JS IO Scraper.

Lemma allChars_app (p : ascii -> bool) (a b : string) :
  allChars p (a ++ b) = allChars p a && allChars p b.
Proof.
  induction a as [| c a IH]; cbn; [reflexivity |].
  now rewrite IH, andb_assoc.
Qed.

Lemma nameChar_not_space (s : string) :
  allChars nameChar s = true ->
  allChars (fun c => negb (isWhiteSpace c)) s = true.
Proof.
  induction s as [| c r IH]; cbn; [reflexivity |].
  intros H. apply andb_true_iff in H as [Hc Hr].
  apply andb_true_iff in Hc as [Hc _]. now rewrite Hc, IH.
Qed.

Lemma trimEnd_no_space (s : string) :
  allChars (fun c => negb (isWhiteSpace c)) s = true -> trimEnd s = s.
Proof.
  induction s as [| c r IH]; cbn; [reflexivity |].
  intros H. apply andb_true_iff in H as [Hc Hr]. rewrite (IH Hr).
  apply negb_true_iff in Hc. rewrite Hc. now destruct r.
Qed.

Lemma trim_no_space (s : string) :
  allChars (fun c => negb (isWhiteSpace c)) s = true -> trim s = s.
Proof.
  intros H. unfold trim.
  assert (Hs : trimStart s = s).
  { destruct s as [| c r]; [reflexivity |]. cbn in *.
    apply andb_true_iff in H as [Hc _]. apply negb_true_iff in Hc.
    now rewrite Hc. }
  rewrite Hs. now apply trimEnd_no_space.
Qed.

Lemma split_name (s : string) :
  allChars nameChar s = true -> split "/" s = [s].
Proof.
  induction s as [| c r IH]; cbn; [reflexivity |].
  intros H. apply andb_true_iff in H as [Hc Hr].
  apply andb_true_iff in Hc as [_ Hc]. apply negb_true_iff in Hc.
  now rewrite Hc, (IH Hr).
Qed.

Lemma split_after_name (a b : string) :
  allChars nameChar a = true ->
  split "/" (a ++ String "/" b) = a :: split "/" b.
Proof.
  induction a as [| c a IH]; cbn [append allChars split].
  - intros _. reflexivity.
  - intros H. apply andb_true_iff in H as [Hc Ha].
    apply andb_true_iff in Hc as [_ Hc]. apply negb_true_iff in Hc.
    now rewrite Hc, (IH Ha).
Qed.

(** An entry whose link is [/owner/repo], with names free of whitespace
    and slashes, becomes the record of [owner/repo]: [name] is [repo],
    [full_name] is [owner/repo] and [url] is its GitHub address; the
    description and the language are the trimmed texts, or null when
    blank, and [stars] is the parsed star text. *)
Theorem parseBox_owner_repo (b : box) (owner repo : string) :
  repoHref b = Some ("/" ++ owner ++ "/" ++ repo) ->
  allChars nameChar owner = true ->
  allChars nameChar repo = true -> repo <> "" ->
  parseBox b
  = Some {| name := repo;
            full_name := owner ++ "/" ++ repo;
            description := orNull (trim (descriptionText b));
            stars := parseStarCount (trim (starsText b));
            url := "https://github.com/" ++ owner ++ "/" ++ repo;
            language := orNull (trim (languageText b)) |}.
Proof.
  intros Hhref Ho Hr Hne.
  assert (Hfull : fullNameOf b = owner ++ "/" ++ repo).
  { unfold fullNameOf. rewrite Hhref. cbn [append removeFirst].
    replace (Ascii.eqb "/" "/") with true by reflexivity.
    apply trim_no_space. rewrite allChars_app. cbn [append allChars].
    rewrite (nameChar_not_space _ Ho), (nameChar_not_space _ Hr). reflexivity. }
  assert (Ht : truthy (owner ++ "/" ++ repo) = true) by now destruct owner.
  assert (Htr : truthy repo = true) by now destruct repo.
  unfold parseBox. rewrite Hfull, Ht.
  cbn [append]. rewrite (split_after_name owner repo Ho), (split_name repo Hr).
  now rewrite Htr.
Qed.

Lemma parseBox_owner_repo_witness :
  parseBox (Samples.row "/acme/app" "12") = Some Samples.acmeApp.
Proof.
  rewrite (parseBox_owner_repo (Samples.row "/acme/app" "12") "acme" "app"
             eq_refl eq_refl eq_refl ltac:(discriminate)).
  vm_compute. reflexivity.
Defined.

(** *** Trimmed fields *)

Lemma trimStart_head (s : string) :
  trimStart s = ""
  \/ exists c r, trimStart s = String c r /\ isWhiteSpace c = false.
Proof.
  induction s as [| c r IH]; cbn; [now left |].
  destruct (isWhiteSpace c) eqn:Hc; [exact IH | right; eauto].
Qed.

Lemma trimEnd_idempotent (s : string) : trimEnd (trimEnd s) = trimEnd s.
Proof.
  induction s as [| c r IH]; cbn [trimEnd]; [reflexivity |].
  destruct (trimEnd r) as [| d r'] eqn:Hr.
  - destruct (isWhiteSpace c) eqn:Hc; cbn [trimEnd]; [reflexivity |].
    now rewrite Hc.
  - cbn [trimEnd]. cbn [trimEnd] in IH. rewrite IH. reflexivity.
Qed.

Lemma trim_idempotent (s : string) : trim (trim s) = trim s.
Proof.
  unfold trim.
  assert (H : trimStart (trimEnd (trimStart s)) = trimEnd (trimStart s)).
  { destruct (trimStart_head s) as [-> | (c & r & -> & Hc)]; [reflexivity |].
    cbn [trimEnd]. destruct (trimEnd r); rewrite ?Hc; cbn [trimStart];
      rewrite Hc; reflexivity. }
  rewrite H. apply trimEnd_idempotent.
Qed.

(** In every record that the scraper writes, [full_name] has no whitespace
    at either end, and [description] and [language] are either null or a
    non-empty text without whitespace at either end. *)
Theorem scraped_fields_are_trimmed
    (fuel : nat) (dependents : site) (maxPages : option Z)
    (path : string) (data : list DependentRepo) (r : DependentRepo) :
  In (path, data) (files (snd (main_with fuel dependents maxPages start))) ->
  In r data ->
  trim (full_name r) = full_name r
  /\ (forall text, description r = Some text -> text <> "" /\ trim text = text)
  /\ (forall text, language r = Some text -> text <> "" /\ trim text = text).
Proof.
  intros Hfile Hr.
  destruct (written_In _ _ _ _ _ _ Hfile Hr) as (n & Hn).
  destruct (collected_In _ _ _ Hn) as (i & doc & b & _ & _ & _ & Hb).
  assert (HorNull : forall s text,
            orNull (trim s) = Some text -> text <> "" /\ trim text = text).
  { intros s text. unfold orNull.
    destruct (truthy (trim s)) eqn:Ht; [| discriminate].
    intros [= <-]. split; [| apply trim_idempotent].
    intros E. rewrite E in Ht. discriminate. }
  unfold parseBox in Hb.
  destruct (truthy (fullNameOf b)); [| discriminate].
  injection Hb as <-. cbn [full_name description language].
  split; [| split; apply HorNull].
  unfold fullNameOf. destruct (repoHref b); [apply trim_idempotent | reflexivity].
Qed.

Lemma scraped_fields_are_trimmed_witness :
  trim (full_name Samples.acmeRecord) = full_name Samples.acmeRecord.
Proof.
  assert (Hfile : In (outputPath, [Samples.acmeRecord])
                     (files (snd (main_with 1 Samples.trailingSlashSite None start))))
    by (vm_compute; left; reflexivity).
  exact (proj1 (scraped_fields_are_trimmed 1 Samples.trailingSlashSite None _ _
                  Samples.acmeRecord Hfile (or_introl eq_refl))).
Defined.

(** *** The statistics of [main] *)

Lemma add_NaN_l (x : number) : add NaN x = NaN.
Proof. reflexivity. Qed.

Lemma add_NaN_r (x : number) : add x NaN = NaN.
Proof. now destruct x. Qed.

Lemma fold_add_NaN (l : list DependentRepo) :
  fold_left (fun sum r => add sum (stars r)) l NaN = NaN.
Proof. induction l as [| r l IH]; cbn; auto. Qed.

(** One record whose [stars] is NaN turns the total of the statistics
    block into NaN, and the average with it. The average is NaN for an
    empty list, too. *)
Theorem statistics_are_NaN (repositories : list DependentRepo) :
  repositories = [] \/ (exists r, In r repositories /\ stars r = NaN) ->
  averageStars repositories = NaN
  /\ (repositories <> [] -> totalStars repositories = NaN).
Proof.
  intros [-> | (r & Hr & Hnan)].
  - split; [vm_compute; reflexivity | congruence].
  - assert (Htotal : totalStars repositories = NaN).
    { unfold totalStars. generalize (of_Z 0).
      induction repositories as [| r' l IH]; intros acc; [destruct Hr |].
      cbn [fold_left]. destruct Hr as [-> | Hr].
      - rewrite Hnan, add_NaN_r. apply fold_add_NaN.
      - now apply IH. }
    unfold averageStars. rewrite Htotal. split; [reflexivity | auto].
Qed.

Lemma statistics_are_NaN_witness :
  averageStars (collected Samples.unparseableStarsSite 1) = NaN.
Proof.
  refine (proj1 (statistics_are_NaN (collected Samples.unparseableStarsSite 1) _)).
  right. exists (nth 1 (collected Samples.unparseableStarsSite 1) Samples.acmeRecord).
  split; [vm_compute; right; left; reflexivity | vm_compute; reflexivity].
Defined.

End Entries.

(* ================================================================= *)
(** ** What [Math.round] rounds to *)

Module Rounding.
Import JS NumberFacts SortedOutput.

Lemma digits2_pos_upper (m : positive) : Zpos m < 2 ^ Zpos (digits2_pos m).
Proof.
  induction m as [m IH | m IH |]; cbn [digits2_pos].
  - rewrite Pos2Z.inj_succ, Z.pow_succ_r by lia. lia.
  - rewrite Pos2Z.inj_succ, Z.pow_succ_r by lia. lia.
  - cbn. lia.
Qed.

Lemma Zdigits2_upper (m : Z) : 0 <= m -> m < 2 ^ Zdigits2 m.
Proof.
  destruct m as [| p | p]; cbn [Zdigits2]; intros H; try lia.
  apply digits2_pos_upper.
Qed.

Lemma shr_1_upper (r : shr_record) (k : Z) :
  0 <= k -> shr_m r < 2 ^ (k + 1) -> shr_m (shr_1 r) < 2 ^ k.
Proof.
  intros Hk. rewrite Z.pow_add_r, Z.pow_1_r by lia.
  pose proof (Z.pow_pos_nonneg 2 k ltac:(lia) Hk) as Hpos.
  destruct r as [m r s]. cbn [shr_m shr_1].
  destruct m as [| [p | p |] | [p | p |]]; cbn [shr_m]; lia.
Qed.

Lemma iter_shr_1_upper (p : positive) :
  forall (r : shr_record) (k : Z),
  0 <= k -> shr_m r < 2 ^ (k + Zpos p) ->
  shr_m (iter_pos shr_1 p r) < 2 ^ k.
Proof.
  induction p as [p IH | p IH |]; intros r k Hk H; cbn [iter_pos].
  - apply IH; [exact Hk |]. apply IH; [lia |]. apply shr_1_upper; [lia |].
    replace (k + Zpos p + Zpos p + 1) with (k + Zpos p~1) by lia. exact H.
  - apply IH; [exact Hk |]. apply IH; [lia |].
    replace (k + Zpos p + Zpos p) with (k + Zpos p~0) by lia. exact H.
  - now apply shr_1_upper.
Qed.

(** What is left of a mantissa after the shift to its canonical exponent
    has at most [prec] bits. *)
Lemma shr_fexp_upper (m e : Z) (l : location) :
  0 <= m -> shr_m (fst (shr_fexp prec emax m e l)) < 2 ^ prec.
Proof.
  intros Hm. unfold shr_fexp, shr.
  pose proof (Zdigits2_upper m Hm) as Hd.
  assert (Hd0 : 0 <= Zdigits2 m) by (destruct m; cbn; lia).
  destruct (fexp prec emax (Zdigits2 m + e) - e) as [| p | p] eqn:E;
    cbn [fst]; rewrite ?shr_record_of_loc_m.
  - assert (Hle : Zdigits2 m <= prec) by (unfold fexp in E; lia).
    pose proof (Z.pow_le_mono_r 2 _ _ ltac:(lia) Hle). lia.
  - apply iter_shr_1_upper; [unfold prec; lia |].
    rewrite shr_record_of_loc_m.
    assert (Hle : Zdigits2 m <= prec + Zpos p) by (unfold fexp in E; lia).
    pose proof (Z.pow_le_mono_r 2 _ _ ltac:(lia) Hle). lia.
  - assert (Hle : Zdigits2 m <= prec) by (unfold fexp in E; lia).
    pose proof (Z.pow_le_mono_r 2 _ _ ltac:(lia) Hle). lia.
Qed.

(** A rounded value has a mantissa of at most [prec] bits. *)
Lemma binary_round_aux_mantissa (s : bool) (m e : Z) (l : location)
    (s' : bool) (m' : positive) (e' : Z) :
  0 <= m ->
  binary_round_aux prec emax s m e l = S754_finite s' m' e' ->
  Zpos m' < 2 ^ prec.
Proof.
  intros Hm. unfold binary_round_aux.
  pose proof (shr_fexp_nonneg m e l Hm) as H1.
  destruct (shr_fexp prec emax m e l) as [mrs1 e1]. cbn [fst] in H1.
  pose proof (shr_fexp_upper _ e1 loc_Exact
                (round_nearest_even_nonneg _ (loc_of_shr_record mrs1) H1)) as H2.
  destruct (shr_fexp prec emax _ e1 loc_Exact) as [mrs2 e2]. cbn [fst] in H2.
  destruct (shr_m mrs2); try discriminate.
  destruct (_ <=? _); try discriminate.
  intros H. injection H as _ <- _. exact H2.
Qed.

Lemma mul_mantissa (x y : number) (s : bool) (m : positive) (e : Z) :
  mul x y = S754_finite s m e -> Zpos m < 2 ^ prec.
Proof.
  destruct x as [sx | sx | | sx mx ex], y as [sy | sy | | sy my ey];
    cbn [mul SFmul]; try discriminate.
  apply binary_round_aux_mantissa. lia.
Qed.

(** An integer of at most [prec] bits is a Number. *)
Lemma binary_round_to_Z (s : bool) (m : positive) :
  Zpos m < 2 ^ prec ->
  to_Z (binary_round prec emax s m 0) = Some (cond_Zopp s (Zpos m)).
Proof.
  intros Hm.
  assert (Hd : Zpos (digits2_pos m) <= prec).
  { pose proof (digits2_pos_lower m) as Hl.
    destruct (Z.le_gt_cases (Zpos (digits2_pos m)) prec) as [H | H]; [exact H |].
    pose proof (Z.pow_le_mono_r 2 prec (Zpos (digits2_pos m) - 1)
                  ltac:(lia) ltac:(lia)). lia. }
  unfold binary_round, shl_align.
  set (ex' := fexp prec emax (Zpos (digits2_pos m) + 0)).
  assert (Hex : ex' = Zpos (digits2_pos m) - prec).
  { subst ex'. unfold fexp, emin, emax, prec in *. lia. }
  assert (Hle : (ex' <=? emax - prec) = true)
    by (apply Z.leb_le; unfold emax, prec in *; lia).
  destruct (ex' - 0) as [| j | j] eqn:Hj; [| lia |].
  - assert (Hfexp : fexp prec emax (Zpos (digits2_pos m) + 0) - 0 = 0)
      by (fold ex'; lia).
    unfold binary_round_aux, shr_fexp.
    cbn [Zdigits2]. rewrite Hfexp.
    cbn [shr shr_record_of_loc shr_m loc_of_shr_record round_nearest_even
         Zdigits2].
    rewrite Hfexp. cbn [shr shr_record_of_loc shr_m].
    change (0 <=? emax - prec) with true. cbn [to_Z].
    change (0 <=? 0) with true. cbn [Z.pow]. f_equal. f_equal. lia.
  - assert (Hexj : ex' = Zneg j) by lia.
    assert (Hfexp : fexp prec emax (Zpos (digits2_pos m + j) + ex') - ex' = 0).
    { replace (Zpos (digits2_pos m + j) + ex')
        with (Zpos (digits2_pos m) + 0) by lia.
      fold ex'. lia. }
    unfold binary_round_aux, shr_fexp.
    cbn [Zdigits2]. rewrite digits2_pos_shift, Hfexp.
    cbn [shr shr_record_of_loc shr_m loc_of_shr_record round_nearest_even
         Zdigits2].
    rewrite digits2_pos_shift, Hfexp.
    cbn [shr shr_record_of_loc shr_m].
    rewrite Hle. cbn [to_Z]. rewrite Hexj.
    change (0 <=? Zneg j) with false. change (- Zneg j) with (Zpos j).
    rewrite Zpos_shift, Z.mod_mul by (apply Z.pow_nonzero; lia).
    rewrite Z.eqb_refl, Z.div_mul by (apply Z.pow_nonzero; lia).
    reflexivity.
Qed.

Lemma of_Z_to_Z (n : Z) : Z.abs n < 2 ^ prec -> to_Z (of_Z n) = Some n.
Proof.
  destruct n as [| p | p]; intros H; [reflexivity | |];
    cbn [Z.abs] in H; unfold of_Z, binary_normalize;
    rewrite binary_round_to_Z by exact H; reflexivity.
Qed.

(** [Math.round] of a finite Number is the nearest integer, and of two
    nearest ones the greater. *)
Lemma Math_round_nearest (x : number) :
  match x with
  | S754_zero _ => True
  | S754_finite _ m _ => Zpos m < 2 ^ prec
  | _ => False
  end ->
  exists n, to_Z (Math_round x) = Some n /\ nearest x n.
Proof.
  destruct x as [s | s | | s m e]; try contradiction.
  - intros _. exists 0. split; reflexivity.
  - intros Hm. unfold Math_round, nearest.
    destruct (0 <=? e) eqn:He.
    + apply Z.leb_le in He. exists (cond_Zopp s (Zpos m * 2 ^ e)).
      split; [cbn [to_Z]; apply Z.leb_le in He; now rewrite He |].
      rewrite (Z.max_l 0 (- e)), (Z.max_r 0 e) by lia.
      destruct s; cbn [cond_Zopp]; lia.
    + apply Z.leb_gt in He.
      rewrite (Z.max_r 0 (- e)), (Z.max_l 0 e) by lia.
      assert (Hpow : 2 ^ (1 - e) = 2 * 2 ^ (- e)).
      { replace (1 - e) with (Z.succ (- e)) by lia. apply Z.pow_succ_r. lia. }
      assert (Hd : 2 <= 2 ^ (- e)).
      { change 2 with (2 ^ 1) at 1. apply Z.pow_le_mono_r; lia. }
      rewrite Hpow. set (d := 2 ^ (- e)) in *.
      set (M := cond_Zopp s (Zpos m)).
      assert (HM : - 2 ^ prec < M < 2 ^ prec)
        by (subst M; destruct s; cbn [cond_Zopp]; lia).
      set (n := (2 * M + d) / (2 * d)).
      pose proof (Z.div_mod (2 * M + d) (2 * d) ltac:(lia)) as Hdiv.
      pose proof (Z.mod_pos_bound (2 * M + d) (2 * d) ltac:(lia)) as Hmod.
      fold n in Hdiv.
      exists n. split; [| cbn [Z.pow]; lia].
      destruct (n =? 0) eqn:Hn.
      * apply Z.eqb_eq in Hn. now rewrite Hn.
      * apply of_Z_to_Z.
        assert (Hp : 0 < 2 ^ prec) by (apply Z.pow_pos_nonneg; unfold prec; lia).
        apply Z.abs_lt. split; nia.
Qed.

End Rounding.

(* ================================================================= *)
(** ** The stars of the written records (C4) *)

Section WrittenStars.
Import JS IO NumberFacts Rounding.

(** A [k] or [m] count whose product with its unit is a finite Number or
    a zero is rounded to the nearest integer, a tie upwards; an infinite
    product is returned as it is. *)
Lemma parseStarCount_rounds (starsText : string) (unit : Z) :
  let cleaned := removeAll Scraper.commaOrSpace starsText in
  (includes (toLowerCase cleaned) "k" = true /\ unit = 1000)
  \/ (includes (toLowerCase cleaned) "k" = false
      /\ includes (toLowerCase cleaned) "m" = true /\ unit = 1000000) ->
  let product := mul (parseFloat cleaned) (of_Z unit) in
  product <> NaN ->
  (exists s, product = S754_infinity s
             /\ Scraper.parseStarCount starsText = product)
  \/ (exists n, to_Z (Scraper.parseStarCount starsText) = Some n
                /\ nearest product n).
Proof.
  intros cleaned Hunit product Hnan.
  assert (Hparse : Scraper.parseStarCount starsText = Math_round product).
  { unfold Scraper.parseStarCount. fold cleaned. subst product.
    destruct Hunit as [[-> ->] | (-> & -> & ->)]; reflexivity. }
  rewrite Hparse.
  pose proof (mul_mantissa (parseFloat cleaned) (of_Z unit)) as Hm.
  fold product in Hm.
  destruct product as [s | s | | s m e] eqn:Hp.
  - right. now apply Math_round_nearest.
  - left. exists s. split; reflexivity.
  - now contradiction Hnan.
  - right. apply Math_round_nearest. exact (Hm s m e eq_refl).
Qed.

(** C4 (amended). The [stars] of a record that the scraper writes is
    [parseStarCount] of the trimmed star text of a listed entry of a
    fetched page; it is +Infinity or an integer that is not negative
    whenever the text, cleaned of commas and whitespace, does not begin
    with a minus sign and the count is not NaN. On a text with [k] (or
    else [m]) the count is the integer nearest to the product of
    [parseFloat] of the cleaned text and 1000 (1000000), a tie going
    upwards, and an infinite product is returned as it is; the text [-5]
    gives -5. The [stars] of a record that the collector writes is the
    [stargazers_count] of a repository-info reply with a success status,
    unchanged. *)
Theorem written_stars_are_parsed_counts :
  (forall (fuel : nat) (dependents : Scraper.site) (maxPages : option Z)
          (path : string) (data : list Scraper.DependentRepo)
          (r : Scraper.DependentRepo),
     let run := Scraper.main_with fuel dependents maxPages start in
     In (path, data) (files (snd run)) -> In r data ->
     exists i doc b,
       (i < List.length (fetches (snd run)))%nat
       /\ Scraper.pageOf (dependents i) = Some doc
       /\ In b (Scraper.repoBoxes doc)
       /\ Scraper.stars r = Scraper.parseStarCount (trim (Scraper.starsText b))
       /\ (startsWith (removeAll Scraper.commaOrSpace
                         (trim (Scraper.starsText b))) "-" = false ->
           Scraper.stars r <> NaN ->
           Scraper.stars r = Infinity \/ nonNegativeInteger (Scraper.stars r)))
  /\ (forall starsText : string,
        startsWith (removeAll Scraper.commaOrSpace starsText) "-" = false ->
        Scraper.parseStarCount starsText <> NaN ->
        Scraper.parseStarCount starsText = Infinity
        \/ nonNegativeInteger (Scraper.parseStarCount starsText))
  /\ (forall (starsText : string) (unit : Z),
        let cleaned := removeAll Scraper.commaOrSpace starsText in
        (includes (toLowerCase cleaned) "k" = true /\ unit = 1000)
        \/ (includes (toLowerCase cleaned) "k" = false
            /\ includes (toLowerCase cleaned) "m" = true /\ unit = 1000000) ->
        let product := mul (parseFloat cleaned) (of_Z unit) in
        product <> NaN ->
        (exists s, product = S754_infinity s
                   /\ Scraper.parseStarCount starsText = product)
        \/ (exists n, to_Z (Scraper.parseStarCount starsText) = Some n
                      /\ nearest product n))
  /\ (forall (token : option string) (api : Collector.github)
             (path : string) (data : list Collector.GitHubRepo)
             (r : Collector.GitHubRepo),
        In (path, data)
           (files (snd (Collector.searchViemRepos token api start))) ->
        In r data ->
        exists fullName resp d,
          Collector.getRepo api fullName = Answer resp
          /\ ok resp = true /\ decoded resp = Some d
          /\ Collector.stars r = Collector.stargazers_count d)
  /\ to_Z (Scraper.parseStarCount "1.2k") = Some 1200
  /\ to_Z (Scraper.parseStarCount "1.2004k") = Some 1200
  /\ to_Z (Scraper.parseStarCount "0.0025k") = Some 3
  /\ to_Z (Scraper.parseStarCount "-0.0025k") = Some (-2)
  /\ to_Z (Scraper.parseStarCount "-5") = Some (-5).
Proof.
  split; [| split; [| split; [| split]]].
  - intros fuel dependents maxPages path data r run. subst run.
    destruct (ScraperRuns.main_with_spec dependents maxPages fuel)
      as (res & w & n & Hrun & _ & Hlen & _ & _ & Hres).
    rewrite Hrun. cbn [snd]. rewrite Hlen. destruct res as [u |].
    2:{ destruct Hres as [_ ->]. intros []. }
    rewrite Hres. intros [E | []] Hr. injection E as _ E. subst data.
    apply (proj1 (sort_In Scraper.byStars r _)) in Hr.
    destruct (collected_In _ _ _ Hr) as (i & doc & b & Hi & Hdoc & Hb & Hp).
    destruct (parseBox_record b r Hp) as (_ & _ & Hstars & _).
    exists i, doc, b. repeat split; auto.
    rewrite Hstars. apply parseStarCount_not_negative.
  - exact parseStarCount_not_negative.
  - exact parseStarCount_rounds.
  - intros token api path data r.
    destruct (CollectorRuns.run_cases token api)
      as [[_ Hrun] | [(k & e & Hk & Hrun) | (k & Hk & Hrun)]];
      rewrite Hrun; cbn [snd files]; [intros [] | intros [] |].
    intros [E | []] Hr. injection E as _ E. subst data.
    apply (proj1 (sort_In Collector.byStars r _)) in Hr.
    unfold Collector.details in Hr. apply in_flat_map in Hr.
    destruct Hr as (fullName & _ & Hr).
    destruct (kept_cases (Collector.getRepo api fullName))
      as [[_ Hk'] | (resp & d & Hreply & Hok & Hd & _ & Hk')];
      rewrite Hk' in Hr; [destruct Hr |].
    destruct Hr as [<- | []]. exists fullName, resp, d. auto.
  - repeat split; vm_compute; reflexivity.
Qed.

Lemma written_stars_are_parsed_counts_witness :
  (Scraper.parseStarCount "1.2k" = Infinity
   \/ nonNegativeInteger (Scraper.parseStarCount "1.2k"))
  /\ ((exists s, mul (parseFloat "0.0025k") (of_Z 1000) = S754_infinity s
                 /\ Scraper.parseStarCount "0.0025k"
                    = mul (parseFloat "0.0025k") (of_Z 1000))
      \/ (exists n, to_Z (Scraper.parseStarCount "0.0025k") = Some n
                    /\ nearest (mul (parseFloat "0.0025k") (of_Z 1000)) n)).
Proof.
  split.
  - apply (proj1 (proj2 written_stars_are_parsed_counts) "1.2k").
    + reflexivity.
    + vm_compute. discriminate.
  - apply (proj1 (proj2 (proj2 written_stars_are_parsed_counts))
             "0.0025k" 1000).
    + left. split; reflexivity.
    + vm_compute. discriminate.
Defined.

End WrittenStars.

(* ================================================================= *)
(** ** A count that is NaN leaves the output unsorted (C2, C8, C9) *)

Section UnsortedOutput.
Import JS IO Scraper.

Lemma atLeast_not_NaN (x y : number) : atLeast x y -> x <> NaN /\ y <> NaN.
Proof.
  unfold atLeast.
  destruct x, y; cbn [inUnits]; try contradiction; intros _; split; discriminate.
Qed.

Lemma descending_no_NaN (l : list number) :
  descending l -> (2 <= List.length l)%nat -> ~ In NaN l.
Proof.
  induction l as [| x l IH]; [cbn; lia |].
  destruct l as [| y l]; [cbn; lia |].
  intros [Hxy Hd] _ Hin.
  destruct (atLeast_not_NaN x y Hxy) as [Hx Hy].
  destruct Hin as [-> | Hin]; [now apply Hx |].
  destruct l as [| z l].
  - destruct Hin as [-> | []]. now apply Hy.
  - apply IH; [exact Hd | cbn; lia | exact Hin].
Qed.

(** No arrangement of two or more values of which one is NaN is in
    descending order. *)
Lemma NaN_never_descending (l l' : list number) :
  In NaN l -> (2 <= List.length l)%nat -> Permutation l' l -> ~ descending l'.
Proof.
  intros Hin Hlen Hp Hd.
  apply (descending_no_NaN l' Hd).
  - now rewrite (Permutation_length Hp).
  - apply (Permutation_in _ (Permutation_sym Hp)). exact Hin.
Qed.

Lemma leb_not_NaN (x y : number) : leb y x = true -> x <> NaN /\ y <> NaN.
Proof.
  unfold leb, SFleb.
  destruct x, y; cbn [SFcompare]; try discriminate; intros _; split; discriminate.
Qed.

Lemma nonIncreasing_no_NaN (l : list number) :
  nonIncreasing l = true -> (2 <= List.length l)%nat -> ~ In NaN l.
Proof.
  induction l as [| x l IH]; [cbn; lia |].
  destruct l as [| y l]; [cbn; lia |].
  cbn [nonIncreasing]. intros H _ Hin.
  apply andb_true_iff in H as [Hxy Hd].
  destruct (leb_not_NaN x y Hxy) as [Hx Hy].
  destruct Hin as [-> | Hin]; [now apply Hx |].
  destruct l as [| z l].
  - destruct Hin as [-> | []]. now apply Hy.
  - apply IH; [exact Hd | cbn; lia | exact Hin].
Qed.

(** C2. The star text [m] has no numeric prefix: [parseStarCount] returns
    NaN for it, where the rule of the specification gives 0. A page that
    shows the star texts [1.2k], [m] and [3m] is written as three records
    with the stars 1200, NaN and 3000000, and however a sort arranges
    these, they are not in descending order: some record is followed by
    one that is not less than or equal to it. *)
Theorem unparseable_count_breaks_order :
  parseStarCount "m" = NaN
  /\ starCountRule "m" = of_Z 0
  /\ exists data,
       main 3 Samples.mixedUnitsSite start
       = (Ok (Some tt), World [baseUrl] [] [(outputPath, data)])
       /\ Permutation (map stars data) [of_Z 1200; NaN; of_Z 3000000]
       /\ forall l, Permutation l (map stars data) ->
            ~ descending l /\ nonIncreasing l = false.
Proof.
  split; [vm_compute; reflexivity |]. split; [vm_compute; reflexivity |].
  eexists. split; [vm_compute; reflexivity |].
  split; [vm_compute; apply Permutation_refl |].
  intros l Hl.
  assert (Hin : In NaN l).
  { apply (Permutation_in _ (Permutation_sym Hl)).
    vm_compute. right. left. reflexivity. }
  assert (Hlen : (2 <= List.length l)%nat).
  { rewrite (Permutation_length Hl). cbn. lia. }
  split.
  - intros Hd. exact (descending_no_NaN l Hd Hlen Hin).
  - destruct (nonIncreasing l) eqn:E; [| reflexivity].
    destruct (nonIncreasing_no_NaN l E Hlen Hin).
Qed.

(** C8. A first page shows the star texts [5], [k] and [7] and the second
    request is answered with status 500. The run survives: it makes the two
    requests, reports the failure with [console.error], and writes the
    three records of the first page. Their stars are 5, NaN and 7, and
    however a sort arranges these, they are not in descending order. *)
Theorem failed_page_output_not_sorted :
  exists data,
    main 5 Samples.brokenCountSite start
    = (Ok (Some tt),
       World [baseUrl;
              "https://github.com/wevm/viem/network/dependents?dependents_after=abc"]
             [("Failed to fetch page 2: 500", None)]
             [(outputPath, data)])
    /\ Permutation (map full_name data) ["acme/app"; "acme/lib"; "acme/cli"]
    /\ Permutation (map stars data) [of_Z 5; NaN; of_Z 7]
    /\ forall l, Permutation l (map stars data) -> ~ descending l.
Proof.
  eexists. split; [vm_compute; reflexivity |].
  split; [vm_compute; apply Permutation_refl |].
  split; [vm_compute; apply Permutation_refl |].
  intros l Hl. refine (NaN_never_descending _ l _ _ Hl).
  - vm_compute. right. left. reflexivity.
  - cbn. lia.
Qed.

(** C9. A single page without a "Next" button shows the star texts [5],
    [k] and [7]. The scraper makes one fetch, parses all three entries,
    ends normally and writes them; but their stars are 5, NaN and 7, and
    however a sort arranges these, they are not in descending order. *)
Theorem single_page_output_not_sorted :
  exists data,
    main 5 Samples.unparseableStarsSite start
    = (Ok (Some tt), World [baseUrl] [] [(outputPath, data)])
    /\ Permutation (map full_name data) ["acme/app"; "acme/lib"; "acme/cli"]
    /\ Permutation (map stars data) [of_Z 5; NaN; of_Z 7]
    /\ forall l, Permutation l (map stars data) -> ~ descending l.
Proof.
  eexists. split; [vm_compute; reflexivity |].
  split; [vm_compute; apply Permutation_refl |].
  split; [vm_compute; apply Permutation_refl |].
  intros l Hl. refine (NaN_never_descending _ l _ _ Hl).
  - vm_compute. right. left. reflexivity.
  - cbn. lia.
Qed.

End UnsortedOutput.

(* ================================================================= *)
(** ** Where the scraper's loop ends, and what is written then *)

Section ScraperEndings.
Import JS IO Scraper ScraperRuns SortedOutput.

Lemma parseBoxes_complete (bs : list box) (b : box) (r : DependentRepo) :
  In b bs -> parseBox b = Some r -> In r (parseBoxes bs).
Proof.
  induction bs as [| b' bs IH]; cbn [In parseBoxes]; [contradiction |].
  intros [-> | Hb] Hr.
  - rewrite Hr. now left.
  - destruct (parseBox b'); [right |]; now apply IH.
Qed.

(** The record of every entry of every page answered with success is
    among the collected ones. *)
Lemma collected_complete (dependents : site) (n i : nat) (doc : document)
    (b : box) (r : DependentRepo) :
  (i < n)%nat -> pageOf (dependents i) = Some doc ->
  In b (repoBoxes doc) -> parseBox b = Some r ->
  In r (collected dependents n).
Proof.
  intros Hi Hdoc Hb Hr. unfold collected. apply in_flat_map.
  exists i. split; [apply in_seq; lia |].
  unfold pageRecords. rewrite Hdoc. now apply (parseBoxes_complete _ b).
Qed.

(** Sorted collected records are in descending order, NaN apart. *)
Lemma collected_sorted (dependents : site) (n : nat) :
  (forall r, In r (collected dependents n) -> stars r <> NaN) ->
  descending (map stars (sort byStars (collected dependents n))).
Proof.
  intros Hnan.
  apply (sort_descending stars byStars (fun a b => eq_refl)).
  apply Forall_forall. intros r Hr. split; [now apply Hnan |].
  destruct (collected_In _ _ _ Hr) as (i & doc & b & _ & _ & _ & Hb).
  destruct (parseBox_record b r Hb) as (_ & _ & -> & _).
  apply parseStarCount_grid.
Qed.

(** The replies after which the loop does not go on. *)
Lemma terminal_reply (reply : fetched document) :
  pageOf reply = None
  \/ (exists doc, pageOf reply = Some doc
        /\ (repoBoxes doc = [] \/ nextHref doc = None
            \/ nextHref doc = Some "" \/ nextDisabled doc = true)) ->
  goesOn reply = None.
Proof.
  intros [H | (doc & Hdoc & H)]; [now apply goesOn_failed |].
  unfold goesOn. rewrite Hdoc.
  destruct (repoBoxes doc); [reflexivity |].
  destruct H as [H | [H | [H | H]]]; [discriminate | | |]; rewrite H.
  - reflexivity.
  - reflexivity.
  - destruct (nextHref doc) as [href |]; [| reflexivity].
    now rewrite andb_false_r.
Qed.

(** What a turn prints. *)
Lemma turn_reported (dependents : site) (v : vars) (pageUrl : string)
    (w : world DependentRepo) :
  stderr (snd (turn dependents v pageUrl w))
  = (stderr w
     ++ reported (currentPage v) (dependents (List.length (fetches w))))%list.
Proof.
  unfold turn, tryCatch, bind, fetchCount, fetch, readBody, reported.
  destruct (dependents (List.length (fetches w))) as [e | r]; cbn.
  - reflexivity.
  - destruct (ok r); cbn; [| reflexivity].
    destruct (decoded r) as [doc |]; cbn; [| reflexivity].
    rewrite app_nil_r.
    destruct (repoBoxes doc) as [| b bs]; cbn; [reflexivity |].
    destruct (nextHref doc) as [href |]; cbn; [| reflexivity].
    destruct (truthy href); cbn; [| reflexivity].
    destruct (nextDisabled doc); reflexivity.
Qed.

(** What the loop has printed when it ends at the first reply that does
    not go on: the report of that reply, and nothing before. *)
Lemma loop_reported (dependents : site) (maxPages : option Z) (k : nat) :
  forall (fuel : nat) (v : vars) (u : string) (w : world DependentRepo),
  (k < fuel)%nat ->
  nextPageUrl v = Some u -> truthy u = true ->
  withinCap (currentPage v + Z.of_nat k) maxPages = true ->
  (forall i, (i < k)%nat ->
     goesOn (dependents (List.length (fetches w) + i)%nat) <> None) ->
  goesOn (dependents (List.length (fetches w) + k)%nat) = None ->
  stderr (snd (loop fuel dependents maxPages v w))
  = (stderr w
     ++ reported (currentPage v + Z.of_nat k)
                 (dependents (List.length (fetches w) + k)%nat))%list.
Proof.
  assert (Hmono : forall p q, p <= q ->
            withinCap q maxPages = true -> withinCap p maxPages = true).
  { unfold withinCap. destruct maxPages; auto. intros p q Hpq Hq.
    apply Z.leb_le in Hq. apply Z.leb_le. lia. }
  induction k as [| k IH]; intros fuel v u w Hfuel Hu Ht Hcap Hon Hlast;
    (destruct fuel as [| fuel]; [lia |]).
  - rewrite Nat.add_0_r in *. rewrite Z.add_0_r in *.
    cbn [loop]. rewrite Hu, Hcap, Ht. cbn [andb].
    pose proof (turn_reported dependents v u w) as Hrep.
    destruct (turn_spec dependents v u w)
      as (fl & v1 & errs & Hturn & _ & Hflow & _).
    rewrite Hlast in Hflow. subst fl.
    unfold bind at 1. rewrite Hturn in Hrep |- *. exact Hrep.
  - destruct (goesOn (dependents (List.length (fetches w)))) as [next |] eqn:Hgo.
    2:{ exfalso. apply (Hon 0%nat); [lia |]. now rewrite Nat.add_0_r. }
    destruct (loop_goes_on dependents maxPages fuel v u next w Hu)
      as (v1 & errs & Hloop & _ & Hpage & Hnext & ->); auto.
    { rewrite Ht, (Hmono (currentPage v) (currentPage v + Z.of_nat (S k))
                     ltac:(lia) Hcap). reflexivity. }
    rewrite Hloop.
    set (w1 := World (fetches w ++ [u]) (stderr w ++ []) (files w)) in *.
    assert (Hw1 : List.length (fetches w1) = S (List.length (fetches w))).
    { subst w1. cbn. rewrite length_app. cbn. lia. }
    rewrite (IH fuel v1 next w1).
    + rewrite Hw1, Hpage. subst w1. cbn [stderr]. rewrite app_nil_r.
      replace (S (List.length (fetches w)) + k)%nat
        with (List.length (fetches w) + S k)%nat by lia.
      replace (currentPage v + 1 + Z.of_nat k)
        with (currentPage v + Z.of_nat (S k)) by lia.
      reflexivity.
    + lia.
    + exact Hnext.
    + eapply goesOn_truthy; eauto.
    + rewrite Hpage. replace (currentPage v + 1 + Z.of_nat k)
        with (currentPage v + Z.of_nat (S k)) by lia. exact Hcap.
    + intros i Hi. rewrite Hw1.
      replace (S (List.length (fetches w)) + i)%nat
        with (List.length (fetches w) + S i)%nat by lia.
      apply Hon. lia.
    + rewrite Hw1.
      replace (S (List.length (fetches w)) + k)%nat
        with (List.length (fetches w) + S k)%nat by lia.
      exact Hlast.
Qed.

Lemma main_with_reported (dependents : site) (maxPages : option Z)
    (k fuel : nat) :
  (k < fuel)%nat ->
  withinCap (1 + Z.of_nat k) maxPages = true ->
  (forall i, (i < k)%nat -> goesOn (dependents i) <> None) ->
  goesOn (dependents k) = None ->
  stderr (snd (main_with fuel dependents maxPages start))
  = reported (1 + Z.of_nat k) (dependents k).
Proof.
  intros Hfuel Hcap Hon Hlast.
  unfold main_with, scrapeGitHubDependents.
  set (v0 := {| repositories := []; currentPage := 1; nextPageUrl := _ |}).
  pose proof (loop_reported dependents maxPages k fuel v0 _ start Hfuel
                eq_refl eq_refl Hcap Hon Hlast) as Hrep.
  destruct (loop_exact dependents maxPages k fuel v0 _ start Hfuel
              eq_refl eq_refl Hcap Hon Hlast) as (v' & w' & Hloop & _).
  unfold bind. rewrite Hloop in Hrep |- *. cbn in Hrep |- *. exact Hrep.
Qed.

(** The scraper stops at the first reply that is a failure (a status
    outside 200..299, a fetch that throws, an unreadable body), a page
    without entries, or a page whose "Next" button is missing, has an
    empty link or is disabled. When that is the reply to request [k],
    counted from 0, and the page cap allows [k + 1] pages, the run ends
    normally after exactly [k + 1] requests and writes one file. The file
    holds the records of the pages fetched, each entry with a name once,
    rearranged (only those of the pages before, when the last reply is a
    failure); and they are in descending order of stars unless one of them
    has NaN stars. Nothing is printed with [console.error] when the last
    reply is a page; a refused request is reported with its page number
    and status, a fetch that throws with its page number and the error. *)
Theorem scraper_stops_at_first_terminal_reply
    (dependents : site) (maxPages : option Z) (k fuel : nat) :
  (k < fuel)%nat ->
  withinCap (1 + Z.of_nat k) maxPages = true ->
  (forall i, (i < k)%nat -> goesOn (dependents i) <> None) ->
  pageOf (dependents k) = None
  \/ (exists doc, pageOf (dependents k) = Some doc
        /\ (repoBoxes doc = [] \/ nextHref doc = None
            \/ nextHref doc = Some "" \/ nextDisabled doc = true)) ->
  exists w data,
    main_with fuel dependents maxPages start = (Ok (Some tt), w)
    /\ List.length (fetches w) = S k
    /\ files w = [(outputPath, data)]
    /\ Permutation data (collected dependents (S k))
    /\ (pageOf (dependents k) = None ->
        Permutation data (collected dependents k))
    /\ (forall i doc b r,
          (i <= k)%nat -> pageOf (dependents i) = Some doc ->
          In b (repoBoxes doc) -> parseBox b = Some r -> In r data)
    /\ (forall r, In r data ->
          exists i doc b,
            (i <= k)%nat /\ pageOf (dependents i) = Some doc
            /\ In b (repoBoxes doc) /\ parseBox b = Some r)
    /\ ((forall r, In r data -> stars r <> NaN) ->
        descending (map stars data))
    /\ (pageOf (dependents k) <> None -> stderr w = [])
    /\ (forall resp, dependents k = Answer resp -> ok resp = false ->
          stderr w
          = [("Failed to fetch page " ++ string_of_Z (1 + Z.of_nat k) ++ ": "
              ++ string_of_Z (status resp), None)])
    /\ (forall e, dependents k = NetworkError e ->
          stderr w
          = [("Error on page " ++ string_of_Z (1 + Z.of_nat k) ++ ":", Some e)]).
Proof.
  intros Hfuel Hcap Hon Hlast.
  pose proof (main_with_reported dependents maxPages k fuel Hfuel Hcap Hon
                (terminal_reply _ Hlast)) as Hrep.
  destruct (main_with_exact dependents maxPages k fuel Hfuel Hcap Hon
              (terminal_reply _ Hlast)) as (w & Hrun & Hlen & Hfiles).
  rewrite Hrun in Hrep. cbn [snd] in Hrep.
  exists w, (sort byStars (collected dependents (S k))).
  pose proof (sort_Permutation byStars (collected dependents (S k))) as Hp.
  split; [exact Hrun |]. split; [exact Hlen |]. split; [exact Hfiles |].
  split; [exact Hp |]. split; [| split; [| split; [| split; [| split; [| split]]]]].
  5:{ intros Hpage. rewrite Hrep. unfold reported, pageOf in *.
      destruct (dependents k) as [e | r]; [now contradiction Hpage |].
      destruct (ok r); [| now contradiction Hpage].
      destruct (decoded r); [reflexivity | now contradiction Hpage]. }
  5:{ intros resp Hk Hok. rewrite Hrep, Hk. unfold reported. now rewrite Hok. }
  5:{ intros e Hk. rewrite Hrep, Hk. reflexivity. }
  - intros Hnone. rewrite Hp, collected_succ. unfold pageRecords.
    now rewrite Hnone, app_nil_r.
  - intros i doc b r Hi Hdoc Hb Hr.
    apply (sort_In byStars).
    apply (collected_complete dependents (S k) i doc b r); auto. lia.
  - intros r Hr. apply (proj1 (sort_In byStars r _)) in Hr.
    destruct (collected_In _ _ _ Hr) as (i & doc & b & Hi & Hdoc & Hb & Hp').
    exists i, doc, b. repeat split; auto. lia.
  - intros Hnan. apply collected_sorted.
    intros r Hr. apply Hnan. now apply (sort_In byStars).
Qed.

Lemma scraper_stops_at_first_terminal_reply_witness :
  exists w data,
    main_with 5 Samples.failingSite None start = (Ok (Some tt), w)
    /\ List.length (fetches w) = 2%nat
    /\ files w = [(outputPath, data)]
    /\ Permutation data (collected Samples.failingSite 1)
    /\ descending (map stars data)
    /\ stderr w = [("Failed to fetch page 2: 500", None)].
Proof.
  destruct (scraper_stops_at_first_terminal_reply Samples.failingSite None 1 5)
    as (w & data & Hrun & Hlen & Hfiles & _ & Hp & _ & _ & Hd & _ & Hfail & _).
  - lia.
  - reflexivity.
  - intros i Hi. assert (i = 0%nat) as -> by lia. vm_compute. discriminate.
  - left. reflexivity.
  - exists w, data. split; [exact Hrun |]. split; [exact Hlen |].
    split; [exact Hfiles |]. split; [exact (Hp eq_refl) |].
    split.
    + apply Hd. intros r Hr.
      apply (Permutation_in _ (Hp eq_refl)) in Hr. vm_compute in Hr.
      destruct Hr as [<- | [<- | []]]; discriminate.
    + exact (Hfail (Response _ 500 "Internal Server Error" "" None)
               eq_refl eq_refl).
Defined.

End ScraperEndings.

(* ================================================================= *)
(** ** Repeated full names (C3) *)

Section RepeatedNames.
Import JS IO ScraperRuns CollectorRuns.

Lemma parseBoxes_names (bs : list Scraper.box) :
  map Scraper.full_name (Scraper.parseBoxes bs)
  = filter truthy (map Scraper.fullNameOf bs).
Proof.
  induction bs as [| b bs IH]; [reflexivity |].
  cbn [Scraper.parseBoxes map filter]. unfold Scraper.parseBox.
  destruct (truthy (Scraper.fullNameOf b)); cbn [map Scraper.full_name];
    now rewrite IH.
Qed.

(** The full names of the collected records are the names listed. *)
Lemma collected_names (dependents : Scraper.site) (n : nat) :
  map Scraper.full_name (Scraper.collected dependents n)
  = Scraper.listedNames dependents n.
Proof.
  unfold Scraper.collected, Scraper.listedNames.
  induction (seq 0 n) as [| i l IH]; [reflexivity |].
  cbn [flat_map]. rewrite map_app, IH. f_equal.
  unfold Scraper.pageRecords.
  destruct (Scraper.pageOf (dependents i)); [apply parseBoxes_names | reflexivity].
Qed.

(** Details asked for under different names, each answered under the name
    it was asked for, have different full names. *)
Lemma details_names (api : Collector.github) :
  (forall fullName resp d,
     Collector.getRepo api fullName = Answer resp -> decoded resp = Some d ->
     Collector.data_full_name d = fullName) ->
  forall names, NoDup names ->
    NoDup (map Collector.full_name (Collector.details api names))
    /\ forall x, In x (map Collector.full_name (Collector.details api names)) ->
                 In x names.
Proof.
  intros Hecho. induction names as [| n names IH]; intros Hnd.
  - split; [constructor | intros x []].
  - inversion Hnd as [| ? ? Hn Hnames]; subst.
    destruct (IH Hnames) as [IH1 IH2].
    unfold Collector.details in *. cbn [flat_map]. rewrite map_app.
    destruct (kept_cases (Collector.getRepo api n))
      as [[_ ->] | (resp & d & Hr & _ & Hd & _ & ->)]; cbn [map app].
    + split; [exact IH1 |]. intros x Hx. right. now apply IH2.
    + cbn [Collector.record Collector.full_name].
      rewrite (Hecho n resp d Hr Hd). split.
      * constructor; [| exact IH1]. intros Hin. apply Hn. now apply IH2.
      * intros x [<- | Hx]; [now left | right; now apply IH2].
Qed.

(** C3 (as stated, refuted). A listing page that shows [acme/app] twice is
    written as two records with that full name: the scraper has no set of
    names. And when the search finds a repository under two names and the
    repository-info endpoint answers both requests with the record of
    [new/name], the collector writes two records with that full name: its
    set holds the names of the search items, not those of the records. *)
Lemma same_full_name_twice :
  (Scraper.main 3 Samples.repeatingSite start
   = (Ok (Some tt),
      World [Scraper.baseUrl] []
            [(Scraper.outputPath, [Samples.acmeApp; Samples.acmeApp])])
   /\ ~ NoDup (map Scraper.full_name [Samples.acmeApp; Samples.acmeApp]))
  /\ (exists data,
        files (snd (Collector.searchViemRepos (Some "ghp_token")
                      Samples.renamedApi start))
        = [(Collector.outputPath, data)]
        /\ map Collector.full_name data = ["new/name"; "new/name"]
        /\ ~ NoDup (map Collector.full_name data)).
Proof.
  split.
  - split; [vm_compute; reflexivity |].
    cbn. intros H. inversion H as [| ? ? Hin _]. apply Hin. now left.
  - eexists. split; [vm_compute; reflexivity |].
    split; [vm_compute; reflexivity |].
    cbn. intros H. inversion H as [| ? ? Hin _]. apply Hin. now left.
Qed.

(** C3 (amended). The collector writes no two records with the same
    [full_name] whenever every repository-info reply carries the full name
    it was requested under: its requests go to pairwise different names.
    The scraper writes one record for each listed entry that has a name:
    the full names of its records are the names listed on the fetched
    pages, rearranged, so that no two records have the same [full_name]
    exactly when no name is listed twice. *)
Theorem full_names_unique_unless_repeated :
  (forall (token : option string) (api : Collector.github)
          (path : string) (data : list Collector.GitHubRepo),
     (forall fullName resp d,
        Collector.getRepo api fullName = Answer resp -> decoded resp = Some d ->
        Collector.data_full_name d = fullName) ->
     In (path, data)
        (files (snd (Collector.searchViemRepos token api start))) ->
     NoDup (map Collector.full_name data))
  /\ (forall (fuel : nat) (dependents : Scraper.site) (maxPages : option Z)
             (path : string) (data : list Scraper.DependentRepo),
        let run := Scraper.main_with fuel dependents maxPages start in
        In (path, data) (files (snd run)) ->
        let listed :=
          Scraper.listedNames dependents (List.length (fetches (snd run))) in
        Permutation (map Scraper.full_name data) listed
        /\ (NoDup (map Scraper.full_name data) <-> NoDup listed)).
Proof.
  split.
  - intros token api path data Hecho.
    destruct (run_cases token api)
      as [[_ Hrun] | [(k & e & Hk & Hrun) | (k & Hk & Hrun)]];
      rewrite Hrun; cbn [snd files]; [intros [] | intros [] |].
    intros [E | []]. injection E as _ E. subst data.
    eapply Permutation_NoDup.
    + apply Permutation_map. symmetry. apply sort_Permutation.
    + apply (details_names api Hecho). apply gathered_NoDup. constructor.
  - intros fuel dependents maxPages path data run. subst run.
    destruct (main_with_spec dependents maxPages fuel)
      as (res & w & n & Hrun & _ & Hlen & _ & _ & Hres).
    rewrite Hrun. cbn [snd]. rewrite Hlen. destruct res as [u |].
    2:{ destruct Hres as [_ ->]. intros []. }
    rewrite Hres. intros [E | []]. injection E as _ E. subst data. cbn zeta.
    assert (Hp : Permutation
                   (map Scraper.full_name
                      (sort Scraper.byStars (Scraper.collected dependents n)))
                   (Scraper.listedNames dependents n)).
    { rewrite <- collected_names. apply Permutation_map, sort_Permutation. }
    split; [exact Hp |].
    split; apply Permutation_NoDup; [exact Hp | now symmetry].
Qed.

Lemma full_names_unique_unless_repeated_witness :
  NoDup (map Collector.full_name
           [Collector.record (Samples.repo "g/h" 7);
            Collector.record (Samples.repo "a/b" 5)])
  /\ Permutation (map Scraper.full_name [Samples.acmeApp; Samples.acmeApp])
                 (Scraper.listedNames Samples.repeatingSite 1).
Proof.
  split.
  - apply (proj1 full_names_unique_unless_repeated
             (Some "ghp_token") Samples.flakyApi Collector.outputPath).
    + intros fullName resp d. cbn.
      destruct (fullName =? "a/b")%string;
        [| destruct (fullName =? "c/d")%string;
           [| destruct (fullName =? "e/f")%string]];
        intros H; try discriminate; injection H as <-; cbn;
        intros H; try discriminate; now injection H as <-.
    + vm_compute. left. reflexivity.
  - assert (Hfile : In (Scraper.outputPath, [Samples.acmeApp; Samples.acmeApp])
                       (files (snd (Scraper.main_with 1 Samples.repeatingSite
                                      None start))))
      by (vm_compute; left; reflexivity).
    exact (proj1 (proj2 full_names_unique_unless_repeated 1%nat
                    Samples.repeatingSite None Scraper.outputPath _ Hfile)).
Defined.

End RepeatedNames.
